(** * Temperature prediction pipeline for IoT sensors

    A shallow embedding of [src/model/predictive_model.py]: the
    [FeatureEngineer] stage (calendar, lag and rolling-window columns per
    sensor), the assembly of the train and test frames in
    [SensorTemperaturePredictor.prepare_features], the canonical feature
    list, and the fit / predict / evaluate contract around the scaler.

    Modelling conventions.
    - A [float64] entry of a frame is a [cell]: [Some q] for a number, taken
      in exact rational arithmetic, and [None] for NaN (a missing value).
    - A [DataFrame] is the list of its rows, in row order.  The six columns
      read from the CSV files are fields of [Row]; the columns added by
      feature engineering are kept by name, in the order of assignment.
    - [numpy]'s square root, sine, cosine and pi have no rational value and
      are taken from a [Numeric] environment.  So is the mean that
      [r2_score] takes of the target: the score branches on whether the
      sum of squares about that mean is exactly zero, and float64 rounding
      can leave the computed mean off the exact one.
    - An exception that leaves a function is a value of [exn] on the left
      of a sum; [logger.info] appends to a list of messages. *)

From Stdlib Require Import String Ascii.
From Stdlib Require Import List Bool Arith ZArith QArith Qabs Lia Lqa.
From Stdlib Require Import Permutation Sorted DecimalString.
From Stdlib Require DecimalNat DecimalFacts.
Import ListNotations.

Local Open Scope nat_scope.

(** ** Cells and rows *)

Abbreviation cell := (option Q) (only parsing).

Definition notna {A : Type} (c : option A) : bool :=
  match c with Some _ => true | None => false end.

Record Row : Type := mkRow {
  sensor_id : string;
  timestamp : option Z;          (* seconds since 1970-01-01, None is NaT *)
  latitude : cell;
  longitude : cell;
  humidity : cell;
  temperature : cell;
  derived : list (string * cell) (* engineered columns, in assignment order *)
}.

Definition DataFrame : Type := list Row.

(** [row[name] = v] on the engineered columns: overwrite in place when the
    column exists, append it otherwise. *)
Fixpoint set_col (name : string) (v : cell) (cols : list (string * cell))
  : list (string * cell) :=
  match cols with
  | [] => [(name, v)]
  | (n, c) :: rest =>
      if String.eqb n name then (n, v) :: rest
      else (n, c) :: set_col name v rest
  end.

Fixpoint get_col (name : string) (cols : list (string * cell)) : option cell :=
  match cols with
  | [] => None
  | (n, c) :: rest => if String.eqb n name then Some c else get_col name rest
  end.

Definition set_derived (name : string) (v : cell) (r : Row) : Row :=
  mkRow (sensor_id r) (timestamp r) (latitude r) (longitude r)
        (humidity r) (temperature r) (set_col name v (derived r)).

(** [df[name] = series], the series being aligned by position; a row the
    series does not reach gets NaN. *)
Fixpoint assign (name : string) (series : list cell) (df : DataFrame)
  : DataFrame :=
  match df with
  | [] => []
  | r :: df' => set_derived name (hd None series) r :: assign name (tl series) df'
  end.

(** [df[df['sensor_id'] == sensor_id]] *)
Definition rows_of (sid : string) (df : DataFrame) : DataFrame :=
  filter (fun r => String.eqb (sensor_id r) sid) df.

(** ** [sort_values('timestamp')]

    Ascending, NaT last; rows with equal timestamps keep their order. *)

Definition ts_leb (a b : option Z) : bool :=
  match a, b with
  | Some x, Some y => (x <=? y)%Z
  | None, Some _ => false
  | _, None => true
  end.

Fixpoint insert_row (r : Row) (l : DataFrame) : DataFrame :=
  match l with
  | [] => [r]
  | h :: t =>
      if ts_leb (timestamp r) (timestamp h) then r :: l
      else h :: insert_row r t
  end.

Fixpoint sort_values (df : DataFrame) : DataFrame :=
  match df with
  | [] => []
  | r :: df' => insert_row r (sort_values df')
  end.

(** ** [Series.shift(k)] *)

Definition shift (k : nat) (s : list cell) : list cell :=
  firstn (length s) (repeat None k ++ s).

(** ** Rolling windows

    [Series.rolling(window=w, min_periods=minp)] slides a window that ends
    at the current row.  The aggregations keep a running state: the value
    that leaves the window is removed, the value that enters is added, and
    NaN entries are skipped by both.  Rationals are kept in lowest terms
    ([Qred]), which leaves their value unchanged. *)

Definition Qnat (n : nat) : Q := inject_Z (Z.of_nat n).

Record MeanState : Type := mkMean { m_nobs : nat; m_sum : Q }.

Definition add_mean (v : cell) (st : MeanState) : MeanState :=
  match v with
  | Some x => mkMean (S (m_nobs st)) (Qred (m_sum st + x))
  | None => st
  end.

Definition remove_mean (v : cell) (st : MeanState) : MeanState :=
  match v with
  | Some x => mkMean (pred (m_nobs st)) (Qred (m_sum st - x))
  | None => st
  end.

Definition calc_mean (minp : nat) (st : MeanState) : cell :=
  if (minp <=? m_nobs st) && (0 <? m_nobs st)
  then Some (Qred (m_sum st / Qnat (m_nobs st)))
  else None.

Fixpoint roll_mean_from (w minp : nat) (values todo : list cell) (i : nat)
  (st : MeanState) : list cell :=
  match todo with
  | [] => []
  | v :: rest =>
      let st1 := if w <=? i then remove_mean (nth (i - w) values None) st
                 else st in
      let st2 := add_mean v st1 in
      calc_mean minp st2 :: roll_mean_from w minp values rest (S i) st2
  end.

Definition roll_mean (w minp : nat) (values : list cell) : list cell :=
  roll_mean_from w minp values values 0 (mkMean 0 0%Q).

(** Variance by Welford's update, [ddof] degrees of freedom removed. *)
Record VarState : Type := mkVar { v_nobs : nat; v_mean : Q; v_ssqdm : Q }.

Definition add_var (v : cell) (st : VarState) : VarState :=
  match v with
  | Some x =>
      let n := S (v_nobs st) in
      let delta := (x - v_mean st)%Q in
      let mean := Qred (v_mean st + delta / Qnat n) in
      mkVar n mean (Qred (v_ssqdm st + (x - v_mean st) * (x - mean)))
  | None => st
  end.

Definition remove_var (v : cell) (st : VarState) : VarState :=
  match v with
  | Some x =>
      match pred (v_nobs st) with
      | O => mkVar 0 0%Q 0%Q
      | S _ as n =>
          let delta := (x - v_mean st)%Q in
          let mean := Qred (v_mean st - delta / Qnat n) in
          mkVar n mean (Qred (v_ssqdm st - (x - v_mean st) * (x - mean)))
      end
  | None => st
  end.

Definition calc_var (minp ddof : nat) (st : VarState) : cell :=
  if (minp <=? v_nobs st) && (ddof <? v_nobs st)
  then if v_nobs st =? 1 then Some 0%Q
       else Some (Qred (v_ssqdm st / Qnat (v_nobs st - ddof)))
  else None.

Fixpoint roll_var_from (w minp ddof : nat) (values todo : list cell) (i : nat)
  (st : VarState) : list cell :=
  match todo with
  | [] => []
  | v :: rest =>
      let st1 := if w <=? i then remove_var (nth (i - w) values None) st
                 else st in
      let st2 := add_var v st1 in
      calc_var minp ddof st2 :: roll_var_from w minp ddof values rest (S i) st2
  end.

Definition roll_var (w minp ddof : nat) (values : list cell) : list cell :=
  roll_var_from w minp ddof values values 0 (mkVar 0 0%Q 0%Q).

(** ** The numeric environment *)

Record Numeric : Type := mkNumeric {
  np_pi : Q;
  np_sin : Q -> Q;
  np_cos : Q -> Q;
  np_sqrt : Q -> Q;
  np_average : list Q -> Q
}.

(** What the development asks of [np.sqrt]: no negative result on a
    non-negative argument. *)
Definition sqrt_sound (np : Numeric) : Prop :=
  forall x : Q, (0 <= x)%Q -> (0 <= np_sqrt np x)%Q.

Definition Qsum (l : list Q) : Q := fold_right Qplus 0%Q l.

Definition Qmean (l : list Q) : Q := Qred (Qsum l / Qnat (length l)).

(** A rational environment to run the model on concrete frames: the square
    root is exact on squares of multiples of 1/1000 and rounded down
    otherwise, the average is the exact mean. *)
Definition approx_sqrt (x : Q) : Q :=
  (Z.sqrt ((Qnum x * 1000000) / Zpos (Qden x)) # 1000)%Q.

Definition approx_sin (x : Q) : Q := (x - x * x * x / 6 + x * x * x * x * x / 120)%Q.
Definition approx_cos (x : Q) : Q := (1 - x * x / 2 + x * x * x * x / 24)%Q.

Definition approx_numeric : Numeric :=
  mkNumeric (355 # 113)%Q approx_sin approx_cos approx_sqrt Qmean.

(** The same environment with an average that is off the exact mean by a
    rounding error. *)
Definition rounded_numeric : Numeric :=
  mkNumeric (355 # 113)%Q approx_sin approx_cos approx_sqrt
    (fun l => Qmean l + (1 # 100000000000000000))%Q.

(** ** [FeatureEngineer.create_temporal_features] *)

(** The [.dt] accessors, on seconds since the epoch (proleptic Gregorian
    calendar, Monday is day 0). *)
Definition dt_days (t : Z) : Z := (t / 86400)%Z.

Definition dt_hour (t : Z) : Z := ((t mod 86400) / 3600)%Z.

Definition dt_dayofweek (t : Z) : Z := ((dt_days t + 3) mod 7)%Z.

(** Day of the year counted from the first of March, and the month index
    counted from March, of the civil date of [t]. *)
Definition dt_doy_march (t : Z) : Z :=
  let z := (dt_days t + 719468)%Z in
  let doe := (z mod 146097)%Z in
  let yoe := ((doe - doe / 1460 + doe / 36524 - doe / 146096) / 365)%Z in
  (doe - (365 * yoe + yoe / 4 - yoe / 100))%Z.

Definition dt_month (t : Z) : Z :=
  let mp := ((5 * dt_doy_march t + 2) / 153)%Z in
  if (mp <? 10)%Z then (mp + 3)%Z else (mp - 9)%Z.

Definition dt_day (t : Z) : Z :=
  let doy := dt_doy_march t in
  let mp := ((5 * doy + 2) / 153)%Z in
  (doy - (153 * mp + 2) / 5 + 1)%Z.

Definition dt_quarter (t : Z) : Z := ((dt_month t - 1) / 3 + 1)%Z.

Definition dt (f : Z -> Z) (t : option Z) : cell :=
  option_map (fun s => inject_Z (f s)) t.

(** [g(2 * np.pi * column / period)] *)
Definition cyclical (np : Numeric) (g : Numeric -> Q -> Q) (period : Q)
  (c : cell) : cell :=
  option_map (fun x => g np (2 * np_pi np * x / period)%Q) c.

Definition temporal_row (np : Numeric) (r : Row) : Row :=
  let hour := dt dt_hour (timestamp r) in
  let month := dt dt_month (timestamp r) in
  let r := set_derived "hour" hour r in
  let r := set_derived "day_of_week" (dt dt_dayofweek (timestamp r)) r in
  let r := set_derived "month" month r in
  let r := set_derived "day_of_month" (dt dt_day (timestamp r)) r in
  let r := set_derived "quarter" (dt dt_quarter (timestamp r)) r in
  let r := set_derived "hour_sin" (cyclical np np_sin 24 hour) r in
  let r := set_derived "hour_cos" (cyclical np np_cos 24 hour) r in
  let r := set_derived "month_sin" (cyclical np np_sin 12 month) r in
  set_derived "month_cos" (cyclical np np_cos 12 month) r.

Definition create_temporal_features (np : Numeric) (df : DataFrame)
  : DataFrame :=
  map (temporal_row np) df.

(** ** [FeatureEngineer.create_lag_features] *)

Definition fmt_nat (n : nat) : string := NilZero.string_of_uint (Nat.to_uint n).

Definition default_lags : list nat := [1; 2; 3; 6; 12; 24].

(** The body of the loop over [lags]. *)
Definition lag_columns (df : DataFrame) (lag : nat) : DataFrame :=
  let df := assign ("temp_lag_" ++ fmt_nat lag)
                   (shift lag (map temperature df)) df in
  assign ("humidity_lag_" ++ fmt_nat lag) (shift lag (map humidity df)) df.

(** [zsqrt]: the square root of a rolling variance, 0 under a negative one. *)
Definition zsqrt (np : Numeric) (x : Q) : Q :=
  if Qle_bool 0 x then np_sqrt np x else 0%Q.

Definition roll_std (np : Numeric) (w minp : nat) (values : list cell)
  : list cell :=
  map (option_map (zsqrt np)) (roll_var w minp 1 values).

Definition create_lag_features (np : Numeric) (df : DataFrame)
  (sensor : string) (lags : option (list nat)) : DataFrame :=
  let lags := match lags with None => default_lags | Some l => l end in
  let df_sensor := rows_of sensor df in
  let df_sensor := sort_values df_sensor in
  let df_sensor := fold_left lag_columns lags df_sensor in
  let df_sensor :=
    assign "temp_ma_6" (roll_mean 6 1 (map temperature df_sensor)) df_sensor in
  let df_sensor :=
    assign "temp_ma_24" (roll_mean 24 1 (map temperature df_sensor)) df_sensor in
  let df_sensor :=
    assign "humidity_ma_6" (roll_mean 6 1 (map humidity df_sensor)) df_sensor in
  let df_sensor :=
    assign "humidity_ma_24" (roll_mean 24 1 (map humidity df_sensor)) df_sensor in
  let df_sensor :=
    assign "temp_std_24" (roll_std np 24 1 (map temperature df_sensor))
           df_sensor in
  assign "humidity_std_24" (roll_std np 24 1 (map humidity df_sensor)) df_sensor.

(** ** [SensorTemperaturePredictor.prepare_features] *)

Inductive exn : Type :=
| ValueError (msg : string)
| KeyError (column : string)
| NotFittedError.

(** [Series.unique()]: the distinct values in order of first appearance. *)
Fixpoint unique (l : list string) : list string :=
  match l with
  | [] => []
  | x :: l' => x :: filter (fun y => negb (String.eqb y x)) (unique l')
  end.

Definition contains (x : string) (l : list string) : bool :=
  existsb (String.eqb x) l.

(** [pd.concat(frames, ignore_index=True)] *)
Definition pd_concat (frames : list DataFrame) : exn + DataFrame :=
  match frames with
  | [] => inl (ValueError "No objects to concatenate")
  | _ :: _ => inr (concat frames)
  end.

(** [DataFrame.dropna()]: keep the rows without a missing entry. *)
Definition cols_complete (cols : list (string * cell)) : bool :=
  forallb (fun c => notna (snd c)) cols.

Definition row_complete (r : Row) : bool :=
  notna (timestamp r) && notna (latitude r) && notna (longitude r)
  && notna (humidity r) && notna (temperature r)
  && cols_complete (derived r).

Definition dropna (df : DataFrame) : DataFrame := filter row_complete df.

Record Loop : Type := mkLoop {
  log : list string;
  train_processed : list DataFrame;
  test_processed : list DataFrame
}.

Definition engineer (np : Numeric) (df : DataFrame) (sensor : string)
  : DataFrame :=
  let df_sensor := rows_of sensor df in
  let df_sensor := create_temporal_features np df_sensor in
  create_lag_features np df_sensor sensor None.

(** One turn of the loop over [train_df['sensor_id'].unique()]. *)
Definition process_sensor (np : Numeric) (train_df test_df : DataFrame)
  (st : Loop) (sensor : string) : Loop :=
  let log :=
    log st ++ [("Processing sensor " ++ substring 0 8 sensor ++ "...")%string] in
  let train_processed := train_processed st ++ [engineer np train_df sensor] in
  if contains sensor (unique (map sensor_id test_df))
  then mkLoop log train_processed
              (test_processed st ++ [engineer np test_df sensor])
  else mkLoop log train_processed (test_processed st).

Definition features_created (n m : nat) : string :=
  ("Features created - Training: " ++ fmt_nat n ++ ", Test: " ++ fmt_nat m
   ++ " records")%string.

Definition prepare_features (np : Numeric) (train_df test_df : DataFrame)
  : list string * (exn + DataFrame * DataFrame) :=
  let st := mkLoop ["Engineering features..."%string] [] [] in
  let st := fold_left (process_sensor np train_df test_df)
                      (unique (map sensor_id train_df)) st in
  match pd_concat (train_processed st) with
  | inl e => (log st, inl e)
  | inr train_out =>
      match pd_concat (test_processed st) with
      | inl e => (log st, inl e)
      | inr test_out =>
          let train_out := dropna train_out in
          let test_out := dropna test_out in
          (log st ++ [features_created (length train_out) (length test_out)],
           inr (train_out, test_out))
      end
  end.

(** ** [SensorTemperaturePredictor.define_features] *)

Definition define_features : list string :=
  [ "latitude"; "longitude";
    "hour"; "day_of_week"; "month"; "day_of_month"; "quarter";
    "hour_sin"; "hour_cos"; "month_sin"; "month_cos";
    "humidity";
    "temp_lag_1"; "temp_lag_2"; "temp_lag_3";
    "temp_lag_6"; "temp_lag_12"; "temp_lag_24";
    "humidity_lag_1"; "humidity_lag_2"; "humidity_lag_3";
    "humidity_lag_6"; "humidity_lag_12"; "humidity_lag_24";
    "temp_ma_6"; "temp_ma_24";
    "humidity_ma_6"; "humidity_ma_24";
    "temp_std_24"; "humidity_std_24" ]%string.

(** ** The scaler and the metrics

    [StandardScaler], [mean_absolute_error], [mean_squared_error] and
    [r2_score] belong to scikit-learn; they are written out here as that
    library documents them, on matrices given row by row. *)

Definition Matrix : Type := list (list Q).

Definition sq (x : Q) : Q := (x * x)%Q.

Definition Qvariance (l : list Q) : Q :=
  let m := Qmean l in Qmean (map (fun x => sq (x - m)) l).

Record StandardScaler : Type := mkScaler {
  mean_ : list Q;
  scale_ : list Q
}.

Definition matrix_column (X : Matrix) (j : nat) : list Q :=
  map (fun row => nth j row 0%Q) X.

(** A feature of zero spread is left unscaled. *)
Definition handle_zeros_in_scale (s : Q) : Q :=
  if Qeq_bool s 0 then 1%Q else s.

Definition scaler_fit (np : Numeric) (X : Matrix) : exn + StandardScaler :=
  match X with
  | [] => inl (ValueError "Found array with 0 sample(s)")
  | row :: _ =>
      let columns := map (matrix_column X) (seq 0 (length row)) in
      inr (mkScaler (map Qmean columns)
             (map (fun c => handle_zeros_in_scale (np_sqrt np (Qvariance c)))
                  columns))
  end.

Fixpoint scale_row (means scales row : list Q) : list Q :=
  match means, scales, row with
  | m :: means', s :: scales', x :: row' =>
      Qred ((x - m) / s) :: scale_row means' scales' row'
  | _, _, _ => []
  end.

(** [StandardScaler.transform] on the values of a frame.  Before it looks
    at the values, scikit-learn compares the column labels of a frame with
    those of the frame seen in [fit] and raises [ValueError] when they
    differ.  A [Matrix] carries no labels: it stands for a frame with the
    labels seen in [fit], as [main] builds them by selecting
    [feature_columns] from both tables, and a failure of the label check
    is not among the errors below. *)
Definition scaler_transform (sc : StandardScaler) (X : Matrix) : exn + Matrix :=
  match X with
  | [] => inl (ValueError "Found array with 0 sample(s)")
  | _ :: _ =>
      if forallb (fun row => length row =? length (mean_ sc)) X
      then inr (map (scale_row (mean_ sc) (scale_ sc)) X)
      else inl (ValueError "X has a different number of features")
  end.

Record Metrics : Type := mkMetrics { mae : cell; rmse : cell; r2 : cell }.

Fixpoint residuals (y_true y_pred : list Q) : list Q :=
  match y_true, y_pred with
  | a :: y_true', b :: y_pred' => (a - b)%Q :: residuals y_true' y_pred'
  | _, _ => []
  end.

(** The input validation shared by the three metrics. *)
Definition check_targets (y_true y_pred : list Q) : option exn :=
  if negb (length y_true =? length y_pred)
  then Some (ValueError "Found input variables with inconsistent numbers of samples")
  else if length y_true =? 0
       then Some (ValueError "Found array with 0 sample(s)")
       else None.

Definition mean_absolute_error (y_true y_pred : list Q) : Q :=
  Qmean (map Qabs (residuals y_true y_pred)).

Definition mean_squared_error (y_true y_pred : list Q) : Q :=
  Qmean (map sq (residuals y_true y_pred)).

(** [r2_score] (with [force_finite], the default): NaN under two samples;
    otherwise [1 - numerator / denominator] where both sums are non-zero,
    0 where only the denominator is zero, and 1 where the numerator is
    zero.  The denominator is taken about [np.average(y_true)] as the
    environment gives it, so that its zero test is the one of the code
    and not one of exact arithmetic. *)
Definition r2_score (np : Numeric) (y_true y_pred : list Q) : cell :=
  if length y_pred <? 2 then None
  else
    let numerator := Qsum (map sq (residuals y_true y_pred)) in
    let m := np_average np y_true in
    let denominator := Qsum (map (fun y => sq (y - m)) y_true) in
    let nonzero_denominator := negb (Qeq_bool denominator 0) in
    let nonzero_numerator := negb (Qeq_bool numerator 0) in
    if nonzero_denominator && nonzero_numerator
    then Some (Qred (1 - numerator / denominator))
    else if nonzero_numerator && negb nonzero_denominator
         then Some 0%Q
         else Some 1%Q.

(** [SensorTemperaturePredictor.evaluate] (the three log lines print the
    returned numbers and are left out). *)
Definition evaluate (np : Numeric) (y_true y_pred : list Q) : exn + Metrics :=
  match check_targets y_true y_pred with
  | Some e => inl e
  | None =>
      let mae := mean_absolute_error y_true y_pred in
      let rmse := np_sqrt np (mean_squared_error y_true y_pred) in
      let r2 := r2_score np y_true y_pred in
      inr (mkMetrics (Some mae) (Some rmse) r2)
  end.

(** ** The predictor

    The random forest is opaque: any deterministic pair of a fitting and a
    predicting function. *)
Section Predictor.

Variable Forest : Type.
Variable forest_fit : Matrix -> list Q -> Forest.
Variable forest_predict : Forest -> Matrix -> list Q.

Record Predictor : Type := mkPredictor {
    scaler : option StandardScaler;
    model : option Forest;
    feature_columns : option (list string)
  }.

  (** [__init__]: nothing fitted yet. *)
Definition init : Predictor := mkPredictor None None None.

  (** [train]: [scaler.fit_transform(X_train)], then [model.fit]. *)
Definition train (np : Numeric) (self : Predictor) (X_train : Matrix)
    (y_train : list Q) : exn + Predictor :=
    match scaler_fit np X_train with
    | inl e => inl e
    | inr sc =>
        match scaler_transform sc X_train with
        | inl e => inl e
        | inr X_train_scaled =>
            if length X_train =? length y_train
            then inr (mkPredictor (Some sc)
                        (Some (forest_fit X_train_scaled y_train))
                        (feature_columns self))
            else inl (ValueError "Found input variables with inconsistent numbers of samples")
        end
    end.

  (** [predict]: the scaler is applied as fitted; [self] is not written. *)
Definition predict (self : Predictor) (X_test : Matrix) : exn + list Q :=
    match scaler self, model self with
    | Some sc, Some forest =>
        match scaler_transform sc X_test with
        | inl e => inl e
        | inr X_test_scaled => inr (forest_predict forest X_test_scaled)
        end
    | _, _ => inl NotFittedError
    end.

  (** The fitting part of [main]: [train], then [predict] on the test
      matrix when there is one.  Returns the predictor as the run leaves
      it. *)
Definition fit_run (np : Numeric) (self : Predictor) (X_train : Matrix)
    (y_train : list Q) (X_test : option Matrix)
    : exn + Predictor * option (list Q) :=
    match train np self X_train y_train with
    | inl e => inl e
    | inr fitted =>
        match X_test with
        | None => inr (fitted, None)
        | Some X =>
            match predict fitted X with
            | inl e => inl e
            | inr y_pred => inr (fitted, Some y_pred)
            end
        end
    end.

End Predictor.

Arguments mkPredictor {Forest}.
Arguments scaler {Forest}.
Arguments model {Forest}.
Arguments feature_columns {Forest}.
Arguments init {Forest}.
Arguments train {Forest}.
Arguments predict {Forest}.
Arguments fit_run {Forest}.

(** * Notions used in the statements *)

Definition ts_le (a b : Row) : Prop :=
  ts_leb (timestamp a) (timestamp b) = true.

(** The row that [create_lag_features] makes of row [r0] at position [i] of
    the sorted series [series]. *)
Definition lag_row (np : Numeric) (lags : list nat) (series : DataFrame)
  (i : nat) (r0 : Row) : Row :=
  let temps := map temperature series in
  let hums := map humidity series in
  let r :=
    fold_left
      (fun r lag =>
         set_derived ("humidity_lag_" ++ fmt_nat lag) (nth i (shift lag hums) None)
           (set_derived ("temp_lag_" ++ fmt_nat lag)
              (nth i (shift lag temps) None) r))
      lags r0 in
  let r := set_derived "temp_ma_6" (nth i (roll_mean 6 1 temps) None) r in
  let r := set_derived "temp_ma_24" (nth i (roll_mean 24 1 temps) None) r in
  let r := set_derived "humidity_ma_6" (nth i (roll_mean 6 1 hums) None) r in
  let r := set_derived "humidity_ma_24" (nth i (roll_mean 24 1 hums) None) r in
  let r := set_derived "temp_std_24" (nth i (roll_std np 24 1 temps) None) r in
  set_derived "humidity_std_24" (nth i (roll_std np 24 1 hums) None) r.

(** The readings present in a list of cells. *)
Fixpoint observed (l : list cell) : list Q :=
  match l with
  | [] => []
  | Some x :: l' => x :: observed l'
  | None :: l' => observed l'
  end.

(** The window of width [w] that ends at position [i]. *)
Definition window (w i : nat) (values : list cell) : list cell :=
  skipn (S i - w) (firstn (S i) values).

(** The cells at positions [lo], ..., [hi]. *)
Definition positions (lo hi : nat) (values : list cell) : list cell :=
  map (fun j => nth j values None) (seq lo (S hi - lo)).

(** The arithmetic mean of the readings present, null when there is none. *)
Definition mean_present (l : list cell) : cell :=
  match observed l with
  | [] => None
  | (_ :: _) as obs => Some (Qmean obs)
  end.

(** The running state of a rolling mean describes a list of cells. *)
Definition mean_tracks (st : MeanState) (l : list cell) : Prop :=
  m_nobs st = length (observed l) /\ (m_sum st == Qsum (observed l))%Q.


(** Two rows with the same six readings. *)
Definition same_reading (a b : Row) : Prop :=
  sensor_id a = sensor_id b /\ timestamp a = timestamp b
  /\ latitude a = latitude b /\ longitude a = longitude b
  /\ humidity a = humidity b /\ temperature a = temperature b.

(** The running state of a rolling variance counts the readings present. *)
Definition var_counts (st : VarState) (l : list cell) : Prop :=
  v_nobs st = length (observed l).

Definition no_nulls (l : list cell) : Prop := forallb notna l = true.

(** What C5 asks of a standard-deviation cell at position [i] of a column:
    null where the 24-row window that ends at [i] holds fewer than two
    readings, a non-negative number elsewhere. *)
Definition std_cell_ok (col : list cell) (i : nat) (c : option cell) : Prop :=
  let n := length (observed (positions (i - 23) i col)) in
  (n < 2 -> c = Some None)
  /\ (2 <= n -> exists x : Q, c = Some (Some x) /\ (0 <= x)%Q).

(** A reading of sensor [sid], [i] hours after the epoch. *)
Definition reading (sid : string) (i : nat) : Row :=
  mkRow sid (Some (3600 * Z.of_nat i)%Z) (Some (-23 # 1)%Q) (Some (-46 # 1)%Q)
        (Some (Qnat (50 + i))) (Some (Qnat (20 + i * i))) [].

(** [n] hourly readings of sensor [sid]. *)
Definition hourly (sid : string) (n : nat) : DataFrame :=
  map (reading sid) (seq 0 n).

(** Two readings of one sensor, the second without a temperature. *)
Definition gap_frame : DataFrame :=
  [ reading "s1" 0;
    mkRow "s1" (Some 3600%Z) (Some (-23 # 1)%Q) (Some (-46 # 1)%Q)
          (Some (51 # 1)%Q) None [] ].

Definition processing (sensor : string) : string :=
  ("Processing sensor " ++ substring 0 8 sensor ++ "...")%string.

(** The sensors [prepare_features] works on, and those that reach the test
    frame. *)
Definition train_sensors (train_df : DataFrame) : list string :=
  unique (map sensor_id train_df).

Definition shared_sensors (train_df test_df : DataFrame) : list string :=
  filter (fun s => contains s (unique (map sensor_id test_df)))
         (train_sensors train_df).

(** Replacing the readings of the rows of sensor [B] leaves the rows of
    every other sensor as they are. *)
Definition replace_readings (B : string) (f : Row -> Row) (df : DataFrame)
  : DataFrame :=
  map (fun r => if String.eqb (sensor_id r) B
                then mkRow B (timestamp r) (latitude r) (longitude r)
                           (humidity (f r)) (temperature (f r)) (derived r)
                else r) df.

Definition complete (r : Row) : Prop := row_complete r = true.

(** The sorted series [engineer] works on. *)
Definition engineered_series (np : Numeric) (df : DataFrame) (sid : string)
  : DataFrame :=
  sort_values (rows_of sid (create_temporal_features np (rows_of sid df))).

Definition standard_log (train_df : DataFrame) (n m : nat) : list string :=
  ("Engineering features..."%string :: map processing (train_sensors train_df))
  ++ [features_created n m].

Definition geographic_columns : list string := ["latitude"; "longitude"]%string.

Definition calendar_columns : list string :=
  ["hour"; "day_of_week"; "month"; "day_of_month"; "quarter"]%string.

Definition cyclical_columns : list string :=
  ["hour_sin"; "hour_cos"; "month_sin"; "month_cos"]%string.

Definition lag_column_names : list string :=
  (map (fun k => "temp_lag_" ++ fmt_nat k)%string default_lags
   ++ map (fun k => "humidity_lag_" ++ fmt_nat k)%string default_lags)%list.

Definition rolling_mean_columns : list string :=
  ["temp_ma_6"; "temp_ma_24"; "humidity_ma_6"; "humidity_ma_24"]%string.

Definition rolling_std_columns : list string :=
  ["temp_std_24"; "humidity_std_24"]%string.

(** Entry by entry, the predictions are the targets. *)
Definition perfect (y_true y_pred : list Q) : Prop :=
  Forall (fun d => d == 0)%Q (residuals y_true y_pred).

Definition run_frames (np : Numeric) (train_df test_df : DataFrame)
  : DataFrame * DataFrame :=
  match snd (prepare_features np train_df test_df) with
  | inr frames => frames
  | inl _ => ([], [])
  end.

(** Sensor s2 reads 5 degrees more in the second table; sensor s1 is the
    same in both. *)
Definition warmer (r : Row) : Row :=
  mkRow (sensor_id r) (timestamp r) (latitude r) (longitude r) (humidity r)
        (option_map (fun t => t + 5)%Q (temperature r)) (derived r).

Definition two_sensors : DataFrame :=
  (hourly "s1" 30 ++ hourly "s2" 27)%list.

(** A stand-in forest for running the predictor: it predicts the mean of
    the training target. *)
Definition mean_forest_fit (X : Matrix) (y : list Q) : Q := Qmean y.

Definition mean_forest_predict (forest : Q) (X : Matrix) : list Q :=
  map (fun _ => forest) X.

Definition small_X : Matrix := [[1; 2]; [3; 4]; [5; 9]]%Q.

Definition small_y : list Q := [10; 20; 30]%Q.

(** * Notions used in the further properties *)

(** A column that holds the integer [z] with [lo <= z <= hi]. *)
Definition holds_between (lo hi : Z) (c : option cell) : Prop :=
  exists z : Z, c = Some (Some (inject_Z z)) /\ (lo <= z <= hi)%Z.

Definition holds_number (c : option cell) : Prop :=
  exists q : Q, c = Some (Some q).

Definition temporal_columns : list string :=
  (calendar_columns ++ cyclical_columns)%list.

(** The six readings of a row. *)
Definition readings_of (r : Row)
  : string * option Z * cell * cell * cell * cell :=
  (sensor_id r, timestamp r, latitude r, longitude r, humidity r,
   temperature r).

Definition ts_ascending (a b : option Z) : Prop := ts_leb a b = true.

(** The sample variance (one degree of freedom removed) of a list of
    numbers: the sum of the squared deviations from the mean over the
    count less one. *)
Definition sample_variance (l : list Q) : Q :=
  (Qsum (map (fun x => sq (x - Qmean l)) l) / Qnat (length l - 1))%Q.

(** The standard deviation of the readings present, null under two. *)
Definition std_present (np : Numeric) (l : list cell) : cell :=
  let obs := observed l in
  if 2 <=? length obs then Some (zsqrt np (Qred (sample_variance obs)))
  else None.

(** The running state of a rolling variance describes a list of cells:
    the count, the mean and the sum of squared deviations of the readings
    present, written without division. *)
Definition var_tracks (st : VarState) (l : list cell) : Prop :=
  let obs := observed l in
  let N := Qnat (v_nobs st) in
  v_nobs st = length obs
  /\ (v_mean st * N == Qsum obs)%Q
  /\ (v_ssqdm st * N == N * Qsum (map sq obs) - Qsum obs * Qsum obs)%Q
  /\ (v_nobs st = 0 -> (v_ssqdm st == 0)%Q).

(** ** The feature matrix in [main]

    [df[feature_columns]] and [df['temperature']]: a numeric column by
    name, among the columns read from the CSV file or engineered. *)
Definition column_value (name : string) (r : Row) : option cell :=
  if String.eqb name "latitude" then Some (latitude r)
  else if String.eqb name "longitude" then Some (longitude r)
  else if String.eqb name "humidity" then Some (humidity r)
  else if String.eqb name "temperature" then Some (temperature r)
  else get_col name (derived r).

Fixpoint select_row (names : list string) (r : Row) : exn + list cell :=
  match names with
  | [] => inr []
  | name :: names' =>
      match column_value name r with
      | None => inl (KeyError name)
      | Some c =>
          match select_row names' r with
          | inl e => inl e
          | inr cs => inr (c :: cs)
          end
      end
  end.

Fixpoint select_columns (names : list string) (df : DataFrame)
  : exn + list (list cell) :=
  match df with
  | [] => inr []
  | r :: df' =>
      match select_row names r with
      | inl e => inl e
      | inr row =>
          match select_columns names df' with
          | inl e => inl e
          | inr rows => inr (row :: rows)
          end
      end
  end.

(** ** [SensorTemperaturePredictor.get_feature_importance]

    The importances are the forest's, one per feature; the frame of the
    pairs is sorted by importance, largest first, and cut to [top_n].
    (The log lines print the returned pairs and are left out; printing
    is what raises when the predictor has no feature names.) *)
Inductive importance_error : Type :=
| ImportanceNotFitted      (* [feature_importances_] of an unfitted forest *)
| ImportanceLengths        (* "All arrays must be of the same length" *)
| ImportanceNoNames.       (* a feature name that is None cannot be printed *)

Fixpoint insert_desc (p : string * Q) (l : list (string * Q))
  : list (string * Q) :=
  match l with
  | [] => [p]
  | h :: t =>
      if Qle_bool (snd h) (snd p) then p :: l else h :: insert_desc p t
  end.

(** [sort_values('importance', ascending=False)] *)
Definition sort_desc (l : list (string * Q)) : list (string * Q) :=
  fold_right insert_desc [] l.

Definition get_feature_importance {Forest : Type}
  (feature_importances : Forest -> list Q) (self : Predictor Forest)
  (top_n : nat) : importance_error + list (string * Q) :=
  match model self with
  | None => inl ImportanceNotFitted
  | Some forest =>
      let importances := feature_importances forest in
      match feature_columns self with
      | Some columns =>
          if length columns =? length importances
          then inr (firstn top_n (sort_desc (combine columns importances)))
          else inl ImportanceLengths
      | None =>
          match firstn top_n importances with
          | [] => inr []
          | _ :: _ => inl ImportanceNoNames
          end
      end
  end.

(** [define_features] as a method: it stores the list on the predictor. *)
Definition set_feature_columns {Forest : Type} (self : Predictor Forest)
  : Predictor Forest :=
  mkPredictor (scaler self) (model self) (Some define_features).

(** Largest importance first. *)
Definition importance_ge (p q : string * Q) : Prop := (snd q <= snd p)%Q.

(** The rows of one sensor that the null-row drop keeps. *)
Definition sensor_block (np : Numeric) (df : DataFrame) (sid : string)
  : DataFrame :=
  dropna (engineer np df sid).

(** The six readings of a row are all present. *)
Definition readings_complete (r : Row) : Prop :=
  notna (timestamp r) = true /\ notna (latitude r) = true
  /\ notna (longitude r) = true /\ notna (humidity r) = true
  /\ notna (temperature r) = true.

(** A table as [load_data] reads it: the six CSV columns and no other. *)
Definition as_loaded (df : DataFrame) : Prop :=
  Forall (fun r => derived r = []) df.

(** ** The error analysis in [main]

    [test_df['prediction'] = y_pred_test], then
    [test_df['error'] = np.abs(test_df['temperature'] - test_df['prediction'])],
    then the mean of the errors of each sensor of the frame, in order of
    first appearance. *)

(** [np.abs(t - p)], NaN when either side is. *)
Definition abs_diff (t p : cell) : cell :=
  match t, p with
  | Some t, Some p => Some (Qabs (t - p))
  | _, _ => None
  end.

(** [row[name]] for a column that the frame has. *)
Definition cell_of (name : string) (r : Row) : cell :=
  match column_value name r with
  | Some c => c
  | None => None
  end.

(** The two assignments; an array of another length than the frame is
    refused by the first one. *)
Definition with_errors (test_df : DataFrame) (y_pred : list Q)
  : exn + DataFrame :=
  if length y_pred =? length test_df
  then
    let df := assign "prediction" (map Some y_pred) test_df in
    inr (assign "error"
           (map (fun r => abs_diff (temperature r) (cell_of "prediction" r)) df)
           df)
  else inl (ValueError "Length of values does not match length of index").

(** [sensor_data['error'].mean()] for each sensor of the frame. *)
Definition per_sensor_mae (df : DataFrame) : list (string * cell) :=
  map (fun s => (s, mean_present (map (cell_of "error") (rows_of s df))))
      (unique (map sensor_id df)).

(** The number in a cell, 0 for a null. *)
Definition number_of (c : cell) : Q :=
  match c with
  | Some q => q
  | None => 0%Q
  end.

(** A row of the test frame with its prediction and its error. *)
Definition error_row (rp : Row * Q) : Row :=
  set_derived "error" (abs_diff (temperature (fst rp)) (Some (snd rp)))
    (set_derived "prediction" (Some (snd rp)) (fst rp)).

(** * Properties *)

#[local] Arguments Qred : simpl never.
#[local] Arguments Qplus : simpl never.
#[local] Arguments Qminus : simpl never.
#[local] Arguments Qmult : simpl never.
#[local] Arguments Qdiv : simpl never.

(** ** Columns kept by name *)

Lemma get_set_col_same (name : string) (v : cell) (cols : list (string * cell)) :
  get_col name (set_col name v cols) = Some v.
Proof.
  induction cols as [| [n c] rest IH]; simpl.
  - now rewrite String.eqb_refl.
  - destruct (String.eqb n name) eqn:E; simpl; rewrite E; auto.
Qed.

Lemma get_set_col_other (name other : string) (v : cell)
  (cols : list (string * cell)) :
  String.eqb other name = false ->
  get_col name (set_col other v cols) = get_col name cols.
Proof.
  intros Hne. induction cols as [| [n c] rest IH]; simpl.
  - now rewrite Hne.
  - destruct (String.eqb n other) eqn:E; simpl.
    + apply String.eqb_eq in E. subst n. now rewrite Hne.
    + now rewrite IH.
Qed.

Lemma set_col_keeps_complete (name : string) (v : cell)
  (cols : list (string * cell)) :
  cols_complete cols = true -> notna v = true ->
  cols_complete (set_col name v cols) = true.
Proof.
  unfold cols_complete. intros Hc Hv.
  induction cols as [| [n c] rest IH]; simpl in *.
  - now rewrite Hv.
  - apply andb_true_iff in Hc. destruct Hc as [Hc Hr].
    destruct (String.eqb n name); simpl.
    + now rewrite Hv, Hr.
    + now rewrite Hc, IH.
Qed.

Lemma null_col_incomplete (name : string) (cols : list (string * cell)) :
  get_col name cols = Some None -> cols_complete cols = false.
Proof.
  unfold cols_complete.
  induction cols as [| [n c] rest IH]; simpl; intros H; [discriminate |].
  destruct (String.eqb n name).
  - injection H as ->. reflexivity.
  - rewrite IH by assumption. apply andb_false_r.
Qed.

(** ** Column assignment *)

Lemma length_assign (name : string) (df : DataFrame) :
  forall series, length (assign name series df) = length df.
Proof. induction df; intros; simpl; auto. Qed.

Lemma nth_hd_tl {A : Type} (d : A) (l : list A) (i : nat) :
  nth (S i) l d = nth i (tl l) d.
Proof. destruct l; simpl; auto. destruct i; auto. Qed.

Lemma nth_error_assign (name : string) (df : DataFrame) :
  forall series i,
    nth_error (assign name series df) i
    = option_map (set_derived name (nth i series None)) (nth_error df i).
Proof.
  induction df as [| r df IH]; intros series i.
  - destruct i; reflexivity.
  - destruct i as [| i]; simpl.
    + destruct series; reflexivity.
    + rewrite IH. now rewrite <- nth_hd_tl.
Qed.

Lemma assign_map (name : string) (f : Row -> cell) (df : DataFrame) :
  assign name (map f df) df = map (fun r => set_derived name (f r) r) df.
Proof. induction df; simpl; congruence. Qed.

Section AssignKeeps.
Variable A : Type.
Variable field : Row -> A.
Hypothesis field_set :
    forall name v r, field (set_derived name v r) = field r.

Lemma map_field_assign (name : string) (df : DataFrame) :
    forall series, map field (assign name series df) = map field df.
Proof.
    induction df; intros; simpl; auto. now rewrite field_set, IHdf.
Qed.
End AssignKeeps.

Lemma map_temperature_assign name series df :
  map temperature (assign name series df) = map temperature df.
Proof. now apply map_field_assign. Qed.

Lemma map_humidity_assign name series df :
  map humidity (assign name series df) = map humidity df.
Proof. now apply map_field_assign. Qed.

Lemma map_sensor_id_assign name series df :
  map sensor_id (assign name series df) = map sensor_id df.
Proof. now apply map_field_assign. Qed.

Create Rewrite HintDb frame.

#[local] Hint Rewrite map_temperature_assign map_humidity_assign
  map_sensor_id_assign length_assign : frame.

(** ** [shift] *)

Lemma length_shift (k : nat) (s : list cell) : length (shift k s) = length s.
Proof.
  unfold shift. apply firstn_length_le.
  rewrite length_app. lia.
Qed.

Lemma nth_shift (k : nat) (s : list cell) (i : nat) :
  i < length s ->
  nth i (shift k s) None = if i <? k then None else nth (i - k) s None.
Proof.
  intros Hi. unfold shift.
  rewrite nth_firstn.
  destruct (i <? length s) eqn:E; [| apply Nat.ltb_ge in E; lia].
  destruct (i <? k) eqn:Ek.
  - apply Nat.ltb_lt in Ek.
    rewrite app_nth1 by (rewrite repeat_length; lia).
    apply nth_repeat.
  - apply Nat.ltb_ge in Ek.
    rewrite app_nth2 by (rewrite repeat_length; lia).
    now rewrite repeat_length.
Qed.

(** ** [sort_values] and [rows_of] *)

Lemma insert_row_perm (r : Row) (l : DataFrame) :
  Permutation (r :: l) (insert_row r l).
Proof.
  induction l as [| h t IH]; simpl; auto.
  destruct (ts_leb (timestamp r) (timestamp h)); auto.
  rewrite perm_swap. now constructor.
Qed.

Lemma sort_values_perm (df : DataFrame) : Permutation df (sort_values df).
Proof.
  induction df as [| r df IH]; simpl; auto.
  rewrite <- insert_row_perm. now constructor.
Qed.

Lemma length_sort_values (df : DataFrame) :
  length (sort_values df) = length df.
Proof. symmetry. apply Permutation_length, sort_values_perm. Qed.

Lemma ts_leb_total (a b : option Z) : ts_leb a b = false -> ts_leb b a = true.
Proof.
  destruct a, b; simpl; intros H; auto; try discriminate.
  apply Z.leb_gt in H. apply Z.leb_le. lia.
Qed.

Lemma insert_row_sorted (r : Row) (l : DataFrame) :
  LocallySorted ts_le l -> LocallySorted ts_le (insert_row r l).
Proof.
  induction 1 as [| a | a b l Hs IH Hab]; simpl.
  - constructor.
  - destruct (ts_leb (timestamp r) (timestamp a)) eqn:E.
    + constructor; [constructor | exact E].
    + constructor; [constructor |]. now apply ts_leb_total.
  - destruct (ts_leb (timestamp r) (timestamp a)) eqn:E.
    + constructor; [constructor; assumption | exact E].
    + simpl in IH.
      destruct (ts_leb (timestamp r) (timestamp b)) eqn:E'.
      * constructor; [exact IH |]. now apply ts_leb_total.
      * constructor; assumption.
Qed.

(** The series is in ascending order of timestamp. *)
Lemma sort_values_sorted (df : DataFrame) :
  LocallySorted ts_le (sort_values df).
Proof.
  induction df; simpl; [constructor | now apply insert_row_sorted].
Qed.

Lemma rows_of_sensor (sid : string) (df : DataFrame) :
  Forall (fun r => sensor_id r = sid) (rows_of sid df).
Proof.
  apply Forall_forall. intros r Hr. apply filter_In in Hr.
  now apply String.eqb_eq.
Qed.

Lemma rows_of_all (sid : string) (df : DataFrame) :
  Forall (fun r => sensor_id r = sid) df -> rows_of sid df = df.
Proof.
  induction 1 as [| r df Hr _ IH]; simpl; auto.
  rewrite Hr, String.eqb_refl. f_equal. exact IH.
Qed.

Lemma rows_of_none (sid : string) (df : DataFrame) :
  Forall (fun r => sensor_id r <> sid) df -> rows_of sid df = [].
Proof.
  induction 1 as [| r df Hr _ IH]; simpl; auto.
  apply String.eqb_neq in Hr. now rewrite Hr.
Qed.

Lemma rows_of_idem (sid : string) (df : DataFrame) :
  rows_of sid (rows_of sid df) = rows_of sid df.
Proof. apply rows_of_all, rows_of_sensor. Qed.

Lemma sort_values_sensor (P : Row -> Prop) (df : DataFrame) :
  Forall P df -> Forall P (sort_values df).
Proof.
  intros H. eapply Permutation_Forall; [apply sort_values_perm | exact H].
Qed.

(** ** The engineered frame, row by row *)

Lemma nth_error_lag_columns (lags : list nat) :
  forall (df : DataFrame) (i : nat),
    nth_error (fold_left lag_columns lags df) i
    = option_map
        (fold_left
           (fun r lag =>
              set_derived ("humidity_lag_" ++ fmt_nat lag)
                (nth i (shift lag (map humidity df)) None)
                (set_derived ("temp_lag_" ++ fmt_nat lag)
                   (nth i (shift lag (map temperature df)) None) r))
           lags)
        (nth_error df i)
    /\ map temperature (fold_left lag_columns lags df) = map temperature df
    /\ map humidity (fold_left lag_columns lags df) = map humidity df.
Proof.
  induction lags as [| lag lags IH]; intros df i; simpl.
  - repeat split. now destruct (nth_error df i).
  - destruct (IH (lag_columns df lag) i) as (Hn & Ht & Hh).
    rewrite Hn, Ht, Hh. unfold lag_columns.
    autorewrite with frame. repeat split.
    rewrite !nth_error_assign. autorewrite with frame.
    now destruct (nth_error df i).
Qed.

Lemma create_lag_features_nth (np : Numeric) (df : DataFrame) (sid : string)
  (lags : option (list nat)) (i : nat) :
  let series := sort_values (rows_of sid df) in
  nth_error (create_lag_features np df sid lags) i
  = option_map
      (lag_row np (match lags with None => default_lags | Some l => l end)
         series i)
      (nth_error series i).
Proof.
  intros series. unfold create_lag_features, lag_row.
  set (ls := match lags with None => default_lags | Some l => l end).
  fold series.
  destruct (nth_error_lag_columns ls series i) as (Hn & Ht & Hh).
  rewrite !nth_error_assign. autorewrite with frame.
  rewrite Hn, Ht, Hh.
  now destruct (nth_error series i).
Qed.

Lemma length_create_lag_features (np : Numeric) (df : DataFrame)
  (sid : string) (lags : option (list nat)) :
  length (create_lag_features np df sid lags) = length (rows_of sid df).
Proof.
  unfold create_lag_features. autorewrite with frame.
  rewrite <- (length_sort_values (rows_of sid df)).
  generalize (sort_values (rows_of sid df)).
  generalize (match lags with None => default_lags | Some l => l end).
  induction l as [| lag l IH]; intros d; simpl; auto.
  rewrite IH. unfold lag_columns. now autorewrite with frame.
Qed.

Ltac read_col :=
  repeat first
    [ rewrite get_set_col_same
    | rewrite get_set_col_other by reflexivity ].

Lemma lag_row_lag_columns (np : Numeric) (series : DataFrame) (i k : nat)
  (r0 : Row) :
  In k default_lags ->
  let r := lag_row np default_lags series i r0 in
  get_col ("temp_lag_" ++ fmt_nat k) (derived r)
  = Some (nth i (shift k (map temperature series)) None)
  /\ get_col ("humidity_lag_" ++ fmt_nat k) (derived r)
     = Some (nth i (shift k (map humidity series)) None).
Proof.
  intros Hk r. subst r. unfold lag_row, default_lags in *.
  cbn [fold_left derived set_derived].
  simpl in Hk.
  repeat (destruct Hk as [Hk | Hk]; [subst k; split; read_col; reflexivity |]).
  contradiction.
Qed.

Lemma nth_map_nth_error {A B : Type} (f : A -> B) (d : B) (l : list A) :
  forall (j : nat) (a : A), nth_error l j = Some a -> nth j (map f l) d = f a.
Proof.
  induction l as [| x l IH]; intros [| j] a H; simpl in *; try discriminate.
  - now injection H as ->.
  - now apply IH.
Qed.



(** ** Rolling windows *)

Lemma observed_app (l1 l2 : list cell) :
  observed (l1 ++ l2) = (observed l1 ++ observed l2)%list.
Proof.
  induction l1 as [| [x |] l1 IH]; simpl; auto. now rewrite IH.
Qed.

Lemma Qsum_app (l1 l2 : list Q) : (Qsum (l1 ++ l2) == Qsum l1 + Qsum l2)%Q.
Proof.
  induction l1 as [| x l1 IH]; simpl.
  - ring.
  - unfold Qsum in *. simpl. rewrite IH. ring.
Qed.

Lemma firstn_snoc {A : Type} (d : A) (l : list A) (i : nat) :
  i < length l -> firstn (S i) l = (firstn i l ++ [nth i l d])%list.
Proof.
  revert i. induction l as [| x l IH]; intros i Hi; simpl in Hi; [lia |].
  destruct i as [| i]; simpl; auto.
  f_equal. apply IH. lia.
Qed.

Lemma skipn_cons_nth {A : Type} (d : A) (l : list A) (k : nat) :
  k < length l -> skipn k l = nth k l d :: skipn (S k) l.
Proof.
  revert k. induction l as [| x l IH]; intros k Hk; simpl in Hk; [lia |].
  destruct k as [| k]; simpl; auto.
  apply IH. lia.
Qed.

Lemma window_positions (w i : nat) (values : list cell) :
  i < length values ->
  window w i values = positions (S i - w) i values.
Proof.
  intros Hi. unfold window, positions.
  assert (Hf : forall b, b <= length values ->
            firstn b values = map (fun j => nth j values None) (seq 0 b)).
  { induction b as [| b IH]; intros Hb; [reflexivity |].
    rewrite (firstn_snoc None) by lia. rewrite IH by lia.
    rewrite seq_S, map_app. reflexivity. }
  rewrite Hf by lia. rewrite skipn_map, skipn_seq.
  reflexivity.
Qed.

Lemma add_mean_tracks (st : MeanState) (l : list cell) (v : cell) :
  mean_tracks st l -> mean_tracks (add_mean v st) (l ++ [v]).
Proof.
  intros [Hn Hs]. unfold mean_tracks. rewrite observed_app.
  destruct v as [x |]; simpl.
  - split.
    + rewrite length_app. simpl. lia.
    + rewrite Qred_correct, Qsum_app, Hs. unfold Qsum. simpl. ring.
  - rewrite app_nil_r. now split.
Qed.

Lemma remove_mean_tracks (st : MeanState) (l : list cell) (v : cell) :
  mean_tracks st (v :: l) -> mean_tracks (remove_mean v st) l.
Proof.
  intros [Hn Hs]. unfold mean_tracks.
  destruct v as [x |]; simpl in *.
  - split.
    + lia.
    + rewrite Qred_correct, Hs. unfold Qsum. simpl. ring.
  - now split.
Qed.

Lemma calc_mean_tracks (minp : nat) (st : MeanState) (l : list cell) :
  mean_tracks st l ->
  calc_mean minp st
  = if (minp <=? length (observed l)) && (0 <? length (observed l))
    then Some (Qmean (observed l)) else None.
Proof.
  intros [Hn Hs]. unfold calc_mean, Qmean. rewrite Hn.
  destruct ((minp <=? length (observed l)) && (0 <? length (observed l)));
    [| reflexivity].
  f_equal. apply Qred_complete. now rewrite Hs.
Qed.

(** One step of the window: what leaves, then what enters. *)
Lemma window_step (w i : nat) (values : list cell) :
  0 < w -> i < length values ->
  (w <= i ->
   window w (pred i) values
   = nth (i - w) values None :: skipn (S i - w) (firstn i values))
  /\ window w i values
     = (skipn (S i - w) (firstn i values) ++ [nth i values None])%list.
Proof.
  intros Hw Hi. unfold window. split.
  - intros Hle.
    replace (S (pred i)) with i by lia.
    replace (S i - w) with (S (i - w)) by lia.
    rewrite (skipn_cons_nth None) by (rewrite length_firstn; lia).
    f_equal. rewrite nth_firstn.
    destruct (i - w <? i) eqn:E; [reflexivity |].
    apply Nat.ltb_ge in E. lia.
  - rewrite (firstn_snoc None) by assumption.
    rewrite skipn_app.
    replace (S i - w - length (firstn i values)) with 0
      by (rewrite length_firstn; lia).
    reflexivity.
Qed.

Lemma roll_mean_from_nth (w minp : nat) (values : list cell) :
  0 < w ->
  forall (todo : list cell) (i : nat) (st : MeanState) (j : nat),
    skipn i values = todo -> i + length todo = length values ->
    mean_tracks st (skipn (i - w) (firstn i values)) ->
    j < length todo ->
    nth j (roll_mean_from w minp values todo i st) None
    = let obs := observed (window w (i + j) values) in
      if (minp <=? length obs) && (0 <? length obs)
      then Some (Qmean obs) else None.
Proof.
  intros Hw. induction todo as [| v rest IH]; intros i st j Hsk Hlen Hst Hj;
    simpl in Hj; [lia |].
  assert (Hi : i < length values) by (simpl in Hlen; lia).
  assert (Hv : v = nth i values None).
  { rewrite (skipn_cons_nth None) in Hsk by assumption. congruence. }
  destruct (window_step w i values Hw Hi) as [Hout Hin].
  set (st1 := if w <=? i then remove_mean (nth (i - w) values None) st else st).
  assert (H1 : mean_tracks st1 (skipn (S i - w) (firstn i values))).
  { unfold st1. destruct (w <=? i) eqn:E.
    - apply Nat.leb_le in E. apply remove_mean_tracks.
      rewrite <- Hout by assumption. unfold window.
      replace (S (pred i)) with i by lia.
      replace (S (pred i) - w) with (i - w) by lia. exact Hst.
    - apply Nat.leb_gt in E.
      replace (S i - w) with (i - w) by lia. exact Hst. }
  assert (H2 : mean_tracks (add_mean v st1) (window w i values)).
  { rewrite Hin, <- Hv. now apply add_mean_tracks. }
  simpl. fold st1.
  destruct j as [| j].
  - rewrite Nat.add_0_r. now apply calc_mean_tracks.
  - replace (i + S j) with (S i + j) by lia.
    apply IH.
    + rewrite (skipn_cons_nth None) in Hsk by assumption. congruence.
    + simpl in Hlen. lia.
    + exact H2.
    + lia.
Qed.

(** The rolling mean at position [i] is the mean of the readings present
    in the window that ends at [i], given [minp] of them. *)
Lemma roll_mean_nth (w minp : nat) (values : list cell) (i : nat) :
  0 < w -> i < length values ->
  nth i (roll_mean w minp values) None
  = let obs := observed (window w i values) in
    if (minp <=? length obs) && (0 <? length obs)
    then Some (Qmean obs) else None.
Proof.
  intros Hw Hi. unfold roll_mean.
  rewrite (roll_mean_from_nth w minp values Hw values 0 (mkMean 0 0) i);
    auto.
  split; reflexivity.
Qed.

Lemma roll_mean_min_one (w : nat) (values : list cell) (i : nat) :
  0 < w -> i < length values ->
  nth i (roll_mean w 1 values) None = mean_present (window w i values).
Proof.
  intros Hw Hi. rewrite roll_mean_nth by assumption.
  unfold mean_present. cbv zeta.
  destruct (observed (window w i values)); reflexivity.
Qed.

Lemma lag_row_rolling_columns (np : Numeric) (lags : list nat)
  (series : DataFrame) (i : nat) (r0 : Row) :
  let r := lag_row np lags series i r0 in
  let temps := map temperature series in
  let hums := map humidity series in
  get_col "temp_ma_6" (derived r) = Some (nth i (roll_mean 6 1 temps) None)
  /\ get_col "temp_ma_24" (derived r) = Some (nth i (roll_mean 24 1 temps) None)
  /\ get_col "humidity_ma_6" (derived r)
     = Some (nth i (roll_mean 6 1 hums) None)
  /\ get_col "humidity_ma_24" (derived r)
     = Some (nth i (roll_mean 24 1 hums) None)
  /\ get_col "temp_std_24" (derived r)
     = Some (nth i (roll_std np 24 1 temps) None)
  /\ get_col "humidity_std_24" (derived r)
     = Some (nth i (roll_std np 24 1 hums) None).
Proof.
  unfold lag_row. cbn [derived set_derived].
  repeat split; read_col; reflexivity.
Qed.


Lemma same_reading_refl (a : Row) : same_reading a a.
Proof. repeat split. Qed.

Lemma same_reading_set (name : string) (v : cell) (a b : Row) :
  same_reading a b -> same_reading (set_derived name v a) b.
Proof. unfold same_reading. simpl. auto. Qed.

Lemma same_reading_fold (g : Row -> nat -> Row) (lags : list nat) :
  (forall r k b, same_reading r b -> same_reading (g r k) b) ->
  forall r b, same_reading r b -> same_reading (fold_left g lags r) b.
Proof.
  intros Hg. induction lags as [| k lags IH]; intros r b H; simpl; auto.
Qed.

Lemma lag_row_keeps_reading (np : Numeric) (lags : list nat)
  (series : DataFrame) (i : nat) (r0 : Row) :
  same_reading (lag_row np lags series i r0) r0.
Proof.
  unfold lag_row. cbv zeta.
  repeat apply same_reading_set.
  apply same_reading_fold; [| apply same_reading_refl].
  intros r k b H. now repeat apply same_reading_set.
Qed.


(** *** Rolling standard deviation *)

Lemma add_var_counts (st : VarState) (l : list cell) (v : cell) :
  var_counts st l -> var_counts (add_var v st) (l ++ [v]).
Proof.
  unfold var_counts. intros H. rewrite observed_app, length_app.
  destruct v as [x |]; simpl; lia.
Qed.

Lemma remove_var_counts (st : VarState) (l : list cell) (v : cell) :
  var_counts st (v :: l) -> var_counts (remove_var v st) l.
Proof.
  unfold var_counts. intros H.
  destruct v as [x |]; simpl in *; [| assumption].
  rewrite H. simpl. now destruct (length (observed l)).
Qed.

Lemma roll_var_from_nth (w minp ddof : nat) (values : list cell) :
  0 < w ->
  forall (todo : list cell) (i : nat) (st : VarState) (j : nat),
    skipn i values = todo -> i + length todo = length values ->
    var_counts st (skipn (i - w) (firstn i values)) ->
    j < length todo ->
    exists st' : VarState,
      var_counts st' (window w (i + j) values)
      /\ nth j (roll_var_from w minp ddof values todo i st) None
         = calc_var minp ddof st'.
Proof.
  intros Hw. induction todo as [| v rest IH]; intros i st j Hsk Hlen Hst Hj;
    simpl in Hj; [lia |].
  assert (Hi : i < length values) by (simpl in Hlen; lia).
  assert (Hv : v = nth i values None).
  { rewrite (skipn_cons_nth None) in Hsk by assumption. congruence. }
  destruct (window_step w i values Hw Hi) as [Hout Hin].
  set (st1 := if w <=? i then remove_var (nth (i - w) values None) st else st).
  assert (H1 : var_counts st1 (skipn (S i - w) (firstn i values))).
  { unfold st1. destruct (w <=? i) eqn:E.
    - apply Nat.leb_le in E. apply remove_var_counts.
      rewrite <- Hout by assumption. unfold window.
      replace (S (pred i)) with i by lia.
      replace (S (pred i) - w) with (i - w) by lia. exact Hst.
    - apply Nat.leb_gt in E.
      replace (S i - w) with (i - w) by lia. exact Hst. }
  assert (H2 : var_counts (add_var v st1) (window w i values)).
  { rewrite Hin, <- Hv. now apply add_var_counts. }
  simpl. fold st1.
  destruct j as [| j].
  - rewrite Nat.add_0_r. now exists (add_var v st1).
  - replace (i + S j) with (S i + j) by lia.
    apply IH.
    + rewrite (skipn_cons_nth None) in Hsk by assumption. congruence.
    + simpl in Hlen. lia.
    + exact H2.
    + lia.
Qed.

Lemma zsqrt_nonneg (np : Numeric) (x : Q) :
  sqrt_sound np -> (0 <= zsqrt np x)%Q.
Proof.
  intros Hs. unfold zsqrt. destruct (Qle_bool 0 x) eqn:E.
  - apply Hs. now apply Qle_bool_iff.
  - apply Qle_refl.
Qed.

(** With one period required, the rolling standard deviation is null where
    the window holds fewer than two readings and non-negative elsewhere. *)
Lemma roll_std_nth (np : Numeric) (w : nat) (values : list cell) (i : nat) :
  sqrt_sound np -> 0 < w -> i < length values ->
  let n := length (observed (window w i values)) in
  (n < 2 -> nth i (roll_std np w 1 values) None = None)
  /\ (2 <= n ->
      exists x : Q,
        nth i (roll_std np w 1 values) None = Some x /\ (0 <= x)%Q).
Proof.
  intros Hs Hw Hi n. unfold roll_std, roll_var.
  destruct (roll_var_from_nth w 1 1 values Hw values 0 (mkVar 0 0 0) i)
    as (st & Hc & Hn); auto; [reflexivity |].
  simpl in Hc. unfold var_counts in Hc. fold n in Hc.
  change None with (option_map (zsqrt np) None) at 1 3.
  rewrite map_nth, Hn. unfold calc_var. rewrite Hc.
  split; intros Hlt.
  - destruct n as [| [| n']]; [reflexivity | reflexivity | lia].
  - destruct n as [| [| n']]; [lia | lia |].
    simpl. eexists. split; [reflexivity |]. now apply zsqrt_nonneg.
Qed.

Lemma observed_no_nulls (l : list cell) :
  no_nulls l -> length (observed l) = length l.
Proof.
  unfold no_nulls. induction l as [| [x |] l IH]; simpl; intros H;
    try discriminate; auto.
Qed.

Lemma no_nulls_window (w i : nat) (values : list cell) :
  no_nulls values -> no_nulls (window w i values).
Proof.
  unfold no_nulls, window. rewrite !forallb_forall. intros H x Hx.
  apply H.
  rewrite <- (firstn_skipn (S i) values). apply in_or_app. left.
  rewrite <- (firstn_skipn (S i - w) (firstn (S i) values)).
  apply in_or_app. now right.
Qed.

Lemma length_window (w i : nat) (values : list cell) :
  i < length values -> length (window w i values) = S i - (S i - w).
Proof.
  intros Hi. unfold window. rewrite length_skipn, length_firstn. lia.
Qed.

Lemma lag_row_std_columns (np : Numeric) (series : DataFrame) (i : nat)
  (ri : Row) (r : Row) :
  nth_error series i = Some ri ->
  r = lag_row np default_lags series i ri ->
  get_col "temp_std_24" (derived r)
  = Some (nth i (roll_std np 24 1 (map temperature series)) None)
  /\ get_col "humidity_std_24" (derived r)
     = Some (nth i (roll_std np 24 1 (map humidity series)) None).
Proof.
  intros _ ->.
  destruct (lag_row_rolling_columns np default_lags series i ri)
    as (_ & _ & _ & _ & Ht & Hh).
  now split.
Qed.

(** C5 (amended).  The columns [temp_std_24] and [humidity_std_24] are null
    at every position whose trailing 24-row window holds fewer than two
    non-null readings, the first sorted position among them, and hold a
    non-negative number at every other position; for a series whose
    temperatures (humidities) are never null, that is every position from
    the second onward. *)
Theorem rolling_std_warm_up (np : Numeric) (df : DataFrame) (sid : string)
  (i : nat) (r : Row) :
  sqrt_sound np ->
  nth_error (create_lag_features np df sid None) i = Some r ->
  let series := sort_values (rows_of sid df) in
  let temps := map temperature series in
  let hums := map humidity series in
  let temp_std := get_col "temp_std_24" (derived r) in
  let humidity_std := get_col "humidity_std_24" (derived r) in
  std_cell_ok temps i temp_std
  /\ std_cell_ok hums i humidity_std
  /\ (i = 0 -> temp_std = Some None /\ humidity_std = Some None)
  /\ (1 <= i -> no_nulls temps ->
      exists x : Q, temp_std = Some (Some x) /\ (0 <= x)%Q)
  /\ (1 <= i -> no_nulls hums ->
      exists x : Q, humidity_std = Some (Some x) /\ (0 <= x)%Q).
Proof.
  intros Hs Hr series temps hums temp_std humidity_std.
  rewrite create_lag_features_nth in Hr. fold series in Hr.
  destruct (nth_error series i) as [ri |] eqn:Ei; [| discriminate].
  injection Hr as <-.
  assert (Hi : i < length series) by (apply nth_error_Some; congruence).
  assert (Hit : i < length temps) by (unfold temps; now rewrite length_map).
  assert (Hih : i < length hums) by (unfold hums; now rewrite length_map).
  destruct (lag_row_std_columns np series i ri _ Ei eq_refl) as [Ht Hh].
  fold temps in Ht. fold hums in Hh.
  fold temp_std in Ht. fold humidity_std in Hh.
  assert (Gen : forall col c,
            i < length col ->
            c = Some (nth i (roll_std np 24 1 col) None) ->
            std_cell_ok col i c
            /\ (i = 0 -> c = Some None)
            /\ (1 <= i -> no_nulls col ->
                exists x : Q, c = Some (Some x) /\ (0 <= x)%Q)).
  { intros col c Hic ->.
    assert (Hw : 0 < 24) by lia.
    pose proof (roll_std_nth np 24 col i Hs Hw Hic) as Hstd.
    cbv zeta in Hstd. destruct Hstd as [Hnull Hdef].
    assert (Hwin : window 24 i col = positions (i - 23) i col).
    { rewrite window_positions by assumption. reflexivity. }
    rewrite Hwin in Hnull, Hdef.
    split; [| split].
    - split.
      + intros Hn. now rewrite Hnull.
      + intros Hn. destruct (Hdef Hn) as (x & -> & Hx). now exists x.
    - intros ->. rewrite Hnull; [reflexivity |].
      unfold positions. simpl. destruct (nth 0 col None); simpl; lia.
    - intros Hge Hnn.
      destruct Hdef as (x & -> & Hx); [| now exists x].
      rewrite <- Hwin, observed_no_nulls by now apply no_nulls_window.
      rewrite length_window by assumption. lia. }
  destruct (Gen temps temp_std Hit Ht) as (T1 & T2 & T3).
  destruct (Gen hums humidity_std Hih Hh) as (H1 & H2 & H3).
  repeat split; auto; try apply T1; try apply H1; intros ->; auto.
Qed.

(** ** The rational environment *)

Lemma approx_sqrt_sound : sqrt_sound approx_numeric.
Proof.
  intros x _. unfold approx_numeric, np_sqrt, approx_sqrt, Qle. simpl.
  rewrite Z.mul_1_r. apply Z.sqrt_nonneg.
Qed.

(** C5, as stated, fails on a series with a missing reading: the second
    row of [gap_frame] has no temperature, its window holds one reading,
    and [temp_std_24] is null at the second position. *)
Lemma rolling_std_null_at_second_position :
  ~ (forall (np : Numeric) (df : DataFrame) (sid : string) (i : nat) (r : Row),
        sqrt_sound np -> 1 <= i ->
        nth_error (create_lag_features np df sid None) i = Some r ->
        exists x : Q,
          get_col "temp_std_24" (derived r) = Some (Some x) /\ (0 <= x)%Q).
Proof.
  intros claim.
  set (r := nth 1 (create_lag_features approx_numeric gap_frame "s1" None)
                (reading "s1" 0)).
  assert (E : nth_error (create_lag_features approx_numeric gap_frame "s1" None) 1
              = Some r) by (vm_compute; reflexivity).
  assert (Hnull : get_col "temp_std_24" (derived r) = Some None)
    by (vm_compute; reflexivity).
  destruct (claim approx_numeric gap_frame "s1"%string 1 r
              approx_sqrt_sound (le_n 1) E) as (x & Hx & _).
  rewrite Hnull in Hx. discriminate.
Qed.

(** ** [unique] *)

Lemma unique_In (x : string) (l : list string) : In x (unique l) <-> In x l.
Proof.
  induction l as [| y l IH]; simpl; [tauto |].
  rewrite filter_In, IH.
  destruct (String.eqb_spec x y) as [-> | Hne].
  - tauto.
  - simpl. tauto.
Qed.

Lemma unique_NoDup (l : list string) : NoDup (unique l).
Proof.
  induction l as [| y l IH]; simpl; constructor.
  - intros H. apply filter_In in H. destruct H as [_ H].
    now rewrite String.eqb_refl in H.
  - now apply NoDup_filter.
Qed.

Lemma contains_In (x : string) (l : list string) :
  contains x l = true <-> In x l.
Proof.
  unfold contains. rewrite existsb_exists. split.
  - intros (y & Hy & E). apply String.eqb_eq in E. now subst.
  - intros H. exists x. split; [exact H | apply String.eqb_refl].
Qed.

(** ** The loop of [prepare_features] *)

Lemma loop_spec (np : Numeric) (train_df test_df : DataFrame)
  (sensors : list string) :
  forall st : Loop,
    fold_left (process_sensor np train_df test_df) sensors st
    = mkLoop
        (log st ++ map processing sensors)
        (train_processed st ++ map (engineer np train_df) sensors)
        (test_processed st
         ++ map (engineer np test_df)
              (filter (fun s => contains s (unique (map sensor_id test_df)))
                 sensors)).
Proof.
  induction sensors as [| s sensors IH]; intros st; simpl.
  - rewrite !app_nil_r. now destruct st.
  - rewrite IH. clear IH. unfold process_sensor. fold (processing s).
    destruct (contains s (unique (map sensor_id test_df))); simpl;
      rewrite <- ?app_assoc; reflexivity.
Qed.

Lemma prepare_features_spec (np : Numeric) (train_df test_df : DataFrame) :
  prepare_features np train_df test_df
  = let log0 := ("Engineering features..."%string
                 :: map processing (train_sensors train_df)) in
    match pd_concat (map (engineer np train_df) (train_sensors train_df)) with
    | inl e => (log0, inl e)
    | inr train_out =>
        match pd_concat (map (engineer np test_df)
                           (shared_sensors train_df test_df)) with
        | inl e => (log0, inl e)
        | inr test_out =>
            (log0 ++ [features_created (length (dropna train_out))
                                        (length (dropna test_out))],
             inr (dropna train_out, dropna test_out))
        end
    end.
Proof.
  unfold prepare_features. rewrite loop_spec. reflexivity.
Qed.

(** ** Per-sensor frames inside the assembled frame *)

Lemma create_lag_features_sensor (np : Numeric) (df : DataFrame)
  (s : string) (lags : option (list nat)) :
  Forall (fun r => sensor_id r = s) (create_lag_features np df s lags).
Proof.
  apply Forall_forall. intros r Hr.
  apply In_nth_error in Hr. destruct Hr as [i Hi].
  rewrite create_lag_features_nth in Hi.
  destruct (nth_error (sort_values (rows_of s df)) i) as [ri |] eqn:E;
    [| discriminate].
  injection Hi as <-.
  destruct (lag_row_keeps_reading np
              (match lags with None => default_lags | Some l => l end)
              (sort_values (rows_of s df)) i ri) as (Hs & _).
  rewrite Hs. apply nth_error_In in E.
  pose proof (sort_values_sensor _ _ (rows_of_sensor s df)) as HF.
  rewrite Forall_forall in HF. now apply HF.
Qed.

Lemma engineer_sensor (np : Numeric) (df : DataFrame) (s : string) :
  Forall (fun r => sensor_id r = s) (engineer np df s).
Proof. apply create_lag_features_sensor. Qed.

Lemma rows_of_app (sid : string) (a b : DataFrame) :
  rows_of sid (a ++ b) = (rows_of sid a ++ rows_of sid b)%list.
Proof. apply filter_app. Qed.

Lemma rows_of_dropna (sid : string) (df : DataFrame) :
  rows_of sid (dropna df) = dropna (rows_of sid df).
Proof.
  unfold rows_of, dropna. induction df as [| r df IH]; simpl; auto.
  destruct (row_complete r) eqn:Ec, (String.eqb (sensor_id r) sid) eqn:Es;
    simpl; rewrite ?Ec, ?Es, IH; reflexivity.
Qed.

Lemma rows_of_concat_engineer (np : Numeric) (df : DataFrame) (sid : string)
  (ids : list string) :
  NoDup ids ->
  rows_of sid (concat (map (engineer np df) ids))
  = if contains sid ids then engineer np df sid else [].
Proof.
  generalize (engineer_sensor np df). generalize (engineer np df).
  intros eng Heng.
  induction 1 as [| a ids Ha Hnd IH]; [reflexivity |].
  cbn [map concat]. rewrite rows_of_app, IH.
  unfold contains. cbn [existsb]. fold (contains sid ids).
  destruct (String.eqb_spec sid a) as [-> | Hne]; cbn [orb].
  - rewrite (rows_of_all a) by apply Heng.
    destruct (contains a ids) eqn:E.
    + apply contains_In in E. contradiction.
    + apply app_nil_r.
  - rewrite (rows_of_none sid); [reflexivity |].
    eapply Forall_impl; [| apply (Heng a)].
    cbv beta. intros r ->. congruence.
Qed.

Lemma contains_rows_of (sid : string) (df : DataFrame) :
  contains sid (unique (map sensor_id df))
  = match rows_of sid df with [] => false | _ :: _ => true end.
Proof.
  destruct (rows_of sid df) as [| r rest] eqn:E.
  - destruct (contains sid (unique (map sensor_id df))) eqn:C; [| reflexivity].
    apply contains_In, unique_In, in_map_iff in C.
    destruct C as (r & Hs & Hin).
    assert (In r (rows_of sid df)).
    { apply filter_In. split; [exact Hin | now apply String.eqb_eq]. }
    rewrite E in H. contradiction.
  - apply contains_In, unique_In, in_map_iff.
    assert (Hin : In r (rows_of sid df)) by (rewrite E; now left).
    apply filter_In in Hin. destruct Hin as [Hin Hs].
    exists r. split; [now apply String.eqb_eq | exact Hin].
Qed.

Lemma contains_filter (x : string) (f : string -> bool) (l : list string) :
  contains x (filter f l) = contains x l && f x.
Proof.
  induction l as [| y l IH]; simpl; [reflexivity |].
  destruct (f y) eqn:Fy; simpl; rewrite IH.
  - destruct (String.eqb_spec x y) as [-> | _]; simpl; [| reflexivity].
    now rewrite Fy.
  - destruct (String.eqb_spec x y) as [-> | _]; simpl; [| reflexivity].
    rewrite Fy. now rewrite andb_false_r.
Qed.

Lemma pd_concat_ok (frames : list DataFrame) (out : DataFrame) :
  pd_concat frames = inr out -> out = concat frames /\ frames <> [].
Proof.
  destruct frames; simpl; intros H; [discriminate |].
  injection H as <-. split; [reflexivity | discriminate].
Qed.

(** What a successful [prepare_features] returns, sensor by sensor. *)
Lemma prepare_features_rows (np : Numeric) (train_df test_df : DataFrame)
  (msgs : list string) (train_out test_out : DataFrame) (sid : string) :
  prepare_features np train_df test_df = (msgs, inr (train_out, test_out)) ->
  rows_of sid train_out
  = (if contains sid (train_sensors train_df)
     then dropna (engineer np train_df sid) else [])
  /\ rows_of sid test_out
     = (if contains sid (train_sensors train_df)
           && contains sid (unique (map sensor_id test_df))
        then dropna (engineer np test_df sid) else []).
Proof.
  rewrite prepare_features_spec. cbv zeta.
  destruct (pd_concat (map (engineer np train_df) (train_sensors train_df)))
    as [e | tr] eqn:Etr; [discriminate |].
  destruct (pd_concat (map (engineer np test_df)
                         (shared_sensors train_df test_df)))
    as [e | te] eqn:Ete; [discriminate |].
  intros H. injection H as _ <- <-.
  apply pd_concat_ok in Etr, Ete.
  destruct Etr as [-> _]. destruct Ete as [-> _].
  rewrite !rows_of_dropna.
  rewrite !rows_of_concat_engineer.
  - unfold shared_sensors. rewrite contains_filter.
    split.
    + now destruct (contains sid (train_sensors train_df)).
    + now destruct (contains sid (train_sensors train_df)
                    && contains sid (unique (map sensor_id test_df))).
  - unfold shared_sensors. apply NoDup_filter, unique_NoDup.
  - apply unique_NoDup.
Qed.

Lemma engineer_rows_of (np : Numeric) (df1 df2 : DataFrame) (sid : string) :
  rows_of sid df1 = rows_of sid df2 ->
  engineer np df1 sid = engineer np df2 sid.
Proof. unfold engineer. now intros ->. Qed.

(** C1.  Two runs whose tables agree on the rows of sensor [A] (whatever
    the rows of the other sensors hold) produce the same engineered rows
    for [A]: from [create_lag_features], and in the train and test frames
    that [prepare_features] assembles. *)
Theorem cross_sensor_isolation (np : Numeric)
  (train1 train2 test1 test2 : DataFrame) (A : string) :
  rows_of A train1 = rows_of A train2 ->
  rows_of A test1 = rows_of A test2 ->
  (forall lags,
      create_lag_features np train1 A lags
      = create_lag_features np train2 A lags)
  /\ (forall msgs1 msgs2 train_out1 test_out1 train_out2 test_out2,
         prepare_features np train1 test1
         = (msgs1, inr (train_out1, test_out1)) ->
         prepare_features np train2 test2
         = (msgs2, inr (train_out2, test_out2)) ->
         rows_of A train_out1 = rows_of A train_out2
         /\ rows_of A test_out1 = rows_of A test_out2).
Proof.
  intros Htrain Htest. split.
  - intros lags. unfold create_lag_features. now rewrite Htrain.
  - intros msgs1 msgs2 tr1 te1 tr2 te2 H1 H2.
    destruct (prepare_features_rows _ _ _ _ _ _ A H1) as [T1 E1].
    destruct (prepare_features_rows _ _ _ _ _ _ A H2) as [T2 E2].
    rewrite T1, T2, E1, E2. unfold train_sensors.
    rewrite !contains_rows_of, Htrain, Htest.
    rewrite (engineer_rows_of np train1 train2 A Htrain).
    rewrite (engineer_rows_of np test1 test2 A Htest).
    split; reflexivity.
Qed.

Lemma rows_of_replace_readings (A B : string) (f : Row -> Row)
  (df : DataFrame) :
  A <> B -> rows_of A (replace_readings B f df) = rows_of A df.
Proof.
  intros Hne. unfold rows_of, replace_readings.
  induction df as [| r df IH]; simpl; [reflexivity |].
  destruct (String.eqb_spec (sensor_id r) B) as [E | E]; simpl.
  - rewrite E. destruct (String.eqb_spec B A); [congruence | exact IH].
  - now rewrite IH.
Qed.

(** ** Warm-up rows and [dropna] *)

Lemma row_complete_iff (r : Row) :
  complete r
  <-> notna (timestamp r) = true /\ notna (latitude r) = true
      /\ notna (longitude r) = true /\ notna (humidity r) = true
      /\ notna (temperature r) = true /\ cols_complete (derived r) = true.
Proof.
  unfold complete, row_complete. rewrite !andb_true_iff. tauto.
Qed.

Lemma temporal_row_same_reading (np : Numeric) (r : Row) :
  same_reading (temporal_row np r) r.
Proof.
  unfold temporal_row. cbv zeta.
  repeat apply same_reading_set. apply same_reading_refl.
Qed.

Lemma temporal_row_complete (np : Numeric) (r : Row) :
  complete r -> complete (temporal_row np r).
Proof.
  rewrite !row_complete_iff. intros (Ht & Hla & Hlo & Hh & Hte & Hc).
  destruct (temporal_row_same_reading np r) as (_ & E1 & E2 & E3 & E4 & E5).
  rewrite E1, E2, E3, E4, E5. repeat (split; [assumption |]).
  unfold temporal_row. cbn [derived set_derived timestamp].
  destruct (timestamp r) as [t |]; [| discriminate].
  repeat (apply set_col_keeps_complete; [| reflexivity]).
  exact Hc.
Qed.

Lemma rows_of_map (f : Row -> Row) (sid : string) (df : DataFrame) :
  (forall r, sensor_id (f r) = sensor_id r) ->
  rows_of sid (map f df) = map f (rows_of sid df).
Proof.
  intros Hf. unfold rows_of. induction df as [| r df IH]; simpl; auto.
  rewrite Hf. destruct (String.eqb (sensor_id r) sid); simpl; now rewrite IH.
Qed.

Lemma rows_of_temporal (np : Numeric) (sid : string) (df : DataFrame) :
  rows_of sid (create_temporal_features np (rows_of sid df))
  = create_temporal_features np (rows_of sid df).
Proof.
  unfold create_temporal_features. rewrite rows_of_map.
  - now rewrite rows_of_idem.
  - intros r. apply temporal_row_same_reading.
Qed.

Lemma length_engineer (np : Numeric) (df : DataFrame) (sid : string) :
  length (engineer np df sid) = length (rows_of sid df).
Proof.
  unfold engineer. rewrite length_create_lag_features, rows_of_temporal.
  unfold create_temporal_features. apply length_map.
Qed.

Lemma engineered_series_complete (np : Numeric) (df : DataFrame)
  (sid : string) :
  Forall complete (rows_of sid df) ->
  Forall complete (engineered_series np df sid).
Proof.
  intros H. unfold engineered_series. apply sort_values_sensor.
  rewrite rows_of_temporal. unfold create_temporal_features.
  apply Forall_map. eapply Forall_impl; [| exact H].
  intros r. apply temporal_row_complete.
Qed.

Lemma complete_no_nulls (series : DataFrame) :
  Forall complete series ->
  no_nulls (map temperature series) /\ no_nulls (map humidity series).
Proof.
  unfold no_nulls. induction 1 as [| r l Hr _ [IHt IHh]]; simpl; auto.
  apply row_complete_iff in Hr. destruct Hr as (_ & _ & _ & Hh & Ht & _).
  rewrite Ht, Hh, IHt, IHh. now split.
Qed.

Lemma no_nulls_nth (col : list cell) (j : nat) :
  no_nulls col -> j < length col -> notna (nth j col None) = true.
Proof.
  unfold no_nulls. intros H Hj. rewrite forallb_forall in H.
  apply H. now apply nth_In.
Qed.

Lemma shift_defined (col : list cell) (i k : nat) :
  no_nulls col -> i < length col -> k <= i ->
  notna (nth i (shift k col) None) = true.
Proof.
  intros Hn Hi Hk. rewrite nth_shift by assumption.
  assert (E : (i <? k) = false) by (apply Nat.ltb_ge; lia).
  rewrite E. apply no_nulls_nth; [assumption | lia].
Qed.

Lemma roll_mean_defined (w : nat) (col : list cell) (i : nat) :
  no_nulls col -> 0 < w -> i < length col ->
  notna (nth i (roll_mean w 1 col) None) = true.
Proof.
  intros Hn Hw Hi. rewrite roll_mean_min_one by assumption.
  unfold mean_present.
  pose proof (observed_no_nulls _ (no_nulls_window w i col Hn)) as Hl.
  rewrite length_window in Hl by assumption.
  destruct (observed (window w i col)); [| reflexivity].
  cbn [length] in Hl. lia.
Qed.

Lemma roll_std_defined (np : Numeric) (w : nat) (col : list cell) (i : nat) :
  no_nulls col -> 1 < w -> i < length col -> 1 <= i ->
  notna (nth i (roll_std np w 1 col) None) = true.
Proof.
  intros Hn Hw Hi Hge. unfold roll_std, roll_var.
  destruct (roll_var_from_nth w 1 1 col ltac:(lia) col 0 (mkVar 0 0 0) i)
    as (st & Hc & E); auto; [reflexivity |].
  cbn [Nat.add] in Hc. unfold var_counts in Hc.
  rewrite observed_no_nulls in Hc by now apply no_nulls_window.
  rewrite length_window in Hc by assumption.
  change None with (option_map (zsqrt np) None) at 1.
  rewrite map_nth, E. unfold calc_var. rewrite Hc.
  destruct (S i - (S i - w)) as [| [| n]] eqn:En; [lia | lia | reflexivity].
Qed.

Lemma lag_row_complete (np : Numeric) (series : DataFrame) (i : nat)
  (ri : Row) :
  Forall complete series -> nth_error series i = Some ri ->
  row_complete (lag_row np default_lags series i ri) = (24 <=? i).
Proof.
  intros Hall Ei.
  assert (Hi : i < length series) by (apply nth_error_Some; congruence).
  destruct (complete_no_nulls series Hall) as [Nt Nh].
  assert (Hri : complete ri).
  { rewrite Forall_forall in Hall. apply Hall. eapply nth_error_In, Ei. }
  assert (Lt : i < length (map temperature series)) by now rewrite length_map.
  assert (Lh : i < length (map humidity series)) by now rewrite length_map.
  destruct (24 <=? i) eqn:E.
  - apply Nat.leb_le in E.
    apply row_complete_iff in Hri.
    destruct Hri as (Ht & Hla & Hlo & Hh & Hte & Hc).
    apply row_complete_iff.
    destruct (lag_row_keeps_reading np default_lags series i ri)
      as (_ & E1 & E2 & E3 & E4 & E5).
    rewrite E1, E2, E3, E4, E5. repeat (split; [assumption |]).
    unfold lag_row, default_lags. cbn [fold_left derived set_derived].
    repeat (apply set_col_keeps_complete;
            [| first [ apply shift_defined; [assumption | assumption | lia]
                     | apply roll_mean_defined; [assumption | lia | assumption]
                     | apply roll_std_defined;
                       [assumption | lia | assumption | lia] ]]).
    exact Hc.
  - apply Nat.leb_gt in E.
    unfold row_complete.
    assert (In24 : In 24 default_lags) by (simpl; tauto).
    destruct (lag_row_lag_columns np series i 24 ri In24) as [Hnull _].
    rewrite nth_shift in Hnull by assumption.
    assert (E' : (i <? 24) = true) by now apply Nat.ltb_lt.
    rewrite E' in Hnull.
    rewrite (null_col_incomplete _ _ Hnull). apply andb_false_r.
Qed.

Lemma filter_skipn {A : Type} (f : A -> bool) (l : list A) :
  forall k : nat,
    (forall i a, nth_error l i = Some a -> f a = (k <=? i)) ->
    filter f l = skipn k l.
Proof.
  induction l as [| x l IH]; intros k H.
  - now destruct k.
  - simpl. rewrite (H 0 x eq_refl). destruct k as [| k]; simpl.
    + f_equal. rewrite (IH 0); [reflexivity |].
      intros i a Hi. now rewrite (H (S i) a Hi).
    + apply IH. intros i a Hi. now rewrite (H (S i) a Hi).
Qed.

Lemma engineer_nth (np : Numeric) (df : DataFrame) (sid : string) (i : nat) :
  nth_error (engineer np df sid) i
  = option_map (lag_row np default_lags (engineered_series np df sid) i)
      (nth_error (engineered_series np df sid) i).
Proof. unfold engineer. apply create_lag_features_nth. Qed.

(** Among the engineered rows of a sensor without nulls in its raw rows,
    [dropna] removes the first 24 and nothing else. *)
Lemma dropna_engineer (np : Numeric) (df : DataFrame) (sid : string) :
  Forall complete (rows_of sid df) ->
  dropna (engineer np df sid) = skipn 24 (engineer np df sid).
Proof.
  intros H. unfold dropna. apply filter_skipn. intros i r Hr.
  rewrite engineer_nth in Hr.
  destruct (nth_error (engineered_series np df sid) i) as [ri |] eqn:Ei;
    [| discriminate].
  injection Hr as <-.
  apply lag_row_complete; [| exact Ei].
  now apply engineered_series_complete.
Qed.

Lemma engineer_absent (np : Numeric) (df : DataFrame) (sid : string) :
  rows_of sid df = [] -> engineer np df sid = [].
Proof.
  intros H. apply length_zero_iff_nil. now rewrite length_engineer, H.
Qed.

Lemma contains_train_sensors (df : DataFrame) (sid : string) :
  contains sid (train_sensors df) = true <-> In sid (map sensor_id df).
Proof. unfold train_sensors. now rewrite contains_In, unique_In. Qed.

(** C6 (amended).  For a sensor that occurs in the train table and whose
    raw rows hold no null, the assembled frame of each split keeps the
    sensor's engineered rows but the first 24 of its sorted series: it has
    [n - 24] of them when the sensor has [n] rows in that split, none when
    [n <= 24]. *)
Theorem retained_row_count (np : Numeric) (train_df test_df : DataFrame)
  (msgs : list string) (train_out test_out : DataFrame) (sid : string) :
  prepare_features np train_df test_df = (msgs, inr (train_out, test_out)) ->
  In sid (map sensor_id train_df) ->
  Forall complete (rows_of sid train_df) ->
  Forall complete (rows_of sid test_df) ->
  rows_of sid train_out = skipn 24 (engineer np train_df sid)
  /\ length (rows_of sid train_out) = length (rows_of sid train_df) - 24
  /\ rows_of sid test_out = skipn 24 (engineer np test_df sid)
  /\ length (rows_of sid test_out) = length (rows_of sid test_df) - 24.
Proof.
  intros Hrun Hin Htrain Htest.
  destruct (prepare_features_rows _ _ _ _ _ _ sid Hrun) as [Tr Te].
  apply contains_train_sensors in Hin. rewrite Hin in Tr, Te.
  cbn [andb] in Te.
  assert (Tr' : rows_of sid train_out = skipn 24 (engineer np train_df sid)).
  { rewrite Tr. now apply dropna_engineer. }
  assert (Te' : rows_of sid test_out = skipn 24 (engineer np test_df sid)).
  { rewrite Te. rewrite contains_rows_of.
    destruct (rows_of sid test_df) eqn:E.
    - now rewrite engineer_absent.
    - apply dropna_engineer. now rewrite E. }
  repeat split; try assumption.
  - now rewrite Tr', length_skipn, length_engineer.
  - now rewrite Te', length_skipn, length_engineer.
Qed.

Lemma Forall_complete_forallb (df : DataFrame) :
  forallb row_complete df = true -> Forall complete df.
Proof. intros H. apply Forall_forall. now apply forallb_forall. Qed.

(** C6, as stated, fails for a sensor that only the test table has: its 30
    complete rows leave nothing in the assembled test frame, not 6 rows. *)
Lemma test_only_sensor_keeps_no_row :
  ~ (forall (np : Numeric) (train_df test_df : DataFrame) (msgs : list string)
            (train_out test_out : DataFrame) (sid : string),
        prepare_features np train_df test_df
        = (msgs, inr (train_out, test_out)) ->
        Forall complete (rows_of sid test_df) ->
        length (rows_of sid test_out) = length (rows_of sid test_df) - 24).
Proof.
  intros claim.
  set (train_df := hourly "s1" 30).
  set (test_df := (hourly "s1" 30 ++ hourly "s2" 30)%list).
  destruct (prepare_features approx_numeric train_df test_df)
    as [msgs [e | [train_out test_out]]] eqn:E.
  - vm_compute in E. discriminate.
  - assert (Hc : Forall complete (rows_of "s2" test_df))
      by (apply Forall_complete_forallb; vm_compute; reflexivity).
    pose proof (claim _ _ _ _ _ _ "s2"%string E Hc) as Hlen.
    destruct (prepare_features_rows _ _ _ _ _ _ "s2"%string E) as [_ Te].
    replace (contains "s2" (train_sensors train_df)) with false in Te
      by (vm_compute; reflexivity).
    cbn [andb] in Te. rewrite Te in Hlen.
    vm_compute in Hlen. discriminate.
Qed.

(** ** Sensors that the two tables do not share *)

Lemma shared_sensors_In (train_df test_df : DataFrame) (s : string) :
  In s (shared_sensors train_df test_df)
  <-> In s (map sensor_id train_df) /\ In s (map sensor_id test_df).
Proof.
  unfold shared_sensors, train_sensors.
  now rewrite filter_In, contains_In, !unique_In.
Qed.

Lemma pd_concat_map_nonempty (f : string -> DataFrame) (l : list string) :
  l <> [] -> pd_concat (map f l) = inr (concat (map f l)).
Proof. destruct l; [congruence | reflexivity]. Qed.

(** A successful run and its log. *)
Lemma prepare_features_returns (np : Numeric) (train_df test_df : DataFrame) :
  shared_sensors train_df test_df <> [] ->
  exists train_out test_out : DataFrame,
    prepare_features np train_df test_df
    = (standard_log train_df (length train_out) (length test_out),
       inr (train_out, test_out)).
Proof.
  intros Hs. rewrite prepare_features_spec. cbv zeta.
  assert (Ht : train_sensors train_df <> []).
  { intros E. apply Hs. unfold shared_sensors. now rewrite E. }
  rewrite !pd_concat_map_nonempty by assumption.
  eexists. eexists. reflexivity.
Qed.

Lemma prepare_features_log (np : Numeric) (train_df test_df : DataFrame)
  (msgs : list string) (train_out test_out : DataFrame) :
  prepare_features np train_df test_df = (msgs, inr (train_out, test_out)) ->
  msgs = standard_log train_df (length train_out) (length test_out).
Proof.
  rewrite prepare_features_spec. cbv zeta.
  destruct (pd_concat (map (engineer np train_df) (train_sensors train_df)))
    as [e | tr]; [discriminate |].
  destruct (pd_concat (map (engineer np test_df)
                         (shared_sensors train_df test_df)))
    as [e | te]; [discriminate |].
  intros H. injection H as <- <- <-. reflexivity.
Qed.

(** C10.  When no sensor of the train table occurs in the test table,
    [prepare_features] raises (an empty list of frames reaches
    [pd.concat]) and returns no frame.  When it does return, the test
    frame holds no row of a sensor that the train table lacks, and the log
    says nothing of it: it is the announcement of each train sensor and the
    two final counts. *)
Theorem unshared_test_sensors_are_dropped (np : Numeric)
  (train_df test_df : DataFrame) :
  ((forall s, In s (map sensor_id train_df) -> ~ In s (map sensor_id test_df)) ->
   snd (prepare_features np train_df test_df)
   = inl (ValueError "No objects to concatenate"))
  /\ (forall msgs train_out test_out sid,
         prepare_features np train_df test_df
         = (msgs, inr (train_out, test_out)) ->
         ~ In sid (map sensor_id train_df) ->
         rows_of sid test_out = []
         /\ msgs = standard_log train_df (length train_out) (length test_out)).
Proof.
  split.
  - intros Hdis. rewrite prepare_features_spec. cbv zeta.
    assert (Hs : shared_sensors train_df test_df = []).
    { destruct (shared_sensors train_df test_df) as [| s l] eqn:E; auto.
      assert (Hin : In s (shared_sensors train_df test_df))
        by (rewrite E; now left).
      apply shared_sensors_In in Hin. destruct Hin as [H1 H2].
      now destruct (Hdis s H1). }
    rewrite Hs.
    destruct (train_sensors train_df) as [| s l]; reflexivity.
  - intros msgs train_out test_out sid Hrun Hnot. split.
    + destruct (prepare_features_rows _ _ _ _ _ _ sid Hrun) as [_ Te].
      rewrite Te.
      destruct (contains sid (train_sensors train_df)) eqn:C;
        [| reflexivity].
      apply contains_train_sensors in C. contradiction.
    + eapply prepare_features_log, Hrun.
Qed.

(** ** A sensor without a valid row *)

(** C8 (amended).  A sensor whose engineered rows all fall to the null-row
    drop is not treated apart: whenever the two tables share a sensor,
    [prepare_features] returns, its log is the usual one (one
    announcement per train sensor, then the two counts) and the assembled
    train frame has no row of that sensor. *)
Theorem sensor_without_valid_rows (np : Numeric)
  (train_df test_df : DataFrame) :
  (exists s, In s (map sensor_id train_df) /\ In s (map sensor_id test_df)) ->
  exists train_out test_out : DataFrame,
    prepare_features np train_df test_df
    = (standard_log train_df (length train_out) (length test_out),
       inr (train_out, test_out))
    /\ (forall sid,
           dropna (engineer np train_df sid) = [] ->
           rows_of sid train_out = []).
Proof.
  intros (s & H1 & H2).
  assert (Hs : shared_sensors train_df test_df <> []).
  { intros E.
    assert (Hin : In s (shared_sensors train_df test_df))
      by (apply shared_sensors_In; now split).
    now rewrite E in Hin. }
  destruct (prepare_features_returns np train_df test_df Hs)
    as (train_out & test_out & Hrun).
  exists train_out, test_out. split; [exact Hrun |].
  intros sid Hzero.
  destruct (prepare_features_rows _ _ _ _ _ _ sid Hrun) as [Tr _].
  rewrite Tr, Hzero. now destruct (contains sid (train_sensors train_df)).
Qed.

(** C8, as stated, fails: nothing in the log tells a run in which a sensor
    loses all its rows from a run in which every sensor keeps one.  With
    31 and 24 rows of two sensors the second has no valid row, with 30 and
    25 rows both have some, and the two logs are the same. *)
Lemma insufficient_history_is_not_logged :
  ~ (exists logged : list string -> bool,
        forall (np : Numeric) (train_df test_df : DataFrame),
          logged (fst (prepare_features np train_df test_df)) = true
          <-> exists sid, In sid (map sensor_id train_df)
                          /\ dropna (engineer np train_df sid) = []).
Proof.
  intros (logged & Hlog).
  set (test_df := hourly "s1" 25).
  set (short := (hourly "s1" 31 ++ hourly "s2" 24)%list).
  set (long := (hourly "s1" 30 ++ hourly "s2" 25)%list).
  assert (Hsame : fst (prepare_features approx_numeric short test_df)
                  = fst (prepare_features approx_numeric long test_df))
    by (vm_compute; reflexivity).
  assert (Hshort : logged (fst (prepare_features approx_numeric short test_df))
                   = true).
  { apply Hlog. exists "s2"%string. split.
    - apply unique_In. vm_compute. tauto.
    - vm_compute. reflexivity. }
  rewrite Hsame in Hshort. apply Hlog in Hshort.
  destruct Hshort as (sid & Hin & Hzero).
  assert (Hcases : sid = "s1"%string \/ sid = "s2"%string).
  { apply unique_In in Hin. vm_compute in Hin.
    destruct Hin as [H | [H | []]]; subst sid; auto. }
  destruct Hcases as [-> | ->]; vm_compute in Hzero; discriminate.
Qed.

(** ** The feature list *)

(** C7, as stated, fails: the list has 30 entries, not 29. *)
Lemma define_features_not_29 : length define_features <> 29.
Proof. vm_compute. discriminate. Qed.

(** C7 (amended).  The feature list has 30 entries: 2 geographic, 5
    calendar, 4 cyclical, the current humidity, 12 lag columns (the 6
    default lags of the two signals), 4 rolling means and 2 rolling
    standard deviations, in that order. *)
Theorem define_features_composition :
  length define_features = 30
  /\ define_features
     = (geographic_columns ++ calendar_columns ++ cyclical_columns
        ++ ["humidity"%string] ++ lag_column_names
        ++ rolling_mean_columns ++ rolling_std_columns)%list
  /\ length geographic_columns = 2 /\ length calendar_columns = 5
  /\ length cyclical_columns = 4
  /\ length lag_column_names = 2 * length default_lags
  /\ length default_lags = 6
  /\ length rolling_mean_columns = 4 /\ length rolling_std_columns = 2.
Proof. repeat split; reflexivity. Qed.

(** ** The scaler *)

(** C3.  The scaler that a run leaves fitted is [scaler_fit] of the
    training matrix: two runs on the same training matrix and target end
    with the same scaler, whatever predictor they start from and whatever
    test matrix, if any, they go on to predict. *)
Theorem scaler_ignores_test_matrix (Forest : Type)
  (forest_fit : Matrix -> list Q -> Forest)
  (forest_predict : Forest -> Matrix -> list Q) (np : Numeric)
  (self1 self2 : Predictor Forest) (X_train : Matrix) (y_train : list Q)
  (X_test1 X_test2 : option Matrix)
  (fitted1 fitted2 : Predictor Forest) (y_pred1 y_pred2 : option (list Q)) :
  fit_run forest_fit forest_predict np self1 X_train y_train X_test1
  = inr (fitted1, y_pred1) ->
  fit_run forest_fit forest_predict np self2 X_train y_train X_test2
  = inr (fitted2, y_pred2) ->
  scaler fitted1 = scaler fitted2
  /\ exists sc : StandardScaler,
       scaler_fit np X_train = inr sc /\ scaler fitted1 = Some sc.
Proof.
  assert (Hrun : forall self X_test fitted y_pred,
             fit_run forest_fit forest_predict np self X_train y_train X_test
             = inr (fitted, y_pred) ->
             exists sc, scaler_fit np X_train = inr sc
                        /\ scaler fitted = Some sc).
  { intros self X_test fitted y_pred. unfold fit_run, train.
    destruct (scaler_fit np X_train) as [e | sc]; [discriminate |].
    destruct (scaler_transform sc X_train) as [e | Xs]; [discriminate |].
    destruct (length X_train =? length y_train); [| discriminate].
    destruct X_test as [X |].
    - destruct (predict forest_predict _ X) as [e | yp]; [discriminate |].
      intros H. injection H as <- _. now exists sc.
    - intros H. injection H as <- _. now exists sc. }
  intros H1 H2.
  destruct (Hrun _ _ _ _ H1) as (sc1 & F1 & S1).
  destruct (Hrun _ _ _ _ H2) as (sc2 & F2 & S2).
  split.
  - rewrite S1, S2. congruence.
  - now exists sc1.
Qed.

(** ** The metrics on a constant target *)

Lemma Qsum_all_zero (l : list Q) :
  Forall (fun x => x == 0)%Q l -> (Qsum l == 0)%Q.
Proof.
  induction 1 as [| x l Hx _ IH]; [reflexivity |].
  unfold Qsum in *. simpl. rewrite Hx, IH. reflexivity.
Qed.

Lemma Qsum_constant (c : Q) (l : list Q) :
  Forall (fun y => y == c)%Q l -> (Qsum l == c * Qnat (length l))%Q.
Proof.
  induction 1 as [| x l Hx _ IH].
  - unfold Qsum, Qnat. simpl. ring.
  - unfold Qsum in *. cbn [fold_right length]. rewrite Hx, IH.
    unfold Qnat. rewrite Nat2Z.inj_succ, <- Z.add_1_r, inject_Z_plus. ring.
Qed.

Lemma Qnat_pos (n : nat) : 0 < n -> (0 < Qnat n)%Q.
Proof.
  intros H. unfold Qnat.
  change 0%Q with (inject_Z 0). rewrite <- Zlt_Qlt. lia.
Qed.

Lemma Qmean_constant (c : Q) (l : list Q) :
  l <> [] -> Forall (fun y => y == c)%Q l -> (Qmean l == c)%Q.
Proof.
  intros Hne H. unfold Qmean. rewrite Qred_correct, (Qsum_constant c l H).
  assert (Hp : (0 < Qnat (length l))%Q).
  { apply Qnat_pos. destruct l; [congruence | simpl; lia]. }
  field. intros E. rewrite E in Hp. now apply Qlt_irrefl in Hp.
Qed.

Lemma sq_nonneg (x : Q) : (0 <= sq x)%Q.
Proof. unfold sq. nra. Qed.

Lemma Qsum_sq_nonneg (l : list Q) : (0 <= Qsum (map sq l))%Q.
Proof.
  induction l as [| x l IH]; unfold Qsum in *; simpl; [lra |].
  pose proof (sq_nonneg x). lra.
Qed.

Lemma Qsum_sq_zero (l : list Q) :
  (Qsum (map sq l) == 0)%Q <-> Forall (fun x => x == 0)%Q l.
Proof.
  induction l as [| x l IH].
  - split; [constructor | reflexivity].
  - unfold Qsum in *. cbn [map fold_right].
    pose proof (sq_nonneg x) as Hx.
    pose proof (Qsum_sq_nonneg l) as Hl. unfold Qsum in Hl.
    split.
    + intros H.
      assert (Hx0 : (sq x == 0)%Q) by lra.
      assert (Hl0 : (fold_right Qplus 0 (map sq l) == 0)%Q) by lra.
      constructor; [| now apply IH].
      unfold sq in Hx0. apply Qmult_integral in Hx0. tauto.
    + intros H. inversion H as [| ? ? H0 Hrest]; subst.
      apply IH in Hrest. unfold sq. rewrite H0, Hrest. ring.
Qed.

Lemma squares_about_nonneg (m : Q) (l : list Q) :
  (0 <= Qsum (map (fun y => sq (y - m)) l))%Q.
Proof.
  induction l as [| y l IH]; unfold Qsum in *; simpl; [lra |].
  pose proof (sq_nonneg (y - m)). lra.
Qed.

(** The sum of squares of a constant list about any point. *)
Lemma squares_about_constant (c m : Q) (y_true : list Q) :
  Forall (fun y => y == c)%Q y_true ->
  (Qsum (map (fun y => sq (y - m)) y_true)
   == Qnat (length y_true) * sq (c - m))%Q.
Proof.
  induction 1 as [| y l Hy _ IH].
  - unfold Qsum, Qnat. simpl. ring.
  - unfold Qsum in *. cbn [map fold_right length]. rewrite IH.
    unfold sq. rewrite Hy.
    unfold Qnat. rewrite Nat2Z.inj_succ, <- Z.add_1_r, inject_Z_plus. ring.
Qed.

(** C9 (amended).  On a target whose entries are all equal and a
    prediction of the same length, [evaluate] returns the mean absolute
    error and the root of the mean squared error.  With two entries or
    more the R2 entry is a number, never NaN: 1 when the prediction equals
    the target entry by entry; otherwise 0 when the mean that [r2_score]
    computes for the target is the common value, so that the total sum of
    squares is exactly zero, and [1 - SS_res / SS_tot], at most 1, when
    rounding leaves that mean off the common value.  With one entry the R2
    entry is NaN; with none, [evaluate] raises. *)
Theorem evaluate_constant_target (np : Numeric) (y_true y_pred : list Q)
  (c : Q) :
  Forall (fun y => y == c)%Q y_true ->
  length y_true = length y_pred ->
  (2 <= length y_true ->
   exists score : Q,
     evaluate np y_true y_pred
     = inr (mkMetrics (Some (mean_absolute_error y_true y_pred))
              (Some (np_sqrt np (mean_squared_error y_true y_pred)))
              (Some score))
     /\ (perfect y_true y_pred -> score = 1%Q)
     /\ (~ perfect y_true y_pred ->
         (np_average np y_true == c)%Q -> score = 0%Q)
     /\ (~ perfect y_true y_pred ->
         ~ (np_average np y_true == c)%Q ->
         (score == 1 - Qsum (map sq (residuals y_true y_pred))
                      / (Qnat (length y_true)
                         * sq (c - np_average np y_true)))%Q
         /\ (score <= 1)%Q))
  /\ (length y_true = 1 ->
      evaluate np y_true y_pred
      = inr (mkMetrics (Some (mean_absolute_error y_true y_pred))
               (Some (np_sqrt np (mean_squared_error y_true y_pred)))
               None))
  /\ (length y_true = 0 ->
      evaluate np y_true y_pred
      = inl (ValueError "Found array with 0 sample(s)")).
Proof.
  intros Hconst Hlen.
  assert (Hcheck : 1 <= length y_true -> check_targets y_true y_pred = None).
  { intros Hn. unfold check_targets. rewrite <- Hlen, Nat.eqb_refl.
    destruct (length y_true =? 0) eqn:E; [| reflexivity].
    apply Nat.eqb_eq in E. lia. }
  split; [| split].
  - intros H2. unfold evaluate.
    rewrite Hcheck by lia. unfold r2_score. rewrite <- Hlen.
    assert (E2 : (length y_true <? 2) = false) by (apply Nat.ltb_ge; lia).
    rewrite E2. cbv zeta.
    pose proof (squares_about_constant c (np_average np y_true) y_true Hconst)
      as Hden.
    assert (HN : (0 < Qnat (length y_true))%Q) by (apply Qnat_pos; lia).
    pose proof (Qsum_sq_nonneg (residuals y_true y_pred)) as Hnum.
    pose proof (sq_nonneg (c - np_average np y_true)) as Hsq.
    set (num := Qsum (map sq (residuals y_true y_pred))) in *.
    set (den := Qsum (map (fun y => sq (y - np_average np y_true)) y_true))
      in *.
    set (N := Qnat (length y_true)) in *.
    set (d := sq (c - np_average np y_true)) in *.
    assert (Hoff : (np_average np y_true == c)%Q <-> (d == 0)%Q).
    { unfold d, sq. split.
      - intros E. rewrite E. ring.
      - intros E. apply Qmult_integral in E. lra. }
    destruct (Qeq_bool num 0) eqn:Enum; cbn [negb].
    + rewrite andb_false_r. cbn [andb].
      assert (Hp : perfect y_true y_pred)
        by (apply Qeq_bool_iff in Enum; now apply Qsum_sq_zero).
      exists 1%Q. split; [reflexivity |]. split; [reflexivity |].
      split; intros Hnot; contradiction.
    + assert (Hnp : ~ perfect y_true y_pred).
      { intros Hp. apply Qsum_sq_zero in Hp. apply Qeq_bool_iff in Hp.
        fold num in Hp. congruence. }
      assert (Hnum0 : (0 < num)%Q).
      { apply Qeq_bool_neq in Enum. lra. }
      destruct (Qeq_bool den 0) eqn:Eden; cbn [negb andb].
      * apply Qeq_bool_iff in Eden.
        exists 0%Q. split; [reflexivity |].
        split; [intros Hp; contradiction |].
        split; [reflexivity |].
        intros _ Hne. exfalso. apply Hne, Hoff.
        rewrite Eden in Hden.
        assert (E : (N * d == 0)%Q) by (symmetry; exact Hden).
        apply Qmult_integral in E. lra.
      * apply Qeq_bool_neq in Eden.
        exists (Qred (1 - num / den)). split; [reflexivity |].
        split; [intros Hp; contradiction |].
        split.
        -- intros _ Hc. exfalso. apply Eden. rewrite Hden.
           apply Hoff in Hc. rewrite Hc. ring.
        -- intros _ _. rewrite Qred_correct.
           assert (Hd0 : (0 < den)%Q).
           { pose proof (squares_about_nonneg (np_average np y_true) y_true)
               as Hge. fold den in Hge. lra. }
           split.
           ++ rewrite Hden. reflexivity.
           ++ assert (Hq : (0 < num / den)%Q).
              { apply Qlt_shift_div_l; [exact Hd0 | lra]. }
              lra.
  - intros H1. unfold evaluate. rewrite Hcheck by lia. unfold r2_score.
    rewrite <- Hlen, H1. reflexivity.
  - intros H0. unfold evaluate, check_targets.
    rewrite <- Hlen, Nat.eqb_refl, H0. reflexivity.
Qed.

(** C9, as stated, fails: on the constant target 1, 1 and the prediction
    2, 3 the R2 entry is 0, not NaN. *)
Lemma r2_of_constant_target_is_finite :
  ~ (forall (np : Numeric) (y_true y_pred : list Q) (c : Q),
        Forall (fun y => y == c)%Q y_true ->
        length y_true = length y_pred ->
        exists m : Metrics,
          evaluate np y_true y_pred = inr m /\ r2 m = None).
Proof.
  intros claim.
  destruct (claim approx_numeric [1%Q; 1%Q] [2%Q; 3%Q] 1%Q) as (m & Hm & Hr).
  - repeat constructor.
  - reflexivity.
  - vm_compute in Hm. injection Hm as <-. discriminate.
Qed.

(** ** The theorems at work on concrete frames *)

Lemma cross_sensor_isolation_witness :
  let train2 := replace_readings "s2" warmer two_sensors in
  let test_df := hourly "s1" 26 in
  rows_of "s1" two_sensors = rows_of "s1" train2
  /\ rows_of "s1" (fst (run_frames approx_numeric two_sensors test_df))
     = rows_of "s1" (fst (run_frames approx_numeric train2 test_df))
  /\ rows_of "s2" (fst (run_frames approx_numeric two_sensors test_df))
     <> rows_of "s2" (fst (run_frames approx_numeric train2 test_df)).
Proof.
  cbv zeta.
  assert (H1 : rows_of "s1" two_sensors
               = rows_of "s1" (replace_readings "s2" warmer two_sensors))
    by (vm_compute; reflexivity).
  split; [exact H1 |]. split.
  - apply (proj2 (cross_sensor_isolation approx_numeric two_sensors
                    (replace_readings "s2" warmer two_sensors)
                    (hourly "s1" 26) (hourly "s1" 26) "s1" H1 eq_refl)
             (fst (prepare_features approx_numeric two_sensors
                     (hourly "s1" 26)))
             (fst (prepare_features approx_numeric
                     (replace_readings "s2" warmer two_sensors)
                     (hourly "s1" 26)))
             _ (snd (run_frames approx_numeric two_sensors (hourly "s1" 26)))
             _ (snd (run_frames approx_numeric
                       (replace_readings "s2" warmer two_sensors)
                       (hourly "s1" 26))));
      vm_compute; reflexivity.
  - vm_compute. discriminate.
Defined.



Lemma rolling_std_warm_up_witness :
  let df := hourly "s1" 30 in
  let r := nth 0 (create_lag_features approx_numeric df "s1" None)
               (reading "s1" 0) in
  sqrt_sound approx_numeric
  /\ nth_error (create_lag_features approx_numeric df "s1" None) 0 = Some r
  /\ get_col "temp_std_24" (derived r) = Some None
  /\ get_col "humidity_std_24" (derived r) = Some None.
Proof.
  cbv zeta.
  assert (Hr : nth_error
                 (create_lag_features approx_numeric (hourly "s1" 30) "s1" None)
                 0
               = Some (nth 0 (create_lag_features approx_numeric
                                (hourly "s1" 30) "s1" None) (reading "s1" 0)))
    by (vm_compute; reflexivity).
  split; [exact approx_sqrt_sound |]. split; [exact Hr |].
  destruct (rolling_std_warm_up approx_numeric (hourly "s1" 30) "s1" 0 _
              approx_sqrt_sound Hr) as (_ & _ & Hfirst & _).
  exact (Hfirst eq_refl).
Defined.

Lemma retained_row_count_witness :
  let train_df := hourly "s1" 30 in
  let test_df := hourly "s1" 26 in
  let out := run_frames approx_numeric train_df test_df in
  In "s1"%string (map sensor_id train_df)
  /\ Forall complete (rows_of "s1" train_df)
  /\ Forall complete (rows_of "s1" test_df)
  /\ length (rows_of "s1" (fst out)) = 6
  /\ length (rows_of "s1" (snd out)) = 2.
Proof.
  cbv zeta.
  assert (Hin : In "s1"%string (map sensor_id (hourly "s1" 30)))
    by (left; reflexivity).
  assert (Htrain : Forall complete (rows_of "s1" (hourly "s1" 30)))
    by (apply Forall_complete_forallb; vm_compute; reflexivity).
  assert (Htest : Forall complete (rows_of "s1" (hourly "s1" 26)))
    by (apply Forall_complete_forallb; vm_compute; reflexivity).
  assert (Hrun : prepare_features approx_numeric (hourly "s1" 30)
                   (hourly "s1" 26)
                 = (fst (prepare_features approx_numeric (hourly "s1" 30)
                           (hourly "s1" 26)),
                    inr (fst (run_frames approx_numeric (hourly "s1" 30)
                                (hourly "s1" 26)),
                         snd (run_frames approx_numeric (hourly "s1" 30)
                                (hourly "s1" 26)))))
    by (vm_compute; reflexivity).
  destruct (retained_row_count approx_numeric _ _ _ _ _ "s1" Hrun Hin Htrain
              Htest) as (_ & Ltr & _ & Lte).
  split; [exact Hin |]. split; [exact Htrain |]. split; [exact Htest |].
  split.
  - rewrite Ltr. vm_compute. reflexivity.
  - rewrite Lte. vm_compute. reflexivity.
Defined.

Lemma sensor_without_valid_rows_witness :
  let train_df := (hourly "s1" 31 ++ hourly "s2" 24)%list in
  let test_df := hourly "s1" 25 in
  (exists s, In s (map sensor_id train_df) /\ In s (map sensor_id test_df))
  /\ dropna (engineer approx_numeric train_df "s2") = []
  /\ exists train_out test_out : DataFrame,
       prepare_features approx_numeric train_df test_df
       = (standard_log train_df (length train_out) (length test_out),
          inr (train_out, test_out))
       /\ rows_of "s2" train_out = [].
Proof.
  cbv zeta.
  assert (Hs : exists s,
             In s (map sensor_id (hourly "s1" 31 ++ hourly "s2" 24)%list)
             /\ In s (map sensor_id (hourly "s1" 25))).
  { exists "s1"%string. split; left; reflexivity. }
  assert (Hz : dropna (engineer approx_numeric
                         (hourly "s1" 31 ++ hourly "s2" 24)%list "s2") = [])
    by (vm_compute; reflexivity).
  split; [exact Hs |]. split; [exact Hz |].
  destruct (sensor_without_valid_rows approx_numeric _ _ Hs)
    as (train_out & test_out & Hrun & Hrows).
  exists train_out, test_out. split; [exact Hrun |].
  apply Hrows, Hz.
Defined.

Lemma unshared_test_sensors_are_dropped_witness :
  (forall s, In s (map sensor_id (hourly "s1" 30)) ->
             ~ In s (map sensor_id (hourly "s2" 30)))
  /\ snd (prepare_features approx_numeric (hourly "s1" 30) (hourly "s2" 30))
     = inl (ValueError "No objects to concatenate")
  /\ ~ In "s2"%string (map sensor_id (hourly "s1" 30))
  /\ rows_of "s2"
       (snd (run_frames approx_numeric (hourly "s1" 30)
               (hourly "s1" 30 ++ hourly "s2" 30)%list)) = [].
Proof.
  assert (Hdis : forall s, In s (map sensor_id (hourly "s1" 30)) ->
                           ~ In s (map sensor_id (hourly "s2" 30))).
  { intros s H1 H2. apply unique_In in H1. apply unique_In in H2.
    vm_compute in H1, H2.
    destruct H1 as [<- | []]. destruct H2 as [H2 | []]. discriminate. }
  assert (Hnot : ~ In "s2"%string (map sensor_id (hourly "s1" 30))).
  { intros H. apply unique_In in H. vm_compute in H.
    destruct H as [H | []]. discriminate. }
  split; [exact Hdis |]. split; [| split; [exact Hnot |]].
  - exact (proj1 (unshared_test_sensors_are_dropped approx_numeric
                    (hourly "s1" 30) (hourly "s2" 30)) Hdis).
  - refine (proj1 (proj2 (unshared_test_sensors_are_dropped approx_numeric
                            (hourly "s1" 30)
                            (hourly "s1" 30 ++ hourly "s2" 30)%list)
                     (fst (prepare_features approx_numeric (hourly "s1" 30)
                             (hourly "s1" 30 ++ hourly "s2" 30)%list))
                     (fst (run_frames approx_numeric (hourly "s1" 30)
                             (hourly "s1" 30 ++ hourly "s2" 30)%list))
                     _ "s2"%string _ Hnot)).
    vm_compute. reflexivity.
Defined.

Lemma scaler_ignores_test_matrix_witness :
  exists (fitted1 fitted2 : Predictor Q) (y_pred : list Q) (sc : StandardScaler),
    fit_run mean_forest_fit mean_forest_predict approx_numeric init
      small_X small_y (Some [[7; 8]]%Q)
    = inr (fitted1, Some y_pred)
    /\ fit_run mean_forest_fit mean_forest_predict approx_numeric fitted1
         small_X small_y None
       = inr (fitted2, None)
    /\ scaler fitted1 = scaler fitted2
    /\ scaler_fit approx_numeric small_X = inr sc
    /\ scaler fitted1 = Some sc.
Proof.
  destruct (fit_run mean_forest_fit mean_forest_predict approx_numeric init
              small_X small_y (Some [[7; 8]]%Q))
    as [e | [fitted1 [y_pred |]]] eqn:E1;
    try (vm_compute in E1; discriminate).
  destruct (fit_run mean_forest_fit mean_forest_predict approx_numeric fitted1
              small_X small_y None)
    as [e | [fitted2 [y_pred2 |]]] eqn:E2.
  - exfalso. unfold fit_run, train in E1, E2.
    destruct (scaler_fit approx_numeric small_X); [discriminate |].
    destruct (scaler_transform s small_X); [discriminate |].
    destruct (length small_X =? length small_y); discriminate.
  - exfalso. unfold fit_run in E2.
    destruct (train mean_forest_fit approx_numeric fitted1 small_X small_y);
      discriminate.
  - destruct (scaler_ignores_test_matrix Q mean_forest_fit mean_forest_predict
                approx_numeric init fitted1 small_X small_y
                (Some [[7; 8]]%Q) None fitted1 fitted2 (Some y_pred) None
                E1 E2) as (Heq & sc & Hfit & Hsc).
    exists fitted1, fitted2, y_pred, sc. repeat split; assumption.
Defined.

Lemma evaluate_constant_target_witness :
  Forall (fun y => y == 4)%Q [4; 4; 4]%Q
  /\ length [4; 4; 4]%Q = length [4; 5; 3]%Q
  /\ (exists m : Metrics,
        evaluate approx_numeric [4; 4; 4]%Q [4; 5; 3]%Q = inr m
        /\ mae m = Some (2 # 3)%Q /\ r2 m = Some 0%Q)
  /\ (exists (m : Metrics) (q : Q),
        evaluate rounded_numeric [4; 4; 4]%Q [4; 5; 3]%Q = inr m
        /\ mae m = Some (2 # 3)%Q /\ r2 m = Some q /\ (q <= 1)%Q).
Proof.
  assert (Hc : Forall (fun y => y == 4)%Q [4; 4; 4]%Q)
    by (repeat constructor).
  assert (Hnp : ~ perfect [4; 4; 4]%Q [4; 5; 3]%Q).
  { intros Hp. unfold perfect in Hp. simpl in Hp.
    inversion Hp as [| ? ? _ Hrest]. inversion Hrest as [| ? ? Hbad _].
    vm_compute in Hbad. discriminate. }
  split; [exact Hc |]. split; [reflexivity |]. split.
  - destruct (evaluate_constant_target approx_numeric [4; 4; 4]%Q
                [4; 5; 3]%Q 4 Hc eq_refl) as (Hmany & _ & _).
    destruct (Hmany ltac:(simpl; lia)) as (score & Hrun & _ & Hzero & _).
    eexists. split; [exact Hrun |]. split.
    + vm_compute. reflexivity.
    + cbn [r2]. f_equal. apply Hzero; [exact Hnp |].
      vm_compute. reflexivity.
  - destruct (evaluate_constant_target rounded_numeric [4; 4; 4]%Q
                [4; 5; 3]%Q 4 Hc eq_refl) as (Hmany & _ & _).
    destruct (Hmany ltac:(simpl; lia)) as (score & Hrun & _ & _ & Hoff).
    eexists. exists score. split; [exact Hrun |]. split.
    + vm_compute. reflexivity.
    + split; [reflexivity |]. apply Hoff; [exact Hnp |].
      vm_compute. discriminate.
Defined.

(** * Further properties of the code *)

(** ** [create_temporal_features] *)

Lemma dt_doy_march_range (t : Z) : (0 <= dt_doy_march t <= 365)%Z.
Proof.
  unfold dt_doy_march.
  pose proof (Z.mod_pos_bound (dt_days t + 719468) 146097 ltac:(lia)) as H.
  set (doe := ((dt_days t + 719468) mod 146097)%Z) in *. clearbody doe.
  cbv zeta. Z.div_mod_to_equations. lia.
Qed.

Lemma dt_month_range (t : Z) : (1 <= dt_month t <= 12)%Z.
Proof.
  unfold dt_month. pose proof (dt_doy_march_range t) as H.
  set (doy := dt_doy_march t) in *. clearbody doy. cbv zeta.
  destruct ((5 * doy + 2) / 153 <? 10)%Z eqn:E;
    [apply Z.ltb_lt in E | apply Z.ltb_ge in E];
    Z.div_mod_to_equations; lia.
Qed.

Lemma dt_day_range (t : Z) : (1 <= dt_day t <= 31)%Z.
Proof.
  unfold dt_day. pose proof (dt_doy_march_range t) as H.
  set (doy := dt_doy_march t) in *. clearbody doy. cbv zeta.
  Z.div_mod_to_equations. lia.
Qed.

Lemma temporal_row_columns (np : Numeric) (r : Row) :
  let r' := temporal_row np r in
  let hour := dt dt_hour (timestamp r) in
  let month := dt dt_month (timestamp r) in
  get_col "hour" (derived r') = Some hour
  /\ get_col "day_of_week" (derived r') = Some (dt dt_dayofweek (timestamp r))
  /\ get_col "month" (derived r') = Some month
  /\ get_col "day_of_month" (derived r') = Some (dt dt_day (timestamp r))
  /\ get_col "quarter" (derived r') = Some (dt dt_quarter (timestamp r))
  /\ get_col "hour_sin" (derived r') = Some (cyclical np np_sin 24 hour)
  /\ get_col "hour_cos" (derived r') = Some (cyclical np np_cos 24 hour)
  /\ get_col "month_sin" (derived r') = Some (cyclical np np_sin 12 month)
  /\ get_col "month_cos" (derived r') = Some (cyclical np np_cos 12 month).
Proof.
  unfold temporal_row. cbn [derived set_derived timestamp].
  repeat split; read_col; reflexivity.
Qed.

(** X1.  For a row with a timestamp, [create_temporal_features] fills the
    calendar columns with integers in range (hour 0..23, day of week 0..6,
    month 1..12, day of month 1..31, quarter 1..4, the quarter being that
    of the month) and the four cyclical columns with numbers. *)
Theorem temporal_columns_in_range (np : Numeric) (df : DataFrame) (i : nat)
  (r : Row) (t : Z) :
  nth_error (create_temporal_features np df) i = Some r ->
  timestamp r = Some t ->
  holds_between 0 23 (get_col "hour" (derived r))
  /\ holds_between 0 6 (get_col "day_of_week" (derived r))
  /\ holds_between 1 12 (get_col "month" (derived r))
  /\ holds_between 1 31 (get_col "day_of_month" (derived r))
  /\ holds_between 1 4 (get_col "quarter" (derived r))
  /\ get_col "quarter" (derived r)
     = Some (Some (inject_Z ((dt_month t - 1) / 3 + 1)))
  /\ Forall (fun name => holds_number (get_col name (derived r)))
       cyclical_columns.
Proof.
  intros Hr Ht. unfold create_temporal_features in Hr.
  rewrite nth_error_map in Hr.
  destruct (nth_error df i) as [r0 |]; [| discriminate].
  injection Hr as <-.
  destruct (temporal_row_same_reading np r0) as (_ & Ets & _).
  rewrite Ets in Ht.
  destruct (temporal_row_columns np r0)
    as (H1 & H2 & H3 & H4 & H5 & H6 & H7 & H8 & H9).
  rewrite Ht in *. cbn [dt option_map cyclical] in *.
  pose proof (dt_month_range t) as Hm. pose proof (dt_day_range t) as Hd.
  split; [| split; [| split; [| split; [| split; [| split]]]]].
  - exists (dt_hour t). split; [exact H1 |]. unfold dt_hour.
    Z.div_mod_to_equations. lia.
  - exists (dt_dayofweek t). split; [exact H2 |]. unfold dt_dayofweek.
    Z.div_mod_to_equations. lia.
  - exists (dt_month t). now split.
  - exists (dt_day t). now split.
  - exists (dt_quarter t). split; [exact H5 |]. unfold dt_quarter.
    Z.div_mod_to_equations. lia.
  - exact H5.
  - unfold cyclical_columns. repeat constructor; eexists; eassumption.
Qed.

Lemma temporal_columns_in_range_witness :
  let df := [reading "s1" 0; reading "s1" 13] in
  let r := nth 1 (create_temporal_features approx_numeric df) (reading "s1" 0) in
  nth_error (create_temporal_features approx_numeric df) 1 = Some r
  /\ timestamp r = Some 46800%Z
  /\ holds_between 0 23 (get_col "hour" (derived r))
  /\ get_col "hour" (derived r) = Some (Some 13%Q)
  /\ get_col "quarter" (derived r) = Some (Some 1%Q).
Proof.
  cbv zeta.
  assert (Hr : nth_error (create_temporal_features approx_numeric
                            [reading "s1" 0; reading "s1" 13]) 1
               = Some (nth 1 (create_temporal_features approx_numeric
                                [reading "s1" 0; reading "s1" 13])
                           (reading "s1" 0))) by reflexivity.
  assert (Ht : timestamp (nth 1 (create_temporal_features approx_numeric
                                   [reading "s1" 0; reading "s1" 13])
                              (reading "s1" 0)) = Some 46800%Z)
    by reflexivity.
  split; [exact Hr |]. split; [exact Ht |].
  destruct (temporal_columns_in_range approx_numeric _ 1 _ 46800 Hr Ht)
    as (Hh & _ & _ & _ & _ & Hq & _).
  split; [exact Hh |]. split; [reflexivity | exact Hq].
Defined.

(** X2.  [create_temporal_features] keeps the frame as it is, row for row:
    the same number of rows, each with the readings and the columns it
    had, the nine temporal columns apart.  A row without a timestamp (NaT)
    raises nothing: its nine temporal columns are null. *)
Theorem temporal_features_keep_frame (np : Numeric) (df : DataFrame) :
  length (create_temporal_features np df) = length df
  /\ forall i r0,
       nth_error df i = Some r0 ->
       exists r,
         nth_error (create_temporal_features np df) i = Some r
         /\ same_reading r r0
         /\ (forall name, ~ In name temporal_columns ->
                          get_col name (derived r) = get_col name (derived r0))
         /\ (timestamp r0 = None ->
             forall name, In name temporal_columns ->
                          get_col name (derived r) = Some None).
Proof.
  unfold create_temporal_features. split; [apply length_map |].
  intros i r0 Hi. exists (temporal_row np r0).
  split; [rewrite nth_error_map, Hi; reflexivity |].
  split; [apply temporal_row_same_reading |]. split.
  - intros name Hname. unfold temporal_row.
    cbn [derived set_derived].
    assert (Hne : forall other, In other temporal_columns ->
                                String.eqb other name = false).
    { intros other Ho. apply String.eqb_neq. intros ->. contradiction. }
    rewrite !get_set_col_other by (apply Hne; simpl; tauto).
    reflexivity.
  - intros Hnat name Hname.
    destruct (temporal_row_columns np r0)
      as (H1 & H2 & H3 & H4 & H5 & H6 & H7 & H8 & H9).
    rewrite Hnat in *. cbn [dt option_map cyclical] in *.
    simpl in Hname.
    repeat (destruct Hname as [<- | Hname]; [assumption |]).
    contradiction.
Qed.

(** ** [create_lag_features]: the rows it returns *)

Lemma map_field_lag_columns {A : Type} (field : Row -> A) (lags : list nat) :
  (forall name v r, field (set_derived name v r) = field r) ->
  forall df, map field (fold_left lag_columns lags df) = map field df.
Proof.
  intros Hf. induction lags as [| lag lags IH]; intros df; simpl; auto.
  rewrite IH. unfold lag_columns.
  now rewrite !(map_field_assign A field Hf).
Qed.

Lemma map_field_create_lag_features {A : Type} (field : Row -> A)
  (np : Numeric) (df : DataFrame) (sid : string) (lags : option (list nat)) :
  (forall name v r, field (set_derived name v r) = field r) ->
  map field (create_lag_features np df sid lags)
  = map field (sort_values (rows_of sid df)).
Proof.
  intros Hf. unfold create_lag_features.
  rewrite !(map_field_assign A field Hf).
  now apply map_field_lag_columns.
Qed.

Lemma sorted_timestamps (df : DataFrame) :
  LocallySorted ts_le df -> LocallySorted ts_ascending (map timestamp df).
Proof.
  induction 1; simpl; constructor; auto.
Qed.

(** X3.  [create_lag_features] returns the rows of the sensor and no
    other: as many rows as the sensor has in the frame, their readings a
    rearrangement of the sensor's readings, in ascending order of
    timestamp with the rows without a timestamp last.  For a sensor the
    frame lacks it returns the empty frame. *)
Theorem create_lag_features_rows (np : Numeric) (df : DataFrame)
  (sid : string) (lags : option (list nat)) :
  let out := create_lag_features np df sid lags in
  length out = length (rows_of sid df)
  /\ Permutation (map readings_of out) (map readings_of (rows_of sid df))
  /\ LocallySorted ts_ascending (map timestamp out)
  /\ Forall (fun r => sensor_id r = sid) out
  /\ (~ In sid (map sensor_id df) -> out = []).
Proof.
  intros out. subst out.
  split; [apply length_create_lag_features |].
  split; [| split; [| split]].
  - rewrite (map_field_create_lag_features readings_of) by reflexivity.
    apply Permutation_map. symmetry. apply sort_values_perm.
  - rewrite (map_field_create_lag_features timestamp) by reflexivity.
    apply sorted_timestamps, sort_values_sorted.
  - apply create_lag_features_sensor.
  - intros Hnot. apply length_zero_iff_nil.
    rewrite length_create_lag_features.
    destruct (rows_of sid df) as [| r l] eqn:E; [reflexivity |].
    exfalso. apply Hnot.
    assert (Hin : In r (rows_of sid df)) by (rewrite E; now left).
    apply filter_In in Hin. destruct Hin as [Hin Hs].
    apply String.eqb_eq in Hs. apply in_map_iff. now exists r.
Qed.

(** ** [create_lag_features]: any list of lags *)

Lemma to_uint_nonnil (n : nat) : Nat.to_uint n <> Decimal.Nil.
Proof.
  rewrite <- (DecimalNat.Unsigned.of_to n) at 1.
  rewrite DecimalNat.Unsigned.to_of. apply DecimalFacts.unorm_nonnil.
Qed.

Lemma fmt_nat_inj (n m : nat) : fmt_nat n = fmt_nat m -> n = m.
Proof.
  unfold fmt_nat. intros H.
  apply DecimalNat.Unsigned.to_uint_inj.
  assert (E : NilZero.uint_of_string (NilZero.string_of_uint (Nat.to_uint n))
              = NilZero.uint_of_string (NilZero.string_of_uint (Nat.to_uint m)))
    by now rewrite H.
  rewrite !NilZero.usu in E by apply to_uint_nonnil.
  now injection E.
Qed.

Lemma append_inj (p a b : string) : (p ++ a = p ++ b)%string -> a = b.
Proof.
  induction p as [| c p IH]; simpl; intros H; [exact H |].
  injection H as H. now apply IH.
Qed.

Lemma temp_lag_name_eqb (k l : nat) :
  String.eqb ("temp_lag_" ++ fmt_nat l) ("temp_lag_" ++ fmt_nat k)
  = Nat.eqb k l.
Proof.
  destruct (Nat.eqb_spec k l) as [-> | Hne].
  - apply String.eqb_refl.
  - apply String.eqb_neq. intros H. apply append_inj, fmt_nat_inj in H.
    congruence.
Qed.

Lemma humidity_lag_name_eqb (k l : nat) :
  String.eqb ("humidity_lag_" ++ fmt_nat l) ("humidity_lag_" ++ fmt_nat k)
  = Nat.eqb k l.
Proof.
  destruct (Nat.eqb_spec k l) as [-> | Hne].
  - apply String.eqb_refl.
  - apply String.eqb_neq. intros H. apply append_inj, fmt_nat_inj in H.
    congruence.
Qed.

Lemma lag_names_apart (s1 s2 : string) :
  String.eqb ("humidity_lag_" ++ s1) ("temp_lag_" ++ s2) = false
  /\ String.eqb ("temp_lag_" ++ s1) ("humidity_lag_" ++ s2) = false.
Proof. split; reflexivity. Qed.

Lemma rolling_names_apart (name s : string) :
  In name (rolling_mean_columns ++ rolling_std_columns)%list ->
  String.eqb name ("temp_lag_" ++ s) = false
  /\ String.eqb name ("humidity_lag_" ++ s) = false.
Proof.
  simpl. intros H.
  repeat (destruct H as [<- | H]; [split; reflexivity |]).
  contradiction.
Qed.

Section LagFold.
Variable temps hums : list cell.
Variable i : nat.

Let step (r : Row) (lag : nat) : Row :=
  set_derived ("humidity_lag_" ++ fmt_nat lag) (nth i (shift lag hums) None)
    (set_derived ("temp_lag_" ++ fmt_nat lag) (nth i (shift lag temps) None) r).

Lemma lag_fold_columns (lags : list nat) (k : nat) :
  forall r : Row,
    get_col ("temp_lag_" ++ fmt_nat k) (derived (fold_left step lags r))
    = (if existsb (Nat.eqb k) lags
       then Some (nth i (shift k temps) None)
       else get_col ("temp_lag_" ++ fmt_nat k) (derived r))
    /\ get_col ("humidity_lag_" ++ fmt_nat k) (derived (fold_left step lags r))
       = (if existsb (Nat.eqb k) lags
          then Some (nth i (shift k hums) None)
          else get_col ("humidity_lag_" ++ fmt_nat k) (derived r)).
Proof.
  induction lags as [| l lags IH]; intros r; [split; reflexivity |].
  cbn [fold_left existsb]. destruct (IH (step r l)) as [Ht Hh].
  rewrite Ht, Hh. clear Ht Hh IH.
  destruct (existsb (Nat.eqb k) lags); [rewrite orb_true_r; now split |].
  rewrite orb_false_r. unfold step. cbn [derived set_derived].
  destruct (lag_names_apart (fmt_nat l) (fmt_nat k)) as [A1 A2].
  split.
  - rewrite get_set_col_other by exact A1.
    destruct (Nat.eqb_spec k l) as [-> | Hne].
    + apply get_set_col_same.
    + apply get_set_col_other. rewrite temp_lag_name_eqb.
      now apply Nat.eqb_neq.
  - destruct (Nat.eqb_spec k l) as [-> | Hne].
    + apply get_set_col_same.
    + rewrite get_set_col_other
        by (rewrite humidity_lag_name_eqb; now apply Nat.eqb_neq).
      now apply get_set_col_other.
Qed.
End LagFold.

(** X4.  For any list of lags handed to [create_lag_features] and any lag
    [k] of that list, the columns [temp_lag_k] and [humidity_lag_k] at
    position [i] of the sorted series are null when [i < k] and hold the
    temperature and the humidity of position [i - k] when [k <= i]. *)
Theorem lag_feature_any_lags (np : Numeric) (df : DataFrame) (sid : string)
  (lags : list nat) (k i : nat) (r : Row) :
  In k lags ->
  nth_error (create_lag_features np df sid (Some lags)) i = Some r ->
  let series := sort_values (rows_of sid df) in
  get_col ("temp_lag_" ++ fmt_nat k) (derived r)
  = Some (if i <? k then None else nth (i - k) (map temperature series) None)
  /\ get_col ("humidity_lag_" ++ fmt_nat k) (derived r)
     = Some (if i <? k then None else nth (i - k) (map humidity series) None).
Proof.
  intros Hk Hr series.
  rewrite create_lag_features_nth in Hr. fold series in Hr.
  destruct (nth_error series i) as [ri |] eqn:Ei; [| discriminate].
  injection Hr as <-.
  assert (Hi : i < length series) by (apply nth_error_Some; congruence).
  unfold lag_row. cbn [derived set_derived].
  assert (Hroll : forall name,
             In name (rolling_mean_columns ++ rolling_std_columns)%list ->
             String.eqb name ("temp_lag_" ++ fmt_nat k) = false
             /\ String.eqb name ("humidity_lag_" ++ fmt_nat k) = false)
    by (intros name; apply rolling_names_apart).
  assert (Hex : existsb (Nat.eqb k) lags = true).
  { apply existsb_exists. exists k. split; [exact Hk | apply Nat.eqb_refl]. }
  destruct (lag_fold_columns (map temperature series) (map humidity series)
              i lags k ri) as [Ht Hh].
  rewrite Hex in Ht, Hh.
  split.
  - rewrite !get_set_col_other by (apply Hroll; simpl; tauto).
    rewrite Ht. now rewrite nth_shift by now rewrite length_map.
  - rewrite !get_set_col_other by (apply Hroll; simpl; tauto).
    rewrite Hh. now rewrite nth_shift by now rewrite length_map.
Qed.

Lemma lag_feature_any_lags_witness :
  let df := hourly "s1" 12 in
  let r := nth 10 (create_lag_features approx_numeric df "s1" (Some [4; 7; 4]))
               (reading "s1" 0) in
  In 7 [4; 7; 4]
  /\ nth_error (create_lag_features approx_numeric df "s1" (Some [4; 7; 4])) 10
     = Some r
  /\ get_col "temp_lag_7" (derived r) = Some (temperature (reading "s1" 3)).
Proof.
  cbv zeta.
  assert (Hk : In 7 [4; 7; 4]) by (simpl; tauto).
  assert (Hr : nth_error (create_lag_features approx_numeric (hourly "s1" 12)
                            "s1" (Some [4; 7; 4])) 10
               = Some (nth 10 (create_lag_features approx_numeric
                                 (hourly "s1" 12) "s1" (Some [4; 7; 4]))
                           (reading "s1" 0)))
    by (vm_compute; reflexivity).
  split; [exact Hk |]. split; [exact Hr |].
  destruct (lag_feature_any_lags approx_numeric (hourly "s1" 12) "s1"
              [4; 7; 4] 7 10 _ Hk Hr) as [Ht _].
  change ("temp_lag_" ++ fmt_nat 7)%string with "temp_lag_7"%string in Ht.
  rewrite Ht. vm_compute. reflexivity.
Defined.

(** ** The rolling standard deviation is the sample standard deviation *)

Lemma welford_add (N N1 mean ssq S1 S2 x : Q) :
  (0 < N)%Q -> (N1 == N + 1)%Q ->
  (mean * N == S1)%Q -> (ssq * N == N * S2 - S1 * S1)%Q ->
  let mean' := (mean + (x - mean) / N1)%Q in
  let ssq' := (ssq + (x - mean) * (x - mean'))%Q in
  (mean' * N1 == S1 + x)%Q
  /\ (ssq' * N1 == N1 * (S2 + x * x) - (S1 + x) * (S1 + x))%Q.
Proof.
  intros HN H1 Hm Hs mean' ssq'.
  assert (Em : (mean == S1 / N)%Q) by (rewrite <- Hm; field; lra).
  assert (Es : (ssq == S2 - S1 * S1 / N)%Q).
  { assert (E : (ssq == (ssq * N) / N)%Q) by (field; lra).
    rewrite E, Hs. field. lra. }
  subst mean' ssq'. rewrite Es, Em, H1. split; field; lra.
Qed.

Lemma welford_remove (N N1 mean ssq S1 S2 x : Q) :
  (0 < N)%Q -> (N1 == N + 1)%Q ->
  (mean * N1 == S1 + x)%Q ->
  (ssq * N1 == N1 * (S2 + x * x) - (S1 + x) * (S1 + x))%Q ->
  let mean' := (mean - (x - mean) / N)%Q in
  let ssq' := (ssq - (x - mean) * (x - mean'))%Q in
  (mean' * N == S1)%Q /\ (ssq' * N == N * S2 - S1 * S1)%Q.
Proof.
  intros HN H1 Hm Hs mean' ssq'. rewrite H1 in Hm, Hs.
  assert (Em : (mean == (S1 + x) / (N + 1))%Q) by (rewrite <- Hm; field; lra).
  assert (Es : (ssq == (S2 + x * x) - (S1 + x) * (S1 + x) / (N + 1))%Q).
  { assert (E : (ssq == (ssq * (N + 1)) / (N + 1))%Q) by (field; lra).
    rewrite E, Hs. field. lra. }
  subst mean' ssq'. rewrite Es, Em. split; field; lra.
Qed.

Lemma Qnat_S (n : nat) : (Qnat (S n) == Qnat n + 1)%Q.
Proof.
  unfold Qnat. rewrite Nat2Z.inj_succ, <- Z.add_1_r, inject_Z_plus.
  reflexivity.
Qed.

Lemma Qsum_snoc (l : list Q) (x : Q) : (Qsum (l ++ [x]) == Qsum l + x)%Q.
Proof. rewrite Qsum_app. unfold Qsum. simpl. ring. Qed.

Lemma Qsum_cons (l : list Q) (x : Q) : (Qsum (x :: l) == Qsum l + x)%Q.
Proof. unfold Qsum. simpl. ring. Qed.

Lemma add_var_tracks (st : VarState) (l : list cell) (v : cell) :
  var_tracks st l -> var_tracks (add_var v st) (l ++ [v]).
Proof.
  unfold var_tracks. cbv zeta. intros (Hn & Hm & Hs & H0).
  rewrite observed_app.
  destruct v as [x |]; cbn [observed]; [| now rewrite app_nil_r].
  cbn [add_var v_nobs v_mean v_ssqdm].
  rewrite map_app, length_app. cbn [map length].
  rewrite !Qsum_snoc.
  split; [lia |].
  destruct (v_nobs st) as [| n] eqn:En.
  - assert (Hobs : observed l = []) by (apply length_zero_iff_nil; lia).
    rewrite Hobs in *. specialize (H0 eq_refl).
    unfold Qsum. cbn [map fold_right].
    assert (Hmean : (Qred (v_mean st + (x - v_mean st) / Qnat 1) == x)%Q).
    { rewrite Qred_correct. unfold Qnat. simpl. field. }
    split; [| split; [| discriminate]].
    + rewrite Hmean. unfold Qnat. simpl. ring.
    + rewrite Qred_correct, Hmean, H0. unfold sq, Qnat. simpl. ring.
  - assert (HN : (0 < Qnat (S n))%Q) by (apply Qnat_pos; lia).
    destruct (welford_add (Qnat (S n)) (Qnat (S (S n))) (v_mean st)
                (v_ssqdm st) (Qsum (observed l)) (Qsum (map sq (observed l)))
                x HN (Qnat_S (S n)) Hm Hs)
      as [Hm' Hs'].
    split; [| split; [| discriminate]].
    + rewrite Qred_correct. exact Hm'.
    + rewrite !Qred_correct. unfold sq at 2. exact Hs'.
Qed.

Lemma remove_var_tracks (st : VarState) (l : list cell) (v : cell) :
  var_tracks st (v :: l) -> var_tracks (remove_var v st) l.
Proof.
  unfold var_tracks. cbv zeta. intros (Hn & Hm & Hs & H0).
  destruct v as [x |]; cbn [observed] in *; [| now repeat split].
  assert (Hm2 : (v_mean st * Qnat (v_nobs st) == Qsum (observed l) + x)%Q)
    by (rewrite Hm; apply Qsum_cons).
  assert (Hs2 : (v_ssqdm st * Qnat (v_nobs st)
                 == Qnat (v_nobs st) * (Qsum (map sq (observed l)) + x * x)
                    - (Qsum (observed l) + x) * (Qsum (observed l) + x))%Q).
  { rewrite Hs. cbn [map]. rewrite !Qsum_cons. unfold sq at 2. reflexivity. }
  clear Hm Hs. cbn [length] in Hn.
  unfold remove_var. rewrite Hn in *. cbn [pred].
  destruct (length (observed l)) as [| n] eqn:En.
  - apply length_zero_iff_nil in En. rewrite En.
    cbn [v_nobs v_mean v_ssqdm map length]. unfold Qsum, Qnat. simpl.
    repeat split; try reflexivity.
  - cbn [v_nobs v_mean v_ssqdm].
    assert (HN : (0 < Qnat (S n))%Q) by (apply Qnat_pos; lia).
    destruct (welford_remove (Qnat (S n)) (Qnat (S (S n))) (v_mean st)
                (v_ssqdm st) (Qsum (observed l)) (Qsum (map sq (observed l)))
                x HN (Qnat_S (S n)) Hm2 Hs2)
      as [Hm' Hs'].
    split; [reflexivity |]. split; [| split; [| discriminate]].
    + rewrite Qred_correct. exact Hm'.
    + rewrite !Qred_correct. exact Hs'.
Qed.

Lemma roll_var_from_tracks (w minp ddof : nat) (values : list cell) :
  0 < w ->
  forall (todo : list cell) (i : nat) (st : VarState) (j : nat),
    skipn i values = todo -> i + length todo = length values ->
    var_tracks st (skipn (i - w) (firstn i values)) ->
    j < length todo ->
    exists st' : VarState,
      var_tracks st' (window w (i + j) values)
      /\ nth j (roll_var_from w minp ddof values todo i st) None
         = calc_var minp ddof st'.
Proof.
  intros Hw. induction todo as [| v rest IH]; intros i st j Hsk Hlen Hst Hj;
    simpl in Hj; [lia |].
  assert (Hi : i < length values) by (simpl in Hlen; lia).
  assert (Hv : v = nth i values None).
  { rewrite (skipn_cons_nth None) in Hsk by assumption. congruence. }
  destruct (window_step w i values Hw Hi) as [Hout Hin].
  set (st1 := if w <=? i then remove_var (nth (i - w) values None) st else st).
  assert (H1 : var_tracks st1 (skipn (S i - w) (firstn i values))).
  { unfold st1. destruct (w <=? i) eqn:E.
    - apply Nat.leb_le in E. apply remove_var_tracks.
      rewrite <- Hout by assumption. unfold window.
      replace (S (pred i)) with i by lia.
      replace (S (pred i) - w) with (i - w) by lia. exact Hst.
    - apply Nat.leb_gt in E.
      replace (S i - w) with (i - w) by lia. exact Hst. }
  assert (H2 : var_tracks (add_var v st1) (window w i values)).
  { rewrite Hin, <- Hv. now apply add_var_tracks. }
  cbn [roll_var_from]. fold st1.
  destruct j as [| j].
  - rewrite Nat.add_0_r. now exists (add_var v st1).
  - replace (i + S j) with (S i + j) by lia.
    apply IH.
    + rewrite (skipn_cons_nth None) in Hsk by assumption. congruence.
    + simpl in Hlen. lia.
    + exact H2.
    + lia.
Qed.

Lemma squared_deviations (m : Q) (l : list Q) :
  (Qsum (map (fun x => sq (x - m)) l)
   == Qsum (map sq l) - 2 * m * Qsum l + Qnat (length l) * m * m)%Q.
Proof.
  induction l as [| x l IH].
  - unfold Qsum, Qnat. simpl. ring.
  - cbn [map length]. rewrite !Qsum_cons, IH, Qnat_S. unfold sq. ring.
Qed.

Lemma calc_var_tracks (st : VarState) (l : list cell) :
  var_tracks st l ->
  2 <= length (observed l) ->
  calc_var 1 1 st = Some (Qred (sample_variance (observed l))).
Proof.
  unfold var_tracks. cbv zeta. intros (Hn & Hm & Hs & _) H2.
  unfold calc_var. rewrite Hn in *.
  set (obs := observed l) in *.
  destruct (length obs) as [| [| n]] eqn:En; [lia | lia |].
  cbn [Nat.leb Nat.ltb Nat.eqb andb]. f_equal.
  apply Qred_complete. unfold sample_variance. rewrite En.
  assert (HN : (0 < Qnat (S (S n)))%Q) by (apply Qnat_pos; lia).
  assert (HN1 : (0 < Qnat (S (S n) - 1))%Q) by (apply Qnat_pos; lia).
  assert (Es : (v_ssqdm st
                == Qsum (map sq obs) - Qsum obs * Qsum obs / Qnat (S (S n)))%Q).
  { assert (E : (v_ssqdm st == (v_ssqdm st * Qnat (S (S n))) / Qnat (S (S n)))%Q)
      by (field; lra).
    rewrite E, Hs. field. lra. }
  assert (Emean : (Qmean obs == Qsum obs / Qnat (S (S n)))%Q)
    by (unfold Qmean; rewrite Qred_correct, En; reflexivity).
  rewrite (squared_deviations (Qmean obs) obs), En, Emean, Es.
  field. lra.
Qed.

(** The rolling standard deviation at position [i] is the sample standard
    deviation of the readings present in the window that ends at [i]. *)
Lemma roll_std_is_sample_std (np : Numeric) (w : nat) (values : list cell)
  (i : nat) :
  0 < w -> i < length values ->
  nth i (roll_std np w 1 values) None = std_present np (window w i values).
Proof.
  intros Hw Hi. unfold roll_std, roll_var, std_present. cbv zeta.
  destruct (roll_var_from_tracks w 1 1 values Hw values 0 (mkVar 0 0 0) i)
    as (st & Ht & E); auto.
  { unfold var_tracks. cbn. unfold Qsum, Qnat. simpl.
    repeat split; reflexivity. }
  cbn [Nat.add] in Ht.
  change None with (option_map (zsqrt np) None) at 1.
  rewrite map_nth, E.
  destruct (2 <=? length (observed (window w i values))) eqn:E2.
  - apply Nat.leb_le in E2. now rewrite (calc_var_tracks st _ Ht E2).
  - apply Nat.leb_gt in E2. destruct Ht as (Hn & _).
    unfold calc_var. rewrite Hn.
    destruct (length (observed (window w i values))) as [| [| n]];
      [reflexivity | reflexivity | lia].
Qed.

(** X5.  The columns [temp_std_24] and [humidity_std_24] at position [i]
    of a sensor's sorted series hold the sample standard deviation (one
    degree of freedom removed, square root by [zsqrt]) of the readings
    present at positions [i-23..i], and are null when fewer than two are
    present. *)
Theorem rolling_std_is_sample_std (np : Numeric) (df : DataFrame)
  (sid : string) (lags : option (list nat)) (i : nat) (r : Row) :
  nth_error (create_lag_features np df sid lags) i = Some r ->
  let series := sort_values (rows_of sid df) in
  get_col "temp_std_24" (derived r)
  = Some (std_present np (positions (i - 23) i (map temperature series)))
  /\ get_col "humidity_std_24" (derived r)
     = Some (std_present np (positions (i - 23) i (map humidity series))).
Proof.
  intros Hr series.
  rewrite create_lag_features_nth in Hr. fold series in Hr.
  destruct (nth_error series i) as [ri |] eqn:Ei; [| discriminate].
  injection Hr as <-.
  assert (Hi : i < length series) by (apply nth_error_Some; congruence).
  destruct (lag_row_rolling_columns np
              (match lags with None => default_lags | Some l => l end)
              series i ri) as (_ & _ & _ & _ & Ht & Hh).
  rewrite Ht, Hh.
  rewrite !roll_std_is_sample_std by (rewrite ?length_map; lia).
  rewrite !window_positions by now rewrite length_map.
  split; reflexivity.
Qed.

Lemma rolling_std_is_sample_std_witness :
  let df := hourly "s1" 30 in
  let r := nth 2 (create_lag_features approx_numeric df "s1" None)
               (reading "s1" 0) in
  nth_error (create_lag_features approx_numeric df "s1" None) 2 = Some r
  /\ get_col "temp_std_24" (derived r)
     = Some (Some (approx_sqrt (sample_variance [20; 21; 24]%Q))).
Proof.
  cbv zeta.
  assert (Hr : nth_error (create_lag_features approx_numeric (hourly "s1" 30)
                            "s1" None) 2
               = Some (nth 2 (create_lag_features approx_numeric
                                (hourly "s1" 30) "s1" None) (reading "s1" 0)))
    by (vm_compute; reflexivity).
  split; [exact Hr |].
  destruct (rolling_std_is_sample_std approx_numeric (hourly "s1" 30) "s1"
              None 2 _ Hr) as [Ht _].
  rewrite Ht. vm_compute. reflexivity.
Defined.

(** ** The frames that [prepare_features] returns *)

Lemma complete_col_notna (name : string) (c : cell)
  (cols : list (string * cell)) :
  cols_complete cols = true -> get_col name cols = Some c -> notna c = true.
Proof.
  unfold cols_complete.
  induction cols as [| [n v] rest IH]; simpl; intros Hc Hg; [discriminate |].
  apply andb_true_iff in Hc. destruct Hc as [Hv Hr].
  destruct (String.eqb n name); [now injection Hg as <- | now apply IH].
Qed.

Lemma engineered_row_has_features (np : Numeric) (series : DataFrame)
  (i : nat) (raw : Row) :
  Forall (fun name =>
            exists c,
              column_value name
                (lag_row np default_lags series i (temporal_row np raw))
              = Some c)
         define_features.
Proof.
  unfold define_features, lag_row, temporal_row, default_lags.
  repeat constructor;
    unfold column_value; cbn [String.eqb Ascii.eqb Bool.eqb];
    cbn [fold_left derived set_derived];
    read_col; eexists; reflexivity.
Qed.

Lemma in_engineer (np : Numeric) (df : DataFrame) (sid : string) (r : Row) :
  In r (engineer np df sid) ->
  exists (i : nat) (raw : Row),
    In raw (rows_of sid df)
    /\ r = lag_row np default_lags (engineered_series np df sid) i
             (temporal_row np raw).
Proof.
  intros Hin. apply In_nth_error in Hin. destruct Hin as [i Hi].
  rewrite engineer_nth in Hi.
  destruct (nth_error (engineered_series np df sid) i) as [ri |] eqn:Ei;
    [| discriminate].
  injection Hi as <-.
  apply nth_error_In in Ei. unfold engineered_series in Ei.
  apply (Permutation_in _ (Permutation_sym (sort_values_perm _))) in Ei.
  rewrite rows_of_temporal in Ei. unfold create_temporal_features in Ei.
  apply in_map_iff in Ei. destruct Ei as (raw & <- & Hraw).
  exists i, raw. split; [exact Hraw | reflexivity].
Qed.

Lemma in_assembled (np : Numeric) (df : DataFrame) (ids : list string)
  (r : Row) :
  In r (dropna (concat (map (engineer np df) ids))) ->
  complete r /\ exists sid, In sid ids /\ In r (engineer np df sid).
Proof.
  unfold dropna. intros Hin. apply filter_In in Hin.
  destruct Hin as [Hin Hc]. split; [exact Hc |].
  apply in_concat in Hin. destruct Hin as (frame & Hf & Hr).
  apply in_map_iff in Hf. destruct Hf as (sid & <- & Hs).
  exists sid. split; assumption.
Qed.

Lemma prepare_features_frames (np : Numeric) (train_df test_df : DataFrame)
  (msgs : list string) (train_out test_out : DataFrame) :
  prepare_features np train_df test_df = (msgs, inr (train_out, test_out)) ->
  train_out
  = dropna (concat (map (engineer np train_df) (train_sensors train_df)))
  /\ test_out
     = dropna (concat (map (engineer np test_df)
                         (shared_sensors train_df test_df))).
Proof.
  rewrite prepare_features_spec. cbv zeta.
  destruct (pd_concat (map (engineer np train_df) (train_sensors train_df)))
    as [e | tr] eqn:Etr; [discriminate |].
  destruct (pd_concat (map (engineer np test_df)
                         (shared_sensors train_df test_df)))
    as [e | te] eqn:Ete; [discriminate |].
  intros H. injection H as _ <- <-.
  apply pd_concat_ok in Etr, Ete.
  destruct Etr as [-> _]. destruct Ete as [-> _]. now split.
Qed.

Lemma select_row_numbers (names : list string) (r : Row) :
  Forall (fun name => exists q : Q, column_value name r = Some (Some q)) names ->
  exists row : list Q,
    select_row names r = inr (map Some row) /\ length row = length names.
Proof.
  induction 1 as [| name names (q & Hq) _ (row & Hrow & Hlen)].
  - now exists [].
  - exists (q :: row). cbn [select_row map length]. rewrite Hq, Hrow.
    split; [reflexivity | now rewrite Hlen].
Qed.

Lemma select_columns_numbers (names : list string) (df : DataFrame) :
  Forall (fun r =>
            Forall (fun name => exists q : Q,
                        column_value name r = Some (Some q)) names) df ->
  exists X : Matrix,
    select_columns names df = inr (map (map Some) X)
    /\ length X = length df
    /\ Forall (fun row => length row = length names) X.
Proof.
  induction 1 as [| r df Hr _ (X & HX & Hlen & Hrows)].
  - exists []. repeat split. constructor.
  - destruct (select_row_numbers names r Hr) as (row & Hrow & Hl).
    exists (row :: X). cbn [select_columns map length]. rewrite Hrow, HX.
    repeat split; [now rewrite Hlen | now constructor].
Qed.

Lemma assembled_row_features (np : Numeric) (df : DataFrame)
  (ids : list string) (r : Row) :
  In r (dropna (concat (map (engineer np df) ids))) ->
  Forall (fun name => exists q : Q, column_value name r = Some (Some q))
         define_features.
Proof.
  intros Hin. destruct (in_assembled np df ids r Hin) as (Hc & sid & _ & Hr).
  destruct (in_engineer np df sid r Hr) as (i & raw & _ & E).
  pose proof (engineered_row_has_features np (engineered_series np df sid)
                i raw) as Hf.
  rewrite <- E in Hf. apply row_complete_iff in Hc.
  destruct Hc as (_ & Hla & Hlo & Hh & Hte & Hcols).
  eapply Forall_impl; [| exact Hf].
  intros name (c & Hcv). cbv beta.
  assert (Hn : notna c = true).
  { unfold column_value in Hcv.
    repeat match type of Hcv with
           | (if ?b then _ else _) = _ =>
               destruct b; [injection Hcv as <-; assumption |]
           end.
    eapply complete_col_notna; eassumption. }
  destruct c as [q |]; [exists q; exact Hcv | discriminate Hn].
Qed.

(** X6.  In the two frames that [prepare_features] returns, every row has
    every column of the feature list and holds a number in each: selecting
    [feature_columns] raises no [KeyError] and gives a matrix of 30
    numbers per row, one row per row of the frame, without a null. *)
Theorem prepared_frames_have_features (np : Numeric)
  (train_df test_df : DataFrame) (msgs : list string)
  (train_out test_out : DataFrame) :
  prepare_features np train_df test_df = (msgs, inr (train_out, test_out)) ->
  exists X_train X_test : Matrix,
    select_columns define_features train_out = inr (map (map Some) X_train)
    /\ select_columns define_features test_out = inr (map (map Some) X_test)
    /\ length X_train = length train_out /\ length X_test = length test_out
    /\ Forall (fun row => length row = 30) X_train
    /\ Forall (fun row => length row = 30) X_test.
Proof.
  intros Hrun.
  destruct (prepare_features_frames _ _ _ _ _ _ Hrun) as [Etr Ete].
  assert (Htr : Forall (fun r => Forall (fun name => exists q : Q,
                            column_value name r = Some (Some q))
                          define_features) train_out).
  { apply Forall_forall. intros r Hr. rewrite Etr in Hr.
    eapply assembled_row_features, Hr. }
  assert (Hte : Forall (fun r => Forall (fun name => exists q : Q,
                            column_value name r = Some (Some q))
                          define_features) test_out).
  { apply Forall_forall. intros r Hr. rewrite Ete in Hr.
    eapply assembled_row_features, Hr. }
  destruct (select_columns_numbers _ _ Htr) as (X1 & S1 & L1 & R1).
  destruct (select_columns_numbers _ _ Hte) as (X2 & S2 & L2 & R2).
  exists X1, X2. repeat split; assumption.
Qed.

Lemma prepared_frames_have_features_witness :
  let out := run_frames approx_numeric two_sensors (hourly "s1" 26) in
  prepare_features approx_numeric two_sensors (hourly "s1" 26)
  = (fst (prepare_features approx_numeric two_sensors (hourly "s1" 26)),
     inr (fst out, snd out))
  /\ exists X_train X_test : Matrix,
       select_columns define_features (fst out) = inr (map (map Some) X_train)
       /\ select_columns define_features (snd out)
          = inr (map (map Some) X_test)
       /\ length X_train = 9 /\ length X_test = 2.
Proof.
  cbv zeta.
  assert (Hrun : prepare_features approx_numeric two_sensors (hourly "s1" 26)
                 = (fst (prepare_features approx_numeric two_sensors
                           (hourly "s1" 26)),
                    inr (fst (run_frames approx_numeric two_sensors
                                (hourly "s1" 26)),
                         snd (run_frames approx_numeric two_sensors
                                (hourly "s1" 26)))))
    by (vm_compute; reflexivity).
  split; [exact Hrun |].
  destruct (prepared_frames_have_features _ _ _ _ _ _ Hrun)
    as (X1 & X2 & S1 & S2 & L1 & L2 & _).
  exists X1, X2. split; [exact S1 |]. split; [exact S2 |]. split.
  - rewrite L1. vm_compute. reflexivity.
  - rewrite L2. vm_compute. reflexivity.
Defined.

Lemma dropna_concat (frames : list DataFrame) :
  dropna (concat frames) = concat (map dropna frames).
Proof.
  unfold dropna. induction frames as [| f frames IH]; [reflexivity |].
  cbn [concat map]. now rewrite filter_app, IH.
Qed.

Lemma length_assembled (np : Numeric) (df : DataFrame) (ids : list string) :
  Forall complete df ->
  length (dropna (concat (map (engineer np df) ids)))
  = list_sum (map (fun s => length (rows_of s df) - 24) ids).
Proof.
  intros Hc. rewrite dropna_concat, length_concat, !map_map. f_equal.
  apply map_ext. intros s.
  rewrite dropna_engineer, length_skipn, length_engineer; [reflexivity |].
  unfold rows_of. apply Forall_forall. intros r Hr.
  apply filter_In in Hr. rewrite Forall_forall in Hc. now apply Hc.
Qed.

(** X7.  When no raw row of the two tables holds a null, the sizes of the
    frames that [prepare_features] returns are sums over the sensors: each
    sensor of the train table gives its number of train rows less 24 (or
    nothing under 25 rows) to the train frame, and each sensor of both
    tables gives its number of test rows less 24 to the test frame. *)
Theorem assembled_frame_sizes (np : Numeric) (train_df test_df : DataFrame)
  (msgs : list string) (train_out test_out : DataFrame) :
  prepare_features np train_df test_df = (msgs, inr (train_out, test_out)) ->
  Forall complete train_df -> Forall complete test_df ->
  length train_out
  = list_sum (map (fun s => length (rows_of s train_df) - 24)
                (train_sensors train_df))
  /\ length test_out
     = list_sum (map (fun s => length (rows_of s test_df) - 24)
                   (shared_sensors train_df test_df)).
Proof.
  intros Hrun Htr Hte.
  destruct (prepare_features_frames _ _ _ _ _ _ Hrun) as [-> ->].
  split; now apply length_assembled.
Qed.

Lemma assembled_frame_sizes_witness :
  let train_df := (hourly "s1" 30 ++ hourly "s2" 30)%list in
  let out := run_frames approx_numeric train_df train_df in
  Forall complete train_df
  /\ length (fst out) = 2 * (30 - 24)
  /\ length (snd out) = 2 * (30 - 24).
Proof.
  cbv zeta.
  assert (Hc : Forall complete (hourly "s1" 30 ++ hourly "s2" 30)%list)
    by (apply Forall_complete_forallb; vm_compute; reflexivity).
  assert (Hrun : prepare_features approx_numeric
                   (hourly "s1" 30 ++ hourly "s2" 30)%list
                   (hourly "s1" 30 ++ hourly "s2" 30)%list
                 = (fst (prepare_features approx_numeric
                           (hourly "s1" 30 ++ hourly "s2" 30)%list
                           (hourly "s1" 30 ++ hourly "s2" 30)%list),
                    inr (fst (run_frames approx_numeric
                                (hourly "s1" 30 ++ hourly "s2" 30)%list
                                (hourly "s1" 30 ++ hourly "s2" 30)%list),
                         snd (run_frames approx_numeric
                                (hourly "s1" 30 ++ hourly "s2" 30)%list
                                (hourly "s1" 30 ++ hourly "s2" 30)%list))))
    by (vm_compute; reflexivity).
  split; [exact Hc |].
  destruct (assembled_frame_sizes _ _ _ _ _ _ Hrun Hc Hc) as [L1 L2].
  split.
  - rewrite L1. vm_compute. reflexivity.
  - rewrite L2. vm_compute. reflexivity.
Defined.

(** X8.  The test frame takes nothing from the train table but the list
    of its sensors: two runs on the same test table, with train tables
    that name the same sensors in the same order of first appearance,
    return the same test frame, whatever the train readings. *)
Theorem test_frame_ignores_train_readings (np : Numeric)
  (train1 train2 test_df : DataFrame) (msgs1 msgs2 : list string)
  (train_out1 train_out2 test_out1 test_out2 : DataFrame) :
  train_sensors train1 = train_sensors train2 ->
  prepare_features np train1 test_df = (msgs1, inr (train_out1, test_out1)) ->
  prepare_features np train2 test_df = (msgs2, inr (train_out2, test_out2)) ->
  test_out1 = test_out2.
Proof.
  intros Hs H1 H2.
  destruct (prepare_features_frames _ _ _ _ _ _ H1) as [_ ->].
  destruct (prepare_features_frames _ _ _ _ _ _ H2) as [_ ->].
  unfold shared_sensors. now rewrite Hs.
Qed.

Lemma test_frame_ignores_train_readings_witness :
  let train2 := replace_readings "s2" warmer two_sensors in
  let test_df := (hourly "s2" 27 ++ hourly "s1" 26)%list in
  train_sensors two_sensors = train_sensors train2
  /\ fst (run_frames approx_numeric two_sensors test_df)
     <> fst (run_frames approx_numeric train2 test_df)
  /\ snd (run_frames approx_numeric two_sensors test_df)
     = snd (run_frames approx_numeric train2 test_df).
Proof.
  cbv zeta.
  assert (Hs : train_sensors two_sensors
               = train_sensors (replace_readings "s2" warmer two_sensors))
    by (vm_compute; reflexivity).
  split; [exact Hs |]. split; [vm_compute; discriminate |].
  apply (test_frame_ignores_train_readings approx_numeric two_sensors
           (replace_readings "s2" warmer two_sensors)
           (hourly "s2" 27 ++ hourly "s1" 26)%list
           (fst (prepare_features approx_numeric two_sensors
                   (hourly "s2" 27 ++ hourly "s1" 26)%list))
           (fst (prepare_features approx_numeric
                   (replace_readings "s2" warmer two_sensors)
                   (hourly "s2" 27 ++ hourly "s1" 26)%list))
           (fst (run_frames approx_numeric two_sensors
                   (hourly "s2" 27 ++ hourly "s1" 26)%list))
           (fst (run_frames approx_numeric
                   (replace_readings "s2" warmer two_sensors)
                   (hourly "s2" 27 ++ hourly "s1" 26)%list))
           _ _ Hs);
    vm_compute; reflexivity.
Defined.

(** ** [train] and [predict] *)

(** A matrix with at least one row, all rows as long as the first. *)
Lemma scaler_fit_width (np : Numeric) (X : Matrix) (sc : StandardScaler) :
  scaler_fit np X = inr sc ->
  length (mean_ sc) = length (hd [] X)
  /\ length (scale_ sc) = length (hd [] X).
Proof.
  destruct X as [| row X]; [discriminate |].
  cbn [scaler_fit hd]. intros H. injection H as <-.
  cbn [mean_ scale_]. now rewrite !length_map, length_seq.
Qed.

Lemma scaler_transform_ok (sc : StandardScaler) (X : Matrix) :
  X <> [] -> Forall (fun row => length row = length (mean_ sc)) X ->
  scaler_transform sc X = inr (map (scale_row (mean_ sc) (scale_ sc)) X).
Proof.
  intros Hne Hw. destruct X as [| r X]; [congruence |].
  unfold scaler_transform.
  assert (E : forallb (fun row => length row =? length (mean_ sc)) (r :: X)
              = true).
  { apply forallb_forall. rewrite Forall_forall in Hw.
    intros row Hrow. apply Nat.eqb_eq. now apply Hw. }
  now rewrite E.
Qed.

Lemma scaler_transform_width (sc : StandardScaler) (X Xs : Matrix) :
  scaler_transform sc X = inr Xs ->
  X <> [] /\ Forall (fun row => length row = length (mean_ sc)) X
  /\ Xs = map (scale_row (mean_ sc) (scale_ sc)) X.
Proof.
  destruct X as [| r X]; [discriminate |]. unfold scaler_transform.
  destruct (forallb (fun row => length row =? length (mean_ sc)) (r :: X))
    eqn:E; [| discriminate].
  intros H. injection H as <-. split; [discriminate |]. split; [| reflexivity].
  apply Forall_forall. intros row Hrow. rewrite forallb_forall in E.
  now apply Nat.eqb_eq, E.
Qed.

Lemma train_spec (Forest : Type)
  (forest_fit : Matrix -> list Q -> Forest) (np : Numeric)
  (self fitted : Predictor Forest) (X_train : Matrix) (y_train : list Q) :
  train forest_fit np self X_train y_train = inr fitted ->
  exists (sc : StandardScaler) (X_scaled : Matrix),
    scaler_fit np X_train = inr sc
    /\ scaler fitted = Some sc
    /\ X_scaled = map (scale_row (mean_ sc) (scale_ sc)) X_train
    /\ model fitted = Some (forest_fit X_scaled y_train)
    /\ feature_columns fitted = feature_columns self
    /\ scaler_transform sc X_train = inr X_scaled.
Proof.
  unfold train.
  destruct (scaler_fit np X_train) as [e | sc] eqn:Efit; [discriminate |].
  destruct (scaler_transform sc X_train) as [e | Xs] eqn:Etr; [discriminate |].
  destruct (length X_train =? length y_train); [| discriminate].
  intros H. injection H as <-.
  destruct (scaler_transform_width sc X_train Xs Etr) as (Hne & Hw & ->).
  exists sc, (map (scale_row (mean_ sc) (scale_ sc)) X_train).
  repeat (split; [reflexivity |]). exact Etr.
Qed.

(** X9.  After a [train] that returns, [predict] on the training frame
    returns what the forest predicts on the very matrix it was fitted on:
    the scaler is the one [train] fitted, applied again and not refitted.
    Whenever [predict] returns on another matrix, that matrix has at least
    one row and the width of the training matrix, and the result is the
    forest's prediction on it scaled by that same scaler. *)
Theorem train_then_predict (Forest : Type)
  (forest_fit : Matrix -> list Q -> Forest)
  (forest_predict : Forest -> Matrix -> list Q) (np : Numeric)
  (self fitted : Predictor Forest) (X_train : Matrix) (y_train : list Q) :
  train forest_fit np self X_train y_train = inr fitted ->
  exists (sc : StandardScaler) (X_scaled : Matrix),
    scaler_fit np X_train = inr sc
    /\ scaler fitted = Some sc
    /\ X_scaled = map (scale_row (mean_ sc) (scale_ sc)) X_train
    /\ model fitted = Some (forest_fit X_scaled y_train)
    /\ feature_columns fitted = feature_columns self
    /\ predict forest_predict fitted X_train
       = inr (forest_predict (forest_fit X_scaled y_train) X_scaled)
    /\ (forall (X_test : Matrix) (y_pred : list Q),
           predict forest_predict fitted X_test = inr y_pred ->
           X_test <> []
           /\ Forall (fun row => length row = length (hd [] X_train)) X_test
           /\ y_pred
              = forest_predict (forest_fit X_scaled y_train)
                  (map (scale_row (mean_ sc) (scale_ sc)) X_test)).
Proof.
  intros Htrain.
  destruct (train_spec Forest forest_fit np self fitted X_train y_train Htrain)
    as (sc & Xs & Efit & Hsc & EXs & Hm & Hfc & Etr).
  destruct (scaler_fit_width np X_train sc Efit) as [Wm _].
  exists sc, Xs.
  split; [exact Efit |]. split; [exact Hsc |]. split; [exact EXs |].
  split; [exact Hm |]. split; [exact Hfc |]. split.
  - unfold predict. rewrite Hsc, Hm, Etr. reflexivity.
  - intros X_test y_pred. unfold predict. rewrite Hsc, Hm.
    destruct (scaler_transform sc X_test) as [e | Xt] eqn:Et; [discriminate |].
    intros H. injection H as <-.
    destruct (scaler_transform_width sc X_test Xt Et) as (Hne & Hw & ->).
    split; [exact Hne |]. split; [| reflexivity].
    rewrite <- Wm. exact Hw.
Qed.

Lemma train_then_predict_witness :
  exists (fitted : Predictor Q) (y_pred : list Q),
    train mean_forest_fit approx_numeric init small_X small_y = inr fitted
    /\ predict mean_forest_predict fitted small_X = inr y_pred
    /\ y_pred = [20; 20; 20]%Q.
Proof.
  destruct (train mean_forest_fit approx_numeric init small_X small_y)
    as [e | fitted] eqn:E; [vm_compute in E; discriminate |].
  destruct (train_then_predict Q mean_forest_fit mean_forest_predict
              approx_numeric init fitted small_X small_y E)
    as (sc & Xs & _ & _ & -> & _ & _ & Hp & _).
  exists fitted. eexists. split; [reflexivity |]. split; [exact Hp |].
  vm_compute. reflexivity.
Defined.

(** X10.  [predict] raises [NotFittedError] on a predictor that was never
    trained, whatever the matrix; on a trained one it raises [ValueError]
    for a matrix without rows and for a matrix with a row of another
    width than the training matrix. *)
Theorem predict_rejects (Forest : Type)
  (forest_fit : Matrix -> list Q -> Forest)
  (forest_predict : Forest -> Matrix -> list Q) (np : Numeric)
  (self fitted : Predictor Forest) (X_train : Matrix) (y_train : list Q) :
  train forest_fit np self X_train y_train = inr fitted ->
  (forall X, predict forest_predict init X = inl NotFittedError)
  /\ predict forest_predict fitted []
     = inl (ValueError "Found array with 0 sample(s)")
  /\ (forall X_test : Matrix,
         X_test <> [] ->
         Exists (fun row => length row <> length (hd [] X_train)) X_test ->
         predict forest_predict fitted X_test
         = inl (ValueError "X has a different number of features")).
Proof.
  intros Htrain.
  destruct (train_spec Forest forest_fit np self fitted X_train y_train Htrain)
    as (sc & Xs & Efit & Hsc & _ & Hm & _).
  destruct (scaler_fit_width np X_train sc Efit) as [Wm _].
  split; [reflexivity |]. split.
  - unfold predict. now rewrite Hsc, Hm.
  - intros X_test Hne Hex. unfold predict. rewrite Hsc, Hm.
    destruct X_test as [| r X]; [congruence |].
    unfold scaler_transform.
    destruct (forallb (fun row => length row =? length (mean_ sc)) (r :: X))
      eqn:E; [| reflexivity].
    exfalso. apply Exists_exists in Hex. destruct Hex as (row & Hin & Hlen).
    rewrite forallb_forall in E. apply E, Nat.eqb_eq in Hin.
    rewrite Wm in Hin. contradiction.
Qed.

Lemma predict_rejects_witness :
  exists fitted : Predictor Q,
    train mean_forest_fit approx_numeric init small_X small_y = inr fitted
    /\ predict mean_forest_predict fitted [[1; 2; 3]]%Q
       = inl (ValueError "X has a different number of features")
    /\ predict mean_forest_predict fitted []
       = inl (ValueError "Found array with 0 sample(s)").
Proof.
  destruct (train mean_forest_fit approx_numeric init small_X small_y)
    as [e | fitted] eqn:E; [vm_compute in E; discriminate |].
  destruct (predict_rejects Q mean_forest_fit mean_forest_predict
              approx_numeric init fitted small_X small_y E)
    as (_ & Hempty & Hwidth).
  exists fitted. split; [reflexivity |]. split; [| exact Hempty].
  apply Hwidth; [discriminate |].
  constructor. simpl. lia.
Defined.

(** ** [evaluate] *)

Lemma Qred_zero (x : Q) : (x == 0)%Q -> Qred x = 0%Q.
Proof. intros H. now rewrite (Qred_complete x 0 H). Qed.

Lemma Qmean_zero (l : list Q) : (Qsum l == 0)%Q -> Qmean l = 0%Q.
Proof.
  intros H. unfold Qmean. apply Qred_zero. rewrite H.
  unfold Qdiv. ring.
Qed.

Lemma Qsum_abs_zero (l : list Q) :
  Forall (fun d => d == 0)%Q l -> (Qsum (map Qabs l) == 0)%Q.
Proof.
  intros H. apply Qsum_all_zero, Forall_map.
  eapply Forall_impl; [| exact H]. intros d Hd. cbv beta.
  rewrite Hd. reflexivity.
Qed.

(** X11.  On a prediction that equals the target entry by entry, with two
    entries or more, [evaluate] returns MAE 0, the root of a mean squared
    error 0, and R2 1. *)
Theorem evaluate_perfect_prediction (np : Numeric) (y_true y_pred : list Q) :
  length y_true = length y_pred -> 2 <= length y_true ->
  perfect y_true y_pred ->
  evaluate np y_true y_pred
  = inr (mkMetrics (Some 0%Q) (Some (np_sqrt np 0)) (Some 1%Q)).
Proof.
  intros Hlen H2 Hp. unfold evaluate, check_targets.
  rewrite <- Hlen, Nat.eqb_refl. cbn [negb].
  destruct (length y_true =? 0) eqn:E0; [apply Nat.eqb_eq in E0; lia |].
  unfold mean_absolute_error, mean_squared_error.
  pose proof (proj2 (Qsum_sq_zero _) Hp) as Hnum.
  rewrite (Qmean_zero _ (Qsum_abs_zero _ Hp)), (Qmean_zero _ Hnum).
  unfold r2_score. rewrite <- Hlen.
  destruct (length y_true <? 2) eqn:E2; [apply Nat.ltb_lt in E2; lia |].
  cbv zeta. apply Qeq_bool_iff in Hnum as Hb. rewrite Hb. cbn [negb].
  rewrite andb_false_r. reflexivity.
Qed.

Lemma evaluate_perfect_prediction_witness :
  length [3; 5; 8]%Q = length [3; 5; 8]%Q
  /\ 2 <= length [3; 5; 8]%Q
  /\ perfect [3; 5; 8]%Q [3; 5; 8]%Q
  /\ evaluate approx_numeric [3; 5; 8]%Q [3; 5; 8]%Q
     = inr (mkMetrics (Some 0%Q) (Some (approx_sqrt 0)) (Some 1%Q)).
Proof.
  assert (Hp : perfect [3; 5; 8]%Q [3; 5; 8]%Q)
    by (unfold perfect; simpl; repeat constructor).
  assert (H2 : 2 <= length [3; 5; 8]%Q) by (simpl; lia).
  split; [reflexivity |]. split; [exact H2 |]. split; [exact Hp |].
  rewrite (evaluate_perfect_prediction approx_numeric _ _ eq_refl H2 Hp).
  reflexivity.
Defined.

Lemma Qsum_abs_nonneg (l : list Q) : (0 <= Qsum (map Qabs l))%Q.
Proof.
  induction l as [| x l IH]; unfold Qsum in *; simpl; [lra |].
  pose proof (Qabs_nonneg x). lra.
Qed.

(** X12.  [evaluate] raises exactly when the two vectors differ in length
    or are empty.  When it returns, the MAE is not negative, the RMSE is
    the root of a mean squared error that is not negative, and the R2
    entry, when it is a number, is at most 1. *)
Theorem evaluate_bounds (np : Numeric) (y_true y_pred : list Q) :
  (length y_true <> length y_pred \/ y_true = [] ->
   exists e, evaluate np y_true y_pred = inl e)
  /\ (length y_true = length y_pred -> y_true <> [] ->
      exists (a s : Q) (score : cell),
        evaluate np y_true y_pred
        = inr (mkMetrics (Some a) (Some (np_sqrt np s)) score)
        /\ (0 <= a)%Q /\ (0 <= s)%Q
        /\ (forall q, score = Some q -> (q <= 1)%Q)).
Proof.
  split.
  - intros H. unfold evaluate, check_targets.
    destruct (length y_true =? length y_pred) eqn:E; cbn [negb];
      [| eexists; reflexivity].
    destruct H as [H | ->]; [apply Nat.eqb_eq in E; contradiction |].
    eexists. reflexivity.
  - intros Hlen Hne. unfold evaluate, check_targets.
    rewrite <- Hlen, Nat.eqb_refl. cbn [negb].
    destruct (length y_true =? 0) eqn:E0.
    { apply Nat.eqb_eq, length_zero_iff_nil in E0. contradiction. }
    assert (Hres : residuals y_true y_pred <> []).
    { destruct y_true, y_pred; simpl in *; congruence. }
    assert (HN : forall f : Q -> Q,
               (0 < Qnat (length (map f (residuals y_true y_pred))))%Q).
    { intros f. apply Qnat_pos. rewrite length_map.
      destruct (residuals y_true y_pred); [congruence | simpl; lia]. }
    exists (mean_absolute_error y_true y_pred),
           (mean_squared_error y_true y_pred),
           (r2_score np y_true y_pred).
    split; [reflexivity |]. split; [| split].
    + unfold mean_absolute_error, Qmean. rewrite Qred_correct.
      apply Qle_shift_div_l; [apply HN |].
      rewrite Qmult_0_l. apply Qsum_abs_nonneg.
    + unfold mean_squared_error, Qmean. rewrite Qred_correct.
      apply Qle_shift_div_l; [apply HN |].
      rewrite Qmult_0_l. apply Qsum_sq_nonneg.
    + intros q. unfold r2_score.
      destruct (length y_pred <? 2); [discriminate |]. cbv zeta.
      set (den := Qsum (map (fun y => sq (y - np_average np y_true)) y_true)).
      set (num := Qsum (map sq (residuals y_true y_pred))).
      destruct (Qeq_bool den 0) eqn:Ed; cbn [negb andb].
      * destruct (Qeq_bool num 0); cbn [negb andb]; intros H;
          injection H as <-; lra.
      * destruct (Qeq_bool num 0); cbn [negb andb]; intros H;
          injection H as <-; [lra |].
        rewrite Qred_correct.
        assert (Hden : (0 < den)%Q).
        { pose proof (squares_about_nonneg (np_average np y_true) y_true)
            as Hge. fold den in Hge.
          apply Qeq_bool_neq in Ed. lra. }
        assert (Hnum : (0 <= num)%Q) by apply Qsum_sq_nonneg.
        assert (Hq : (0 <= num / den)%Q).
        { apply Qle_shift_div_l; [exact Hden | lra]. }
        lra.
Qed.

(** ** [get_feature_importance] *)

Lemma insert_desc_perm (p : string * Q) (l : list (string * Q)) :
  Permutation (p :: l) (insert_desc p l).
Proof.
  induction l as [| h t IH]; simpl; auto.
  destruct (Qle_bool (snd h) (snd p)); auto.
  rewrite perm_swap. now constructor.
Qed.

Lemma sort_desc_perm (l : list (string * Q)) : Permutation l (sort_desc l).
Proof.
  induction l as [| p l IH]; simpl; auto.
  rewrite <- insert_desc_perm. now constructor.
Qed.

Lemma insert_desc_sorted (p : string * Q) (l : list (string * Q)) :
  StronglySorted importance_ge l ->
  StronglySorted importance_ge (insert_desc p l).
Proof.
  induction 1 as [| h t Hs IH Hall]; simpl.
  - repeat constructor.
  - destruct (Qle_bool (snd h) (snd p)) eqn:E.
    + apply Qle_bool_iff in E. constructor; [now constructor |].
      constructor; [exact E |].
      eapply Forall_impl; [| exact Hall].
      unfold importance_ge. intros q Hq. now apply Qle_trans with (snd h).
    + constructor; [exact IH |].
      apply (Permutation_Forall (insert_desc_perm p t)).
      constructor; [| exact Hall].
      unfold importance_ge. apply Qlt_le_weak, Qnot_le_lt.
      intros H. apply Qle_bool_iff in H. congruence.
Qed.

Lemma sort_desc_sorted (l : list (string * Q)) :
  StronglySorted importance_ge (sort_desc l).
Proof.
  induction l; simpl; [constructor | now apply insert_desc_sorted].
Qed.

Lemma StronglySorted_app_inv {A : Type} (R : A -> A -> Prop) (a b : list A) :
  StronglySorted R (a ++ b) ->
  StronglySorted R a
  /\ (forall x y, In x a -> In y b -> R x y).
Proof.
  induction a as [| h a IH]; simpl; intros H.
  - split; [constructor | contradiction].
  - inversion H as [| ? ? Hs Hall]; subst.
    destruct (IH Hs) as [Sa Hab]. split.
    + constructor; [exact Sa |].
      rewrite Forall_app in Hall. tauto.
    + intros x y [<- | Hx] Hy; [| now apply Hab].
      rewrite Forall_forall in Hall. apply Hall, in_or_app. now right.
Qed.

(** X13.  On a fitted predictor that holds its feature names,
    [get_feature_importance top_n] fails when the forest has another
    number of importances than there are names; otherwise it returns
    [min top_n n] pairs of a name and the importance at the same position,
    largest importance first, and none of the pairs it leaves out has a
    larger importance than one it returns.  On a predictor without a
    fitted forest it raises whatever the rest. *)
Theorem feature_importance_top (Forest : Type)
  (feature_importances : Forest -> list Q) (self : Predictor Forest)
  (forest : Forest) (columns : list string) (top_n : nat) :
  model self = Some forest -> feature_columns self = Some columns ->
  let importances := feature_importances forest in
  (length columns <> length importances ->
   get_feature_importance feature_importances self top_n
   = inl ImportanceLengths)
  /\ (length columns = length importances ->
      exists top rest : list (string * Q),
        get_feature_importance feature_importances self top_n = inr top
        /\ length top = Nat.min top_n (length columns)
        /\ StronglySorted importance_ge top
        /\ Permutation (top ++ rest) (combine columns importances)
        /\ (forall p q, In p top -> In q rest -> (snd q <= snd p)%Q))
  /\ (forall unfit : Predictor Forest,
         model unfit = None ->
         get_feature_importance feature_importances unfit top_n
         = inl ImportanceNotFitted).
Proof.
  intros Hm Hc importances.
  split; [| split].
  - intros Hne. unfold get_feature_importance. rewrite Hm, Hc.
    fold importances.
    destruct (length columns =? length importances) eqn:E; [| reflexivity].
    apply Nat.eqb_eq in E. contradiction.
  - intros Hlen. unfold get_feature_importance. rewrite Hm, Hc.
    fold importances. rewrite Hlen, Nat.eqb_refl.
    set (sorted := sort_desc (combine columns importances)).
    exists (firstn top_n sorted), (skipn top_n sorted).
    pose proof (sort_desc_sorted (combine columns importances)) as Hs.
    fold sorted in Hs. rewrite <- (firstn_skipn top_n sorted) in Hs.
    destruct (StronglySorted_app_inv _ _ _ Hs) as [Stop Hsplit].
    split; [reflexivity |]. split; [| split; [exact Stop | split]].
    + rewrite length_firstn. unfold sorted.
      rewrite <- (Permutation_length (sort_desc_perm _)), length_combine.
      rewrite Hlen. lia.
    + rewrite firstn_skipn. symmetry. apply sort_desc_perm.
    + intros p q Hp Hq. exact (Hsplit p q Hp Hq).
  - intros unfit Hu. unfold get_feature_importance. now rewrite Hu.
Qed.

Lemma feature_importance_top_witness :
  let self := mkPredictor (Forest := list Q) None (Some [1 # 10; 6 # 10; 3 # 10]%Q)
                (Some ["latitude"; "hour"; "temp_lag_1"]%string) in
  get_feature_importance (fun forest => forest) self 2
  = inr [("hour"%string, (6 # 10)%Q); ("temp_lag_1"%string, (3 # 10)%Q)]
  /\ get_feature_importance (fun forest : list Q => forest) init 2
     = inl ImportanceNotFitted.
Proof.
  cbv zeta. split.
  - destruct (feature_importance_top (list Q) (fun forest => forest)
                (mkPredictor None (Some [1 # 10; 6 # 10; 3 # 10]%Q)
                   (Some ["latitude"; "hour"; "temp_lag_1"]%string))
                [1 # 10; 6 # 10; 3 # 10]%Q
                ["latitude"; "hour"; "temp_lag_1"]%string 2 eq_refl eq_refl)
      as (_ & Hok & _).
    destruct (Hok eq_refl) as (top & rest & Hrun & _).
    vm_compute. reflexivity.
  - apply (feature_importance_top (list Q) (fun forest => forest)
             (mkPredictor None (Some [1 # 10; 6 # 10; 3 # 10]%Q)
                (Some ["latitude"; "hour"; "temp_lag_1"]%string))
             [1 # 10; 6 # 10; 3 # 10]%Q
             ["latitude"; "hour"; "temp_lag_1"]%string 2 eq_refl eq_refl).
    reflexivity.
Defined.

(** ** Order of the rows in the assembled frames *)

Lemma ts_leb_trans (a b c : option Z) :
  ts_leb a b = true -> ts_leb b c = true -> ts_leb a c = true.
Proof.
  destruct a, b, c; simpl; intros H1 H2; try reflexivity; try discriminate.
  apply Z.leb_le in H1, H2. apply Z.leb_le. lia.
Qed.

Lemma ts_ascending_strongly (l : list (option Z)) :
  LocallySorted ts_ascending l -> StronglySorted ts_ascending l.
Proof.
  intros H. apply Sorted_StronglySorted.
  - intros a b c. apply ts_leb_trans.
  - now apply Sorted_LocallySorted_iff.
Qed.

Lemma StronglySorted_map_inv {A B : Type} (R : B -> B -> Prop) (f : A -> B)
  (l : list A) :
  StronglySorted R (map f l) -> StronglySorted (fun a b => R (f a) (f b)) l.
Proof.
  induction l as [| a l IH]; simpl; intros H; [constructor |].
  inversion H as [| ? ? Hs Hall]; subst.
  constructor; [now apply IH |].
  rewrite Forall_map in Hall. exact Hall.
Qed.

Lemma StronglySorted_filter {A : Type} (R : A -> A -> Prop) (f : A -> bool)
  (l : list A) :
  StronglySorted R l -> StronglySorted R (filter f l).
Proof.
  induction 1 as [| a l Hs IH Hall]; simpl; [constructor |].
  destruct (f a); [| exact IH].
  constructor; [exact IH |].
  apply Forall_forall. intros x Hx. apply filter_In in Hx.
  rewrite Forall_forall in Hall. now apply Hall.
Qed.

(** X14.  The frames that [prepare_features] returns are grouped by
    sensor: the train frame is the blocks of the train table's sensors,
    one after the other in order of first appearance, and the test frame
    the blocks of the sensors of both tables, in the same order.  A block
    holds rows of its sensor only, in ascending order of timestamp. *)
Theorem assembled_frames_grouped (np : Numeric) (train_df test_df : DataFrame)
  (msgs : list string) (train_out test_out : DataFrame) :
  prepare_features np train_df test_df = (msgs, inr (train_out, test_out)) ->
  train_out = concat (map (sensor_block np train_df) (train_sensors train_df))
  /\ test_out
     = concat (map (sensor_block np test_df)
                 (shared_sensors train_df test_df))
  /\ forall (df : DataFrame) (sid : string),
       Forall (fun r => sensor_id r = sid) (sensor_block np df sid)
       /\ StronglySorted ts_le (sensor_block np df sid).
Proof.
  intros Hrun.
  destruct (prepare_features_frames _ _ _ _ _ _ Hrun) as [-> ->].
  rewrite !dropna_concat, !map_map. unfold sensor_block.
  split; [reflexivity |]. split; [reflexivity |].
  intros df sid. unfold dropna. split.
  - pose proof (engineer_sensor np df sid) as Hs.
    rewrite Forall_forall in Hs.
    apply Forall_forall. intros r Hr. apply filter_In in Hr.
    destruct Hr as [Hr _]. exact (Hs r Hr).
  - apply StronglySorted_filter.
    apply (StronglySorted_map_inv ts_ascending timestamp).
    apply ts_ascending_strongly.
    unfold engineer.
    rewrite (map_field_create_lag_features timestamp) by reflexivity.
    apply sorted_timestamps, sort_values_sorted.
Qed.

Lemma assembled_frames_grouped_witness :
  let train_df := (hourly "s2" 26 ++ hourly "s1" 27)%list in
  let out := run_frames approx_numeric train_df train_df in
  prepare_features approx_numeric train_df train_df
  = (fst (prepare_features approx_numeric train_df train_df),
     inr (fst out, snd out))
  /\ map sensor_id (fst out) = ["s2"; "s2"; "s1"; "s1"; "s1"]%string
  /\ fst out
     = (sensor_block approx_numeric train_df "s2"
        ++ sensor_block approx_numeric train_df "s1")%list.
Proof.
  cbv zeta.
  assert (Hrun : prepare_features approx_numeric
                   (hourly "s2" 26 ++ hourly "s1" 27)%list
                   (hourly "s2" 26 ++ hourly "s1" 27)%list
                 = (fst (prepare_features approx_numeric
                           (hourly "s2" 26 ++ hourly "s1" 27)%list
                           (hourly "s2" 26 ++ hourly "s1" 27)%list),
                    inr (fst (run_frames approx_numeric
                                (hourly "s2" 26 ++ hourly "s1" 27)%list
                                (hourly "s2" 26 ++ hourly "s1" 27)%list),
                         snd (run_frames approx_numeric
                                (hourly "s2" 26 ++ hourly "s1" 27)%list
                                (hourly "s2" 26 ++ hourly "s1" 27)%list))))
    by (vm_compute; reflexivity).
  split; [exact Hrun |]. split; [vm_compute; reflexivity |].
  destruct (assembled_frames_grouped _ _ _ _ _ _ Hrun) as (Htr & _ & _).
  rewrite Htr.
  replace (train_sensors (hourly "s2" 26 ++ hourly "s1" 27)%list)
    with ["s2"; "s1"]%string by (vm_compute; reflexivity).
  cbn [map concat]. rewrite app_nil_r. reflexivity.
Defined.

(** ** Which rows the null-row drop keeps *)

Lemma insert_row_map (f : Row -> Row) (r : Row) (l : DataFrame) :
  (forall x, timestamp (f x) = timestamp x) ->
  insert_row (f r) (map f l) = map f (insert_row r l).
Proof.
  intros Hf. induction l as [| h t IH]; [reflexivity |].
  cbn [map insert_row]. rewrite !Hf.
  destruct (ts_leb (timestamp r) (timestamp h)); [reflexivity |].
  cbn [map]. now rewrite IH.
Qed.

Lemma sort_values_map (f : Row -> Row) (l : DataFrame) :
  (forall x, timestamp (f x) = timestamp x) ->
  sort_values (map f l) = map f (sort_values l).
Proof.
  intros Hf. induction l as [| r l IH]; [reflexivity |].
  cbn [map sort_values]. now rewrite IH, insert_row_map.
Qed.

Lemma engineered_series_map (np : Numeric) (df : DataFrame) (sid : string) :
  engineered_series np df sid
  = map (temporal_row np) (sort_values (rows_of sid df)).
Proof.
  unfold engineered_series. rewrite rows_of_temporal.
  unfold create_temporal_features. apply sort_values_map.
  intros x. apply temporal_row_same_reading.
Qed.

Lemma engineered_series_columns (np : Numeric) (df : DataFrame)
  (sid : string) :
  map temperature (engineered_series np df sid)
  = map temperature (sort_values (rows_of sid df))
  /\ map humidity (engineered_series np df sid)
     = map humidity (sort_values (rows_of sid df)).
Proof.
  rewrite engineered_series_map, !map_map. split; apply map_ext; intros r;
    destruct (temporal_row_same_reading np r) as (_ & _ & _ & _ & Hh & Ht);
    assumption.
Qed.

Lemma observed_window_last (w i : nat) (col : list cell) :
  0 < w -> i < length col -> notna (nth i col None) = true ->
  1 <= length (observed (window w i col)).
Proof.
  intros Hw Hi Hn. destruct (window_step w i col Hw Hi) as [_ ->].
  rewrite observed_app, length_app.
  destruct (nth i col None); [simpl; lia | discriminate].
Qed.

Lemma observed_window_last_two (w i : nat) (col : list cell) :
  1 < w -> 1 <= i -> i < length col ->
  notna (nth i col None) = true -> notna (nth (i - 1) col None) = true ->
  2 <= length (observed (window w i col)).
Proof.
  intros Hw H1 Hi Hn Hp.
  destruct (window_step w i col ltac:(lia) Hi) as [_ ->].
  replace i with (S (i - 1)) at 2 by lia.
  rewrite (firstn_snoc None) by lia.
  rewrite skipn_app.
  replace (S i - w - length (firstn (i - 1) col)) with 0
    by (rewrite length_firstn; lia).
  cbn [skipn]. rewrite !observed_app, !length_app.
  destruct (nth i col None); [| discriminate].
  destruct (nth (i - 1) col None); [| discriminate].
  simpl. lia.
Qed.

Lemma roll_mean_defined_at (w : nat) (col : list cell) (i : nat) :
  0 < w -> i < length col -> notna (nth i col None) = true ->
  notna (nth i (roll_mean w 1 col) None) = true.
Proof.
  intros Hw Hi Hn. rewrite roll_mean_min_one by assumption.
  pose proof (observed_window_last w i col Hw Hi Hn) as Hl.
  unfold mean_present.
  destruct (observed (window w i col)); [| reflexivity].
  cbn [length] in Hl. lia.
Qed.

Lemma roll_std_defined_at (np : Numeric) (w : nat) (col : list cell)
  (i : nat) :
  1 < w -> 1 <= i -> i < length col ->
  notna (nth i col None) = true -> notna (nth (i - 1) col None) = true ->
  notna (nth i (roll_std np w 1 col) None) = true.
Proof.
  intros Hw H1 Hi Hn Hp.
  rewrite roll_std_is_sample_std by lia.
  pose proof (observed_window_last_two w i col Hw H1 Hi Hn Hp) as Hl.
  unfold std_present. cbv zeta.
  apply Nat.leb_le in Hl. now rewrite Hl.
Qed.

Lemma shift_notna (col : list cell) (i k : nat) :
  i < length col ->
  notna (nth i (shift k col) None) = true
  <-> k <= i /\ notna (nth (i - k) col None) = true.
Proof.
  intros Hi. rewrite nth_shift by assumption.
  destruct (i <? k) eqn:E.
  - apply Nat.ltb_lt in E. split; [discriminate | lia].
  - apply Nat.ltb_ge in E. tauto.
Qed.

(** X15.  For tables as loaded (six columns), the row at position [i] of a
    sensor's sorted series survives the null-row drop exactly when
    [24 <= i], its own timestamp, latitude, longitude, humidity and
    temperature are present, and the temperature and the humidity are
    present at each of the positions [i-1], [i-2], [i-3], [i-6], [i-12]
    and [i-24]: a missing temperature or humidity removes its own row and
    the six rows whose lags reach it, and no other. *)
Theorem dropna_keeps_exactly (np : Numeric) (df : DataFrame) (sid : string)
  (i : nat) (r : Row) :
  as_loaded df ->
  nth_error (engineer np df sid) i = Some r ->
  let series := sort_values (rows_of sid df) in
  row_complete r = true
  <-> 24 <= i
      /\ (exists raw, nth_error series i = Some raw /\ readings_complete raw)
      /\ (forall k, In k default_lags ->
            notna (nth (i - k) (map temperature series) None) = true
            /\ notna (nth (i - k) (map humidity series) None) = true).
Proof.
  intros Hload Hr series.
  rewrite engineer_nth in Hr.
  destruct (engineered_series_columns np df sid) as [Ct Ch].
  fold series in Ct, Ch.
  assert (En : nth_error (engineered_series np df sid) i
               = option_map (temporal_row np) (nth_error series i))
    by (rewrite engineered_series_map; apply nth_error_map).
  rewrite En in Hr. clear En.
  destruct (nth_error series i) as [raw |] eqn:Ei; [| discriminate].
  cbn [option_map] in Hr. injection Hr as <-.
  set (eseries := engineered_series np df sid) in *.
  assert (Hi : i < length series) by (apply nth_error_Some; congruence).
  assert (Lt : i < length (map temperature series)) by now rewrite length_map.
  assert (Lh : i < length (map humidity series)) by now rewrite length_map.
  assert (Hraw : derived raw = []).
  { unfold as_loaded in Hload. rewrite Forall_forall in Hload.
    apply Hload. apply nth_error_In in Ei.
    apply (Permutation_in _ (Permutation_sym (sort_values_perm _))) in Ei.
    apply filter_In in Ei. tauto. }
  destruct (lag_row_keeps_reading np default_lags eseries i
              (temporal_row np raw)) as (_ & E1 & E2 & E3 & E4 & E5).
  destruct (temporal_row_same_reading np raw)
    as (_ & F1 & F2 & F3 & F4 & F5).
  assert (Vt : nth i (map temperature series) None = temperature raw)
    by now apply nth_map_nth_error.
  assert (Vh : nth i (map humidity series) None = humidity raw)
    by now apply nth_map_nth_error.
  split.
  - intros Hc. apply row_complete_iff in Hc.
    destruct Hc as (Ht & Hla & Hlo & Hh & Hte & Hcols).
    rewrite E1, F1 in Ht. rewrite E2, F2 in Hla. rewrite E3, F3 in Hlo.
    rewrite E4, F4 in Hh. rewrite E5, F5 in Hte.
    assert (Hlags : forall k, In k default_lags ->
              k <= i
              /\ notna (nth (i - k) (map temperature series) None) = true
              /\ notna (nth (i - k) (map humidity series) None) = true).
    { intros k Hk.
      destruct (lag_row_lag_columns np eseries i k (temporal_row np raw) Hk)
        as [Gt Gh].
      apply (complete_col_notna _ _ _ Hcols) in Gt.
      apply (complete_col_notna _ _ _ Hcols) in Gh.
      rewrite Ct in Gt. rewrite Ch in Gh.
      apply shift_notna in Gt; [| exact Lt].
      apply shift_notna in Gh; [| exact Lh]. tauto. }
    split; [apply (Hlags 24); simpl; tauto |].
    split; [exists raw; split; [reflexivity | repeat split; assumption] |].
    intros k Hk. apply Hlags, Hk.
  - intros (H24 & (raw' & Eraw & Hread) & Hlags).
    injection Eraw as <-.
    destruct Hread as (Ht & Hla & Hlo & Hh & Hte).
    apply row_complete_iff.
    rewrite E1, E2, E3, E4, E5, F1, F2, F3, F4, F5.
    repeat (split; [assumption |]).
    assert (Hn1 : notna (nth (i - 1) (map temperature series) None) = true
                  /\ notna (nth (i - 1) (map humidity series) None) = true)
      by (apply Hlags; simpl; tauto).
    unfold lag_row. rewrite Ct, Ch.
    unfold default_lags. cbn [fold_left derived set_derived].
    repeat (apply set_col_keeps_complete;
            [| first
                 [ apply shift_notna;
                   [assumption
                   | split; [lia | apply Hlags; simpl; tauto]]
                 | apply roll_mean_defined_at;
                   [lia | assumption | rewrite ?Vt, ?Vh; assumption]
                 | apply roll_std_defined_at;
                   [lia | lia | assumption
                   | rewrite ?Vt, ?Vh; assumption | apply Hn1] ]]).
    assert (Hcomp : complete (temporal_row np raw)).
    { apply temporal_row_complete, row_complete_iff.
      rewrite Hraw. repeat split; assumption. }
    apply row_complete_iff in Hcomp. apply Hcomp.
Qed.

Lemma dropna_keeps_exactly_witness :
  let df := hourly "s1" 30 in
  let r := nth 26 (engineer approx_numeric df "s1") (reading "s1" 0) in
  as_loaded df
  /\ nth_error (engineer approx_numeric df "s1") 26 = Some r
  /\ row_complete r = true.
Proof.
  cbv zeta.
  assert (Hl : as_loaded (hourly "s1" 30)).
  { unfold as_loaded. apply Forall_forall. intros r Hr.
    unfold hourly in Hr. apply in_map_iff in Hr.
    destruct Hr as (n & <- & _). reflexivity. }
  assert (Hr : nth_error (engineer approx_numeric (hourly "s1" 30) "s1") 26
               = Some (nth 26 (engineer approx_numeric (hourly "s1" 30) "s1")
                           (reading "s1" 0)))
    by (vm_compute; reflexivity).
  split; [exact Hl |]. split; [exact Hr |].
  apply (dropna_keeps_exactly approx_numeric (hourly "s1" 30) "s1" 26 _ Hl Hr).
  split; [lia |]. split.
  - eexists. split; [vm_compute; reflexivity |].
    repeat split; reflexivity.
  - intros k Hk. simpl in Hk.
    repeat (destruct Hk as [<- | Hk]; [split; vm_compute; reflexivity |]).
    contradiction.
Defined.

(** ** The matrix the forest is fitted on *)

Lemma nth_map_seq {A : Type} (F : nat -> A) (d : A) (n j : nat) :
  j < n -> nth j (map F (seq 0 n)) d = F j.
Proof.
  intros Hj. rewrite (nth_indep _ d (F 0)) by now rewrite length_map, length_seq.
  now rewrite map_nth, seq_nth.
Qed.

Lemma nth_scale_row (means scales row : list Q) :
  forall j : nat,
    j < length row -> length means = length row ->
    length scales = length row ->
    nth j (scale_row means scales row) 0%Q
    = Qred ((nth j row 0 - nth j means 0) / nth j scales 0)%Q.
Proof.
  revert scales row.
  induction means as [| m means IH]; intros scales row j Hj Hm Hs.
  - simpl in Hm. lia.
  - destruct scales as [| s scales]; [simpl in Hs; lia |].
    destruct row as [| x row]; [simpl in Hj; lia |].
    destruct j as [| j]; [reflexivity |].
    cbn [scale_row nth]. apply IH; simpl in *; lia.
Qed.

Lemma Qsum_scaled (f : list Q -> Q) (m s : Q) (X : Matrix) :
  (Qsum (map (fun row => Qred ((f row - m) / s)) X)
   == (Qsum (map f X) - Qnat (length X) * m) / s)%Q.
Proof.
  induction X as [| row X IH].
  - unfold Qsum, Qnat, Qdiv. simpl. ring.
  - cbn [map length]. rewrite !Qsum_cons, IH, Qred_correct, Qnat_S.
    unfold Qdiv. ring.
Qed.

(** X16.  The matrix that [train] hands to the forest is centred: in the
    scaled training matrix every column sums to zero, whatever the spread
    of the column (a column of zero spread included). *)
Theorem train_centres_features (Forest : Type)
  (forest_fit : Matrix -> list Q -> Forest) (np : Numeric)
  (self fitted : Predictor Forest) (X_train : Matrix) (y_train : list Q) :
  train forest_fit np self X_train y_train = inr fitted ->
  exists X_scaled : Matrix,
    model fitted = Some (forest_fit X_scaled y_train)
    /\ length X_scaled = length X_train
    /\ forall j, j < length (hd [] X_train) ->
                 (Qsum (matrix_column X_scaled j) == 0)%Q.
Proof.
  intros Htrain.
  destruct (train_spec Forest forest_fit np self fitted X_train y_train
              Htrain)
    as (sc & Xs & Efit & Hsc & -> & Hm & _).
  exists (map (scale_row (mean_ sc) (scale_ sc)) X_train).
  split; [exact Hm |]. split; [apply length_map |].
  intros j Hj.
  destruct (scaler_fit_width np X_train sc Efit) as [Wm Ws].
  assert (Hw : Forall (fun row => length row = length (mean_ sc)) X_train).
  { unfold train in Htrain. rewrite Efit in Htrain.
    destruct (scaler_transform sc X_train) as [e | Xs] eqn:Etr;
      [discriminate |].
    apply (scaler_transform_width sc X_train Xs Etr). }
  assert (Hmean : nth j (mean_ sc) 0%Q = Qmean (matrix_column X_train j)).
  { destruct X_train as [| row X]; [simpl in Hj; lia |].
    cbn [scaler_fit] in Efit. injection Efit as <-.
    cbn [mean_ hd] in *. rewrite map_map.
    exact (nth_map_seq (fun k => Qmean (matrix_column (row :: X) k)) 0%Q
             (length row) j Hj). }
  unfold matrix_column. rewrite map_map.
  assert (E : map (fun row => nth j (scale_row (mean_ sc) (scale_ sc) row) 0%Q)
                X_train
              = map (fun row => Qred ((nth j row 0 - nth j (mean_ sc) 0)
                                      / nth j (scale_ sc) 0)%Q) X_train).
  { apply map_ext_in. intros row Hrow. rewrite Forall_forall in Hw.
    pose proof (Hw row Hrow) as Hl.
    apply nth_scale_row; lia. }
  rewrite E, (Qsum_scaled (fun row => nth j row 0%Q)), Hmean.
  fold (matrix_column X_train j).
  unfold Qmean. rewrite Qred_correct.
  unfold matrix_column at 3. rewrite length_map.
  assert (HN : (0 < Qnat (length X_train))%Q).
  { apply Qnat_pos. destruct X_train; [simpl in Hj; lia | simpl; lia]. }
  set (N := Qnat (length X_train)) in *.
  set (S1 := Qsum (matrix_column X_train j)).
  assert (E0 : (S1 - N * (S1 / N) == 0)%Q) by (field; lra).
  rewrite E0. unfold Qdiv. ring.
Qed.

Lemma train_centres_features_witness :
  exists (fitted : Predictor Q) (X_scaled : Matrix),
    train mean_forest_fit approx_numeric init small_X small_y = inr fitted
    /\ length X_scaled = 3
    /\ (Qsum (matrix_column X_scaled 1) == 0)%Q.
Proof.
  destruct (train mean_forest_fit approx_numeric init small_X small_y)
    as [e | fitted] eqn:E; [vm_compute in E; discriminate |].
  destruct (train_centres_features Q mean_forest_fit approx_numeric init
              fitted small_X small_y E) as (Xs & _ & Hl & Hz).
  exists fitted, Xs. split; [reflexivity |]. split; [exact Hl |].
  apply Hz. simpl. lia.
Defined.

(** ** The per-sensor errors of [main] *)

Lemma assign_combine (name : string) (df : DataFrame) :
  forall ps : list Q,
    length ps = length df ->
    assign name (map Some ps) df
    = map (fun rp => set_derived name (Some (snd rp)) (fst rp))
          (combine df ps).
Proof.
  induction df as [| r df IH]; intros [| p ps] Hlen;
    simpl in Hlen; try lia; [reflexivity |].
  cbn [map assign combine hd tl fst snd]. f_equal.
  apply IH. lia.
Qed.

Lemma with_errors_rows (test_df : DataFrame) (y_pred : list Q) :
  length y_pred = length test_df ->
  with_errors test_df y_pred = inr (map error_row (combine test_df y_pred)).
Proof.
  intros Hlen. unfold with_errors. rewrite Hlen, Nat.eqb_refl. cbv zeta.
  rewrite assign_map, (assign_combine _ _ _ Hlen), map_map.
  f_equal. apply map_ext. intros [r p]. unfold error_row. cbn [fst snd].
  f_equal. f_equal. unfold cell_of, column_value.
  cbn [derived set_derived]. cbv [String.eqb Ascii.eqb Bool.eqb].
  now rewrite get_set_col_same.
Qed.

Lemma map_fst_combine {A B : Type} (a : list A) :
  forall b : list B, length b = length a -> map fst (combine a b) = a.
Proof.
  induction a as [| x a IH]; intros [| y b] H; simpl in *; try lia; auto.
  f_equal. apply IH. lia.
Qed.

Lemma filter_map_comm {A B : Type} (f : A -> B) (p : B -> bool) (l : list A) :
  filter p (map f l) = map f (filter (fun a => p (f a)) l).
Proof.
  induction l as [| a l IH]; simpl; auto.
  destruct (p (f a)); simpl; now rewrite IH.
Qed.

Lemma observed_map_Some (l : list Q) : observed (map Some l) = l.
Proof. induction l as [| x l IH]; [reflexivity |]. cbn. now rewrite IH. Qed.

Lemma Qsum_nonneg (l : list Q) :
  (forall x, In x l -> (0 <= x)%Q) -> (0 <= Qsum l)%Q.
Proof.
  induction l as [| x l IH]; intros Hl; [unfold Qsum; simpl; lra |].
  rewrite Qsum_cons.
  pose proof (Hl x (or_introl eq_refl)).
  assert ((0 <= Qsum l)%Q) by (apply IH; intros y Hy; apply Hl; now right).
  lra.
Qed.

Lemma Qmean_nonneg (l : list Q) :
  l <> [] -> (forall x, In x l -> (0 <= x)%Q) -> (0 <= Qmean l)%Q.
Proof.
  intros Hne Hl. unfold Qmean. rewrite Qred_correct.
  apply Qle_shift_div_l.
  - apply Qnat_pos. destruct l; [congruence | simpl; lia].
  - rewrite Qmult_0_l. now apply Qsum_nonneg.
Qed.

Lemma Qmean_weighted (l : list Q) :
  l <> [] -> (Qnat (length l) * Qmean l == Qsum l)%Q.
Proof.
  intros Hne. unfold Qmean. rewrite Qred_correct.
  assert (HN : (0 < Qnat (length l))%Q).
  { apply Qnat_pos. destruct l; [congruence | simpl; lia]. }
  field. lra.
Qed.

Lemma Qsum_group_cons {A : Type} (key : A -> string) (val : A -> Q)
  (a : A) (l : list A) (s : string) :
  (Qsum (map val (filter (fun x => String.eqb (key x) s) (a :: l)))
   == Qsum (map val (filter (fun x => String.eqb (key x) s) l))
      + (if String.eqb (key a) s then val a else 0))%Q.
Proof.
  cbn [filter]. destruct (String.eqb (key a) s).
  - cbn [map]. apply Qsum_cons.
  - ring.
Qed.

Lemma Qsum_groups_cons {A : Type} (key : A -> string) (val : A -> Q)
  (a : A) (l : list A) (ids : list string) :
  NoDup ids ->
  (Qsum (map (fun s =>
                Qsum (map val (filter (fun x => String.eqb (key x) s)
                                 (a :: l))))
             ids)
   == Qsum (map (fun s =>
                   Qsum (map val (filter (fun x => String.eqb (key x) s) l)))
                ids)
      + (if contains (key a) ids then val a else 0))%Q.
Proof.
  induction 1 as [| s ids Hnot Hnd IH].
  - unfold Qsum. simpl. ring.
  - cbn [map]. rewrite !Qsum_cons, IH, Qsum_group_cons.
    unfold contains. cbn [existsb].
    destruct (String.eqb_spec (key a) s) as [E | E]; cbn [orb]; [| ring].
    assert (Hc : existsb (String.eqb (key a)) ids = false).
    { destruct (existsb (String.eqb (key a)) ids) eqn:Ex; [| reflexivity].
      apply existsb_exists in Ex. destruct Ex as (x & Hx & Ek).
      apply String.eqb_eq in Ek. congruence. }
    rewrite Hc. ring.
Qed.

(** Summing group by group, over keys without repeats that cover the
    list, is summing the list. *)
Lemma Qsum_by_key {A : Type} (key : A -> string) (val : A -> Q)
  (ids : list string) :
  NoDup ids ->
  forall l : list A,
    (forall a, In a l -> In (key a) ids) ->
    (Qsum (map (fun s =>
                  Qsum (map val (filter (fun a => String.eqb (key a) s) l)))
               ids)
     == Qsum (map val l))%Q.
Proof.
  intros Hnd. induction l as [| a l IH]; intros Hin.
  - clear. induction ids as [| s ids IHs]; [reflexivity |].
    cbn [map filter]. rewrite Qsum_cons.
    cbn [map filter] in IHs. rewrite IHs.
    unfold Qsum. simpl. ring.
  - rewrite (Qsum_groups_cons key val a l ids Hnd).
    rewrite IH by (intros x Hx; apply Hin; now right).
    cbn [map]. rewrite Qsum_cons.
    assert (Hc : contains (key a) ids = true).
    { unfold contains. apply existsb_exists. exists (key a).
      split; [apply Hin; now left | apply String.eqb_refl]. }
    rewrite Hc. reflexivity.
Qed.

Lemma abs_errors_are_residuals (test_df : DataFrame) :
  forall y_pred : list Q,
    Forall (fun r => notna (temperature r) = true) test_df ->
    map (fun rp => number_of (abs_diff (temperature (fst rp))
                                (Some (snd rp))))
        (combine test_df y_pred)
    = map Qabs (residuals (map (fun r => number_of (temperature r)) test_df)
                  y_pred).
Proof.
  induction test_df as [| r df IH]; intros [| p ps] Hn; try reflexivity.
  inversion Hn as [| ? ? Hr Hrest]; subst.
  cbn [combine map residuals fst snd]. rewrite (IH ps Hrest).
  destruct (temperature r); [reflexivity | discriminate].
Qed.

Lemma length_residuals (y_true : list Q) :
  forall y_pred : list Q,
    length y_pred = length y_true ->
    length (residuals y_true y_pred) = length y_true.
Proof.
  induction y_true as [| a l IH]; intros [| b l'] H; simpl in *; try lia.
  f_equal. apply IH. lia.
Qed.

(** X17.  The error analysis of [main], on a test frame without a null
    temperature: with as many predictions as rows, every row gets an error
    that is a number and not negative, and there is one mean error per
    sensor of the frame, in order of first appearance, each a number and
    not negative; weighted by the number of rows of their sensors, these
    means add up to the number of rows times the MAE that [evaluate]
    reports for the whole frame.  With another number of predictions the
    assignment of the predictions raises. *)
Theorem per_sensor_errors (test_df : DataFrame) (y_pred : list Q) :
  Forall (fun r => notna (temperature r) = true) test_df ->
  (length y_pred <> length test_df ->
   exists e, with_errors test_df y_pred = inl e)
  /\ (length y_pred = length test_df ->
      exists df : DataFrame,
        with_errors test_df y_pred = inr df
        /\ Forall (fun r => exists e : Q,
                       cell_of "error" r = Some e /\ (0 <= e)%Q) df
        /\ map fst (per_sensor_mae df) = unique (map sensor_id test_df)
        /\ Forall (fun sm => exists q : Q,
                       snd sm = Some q /\ (0 <= q)%Q) (per_sensor_mae df)
        /\ (Qsum (map (fun sm =>
                         Qnat (length (rows_of (fst sm) test_df))
                         * number_of (snd sm))
                      (per_sensor_mae df))
            == Qnat (length test_df)
               * mean_absolute_error
                   (map (fun r => number_of (temperature r)) test_df)
                   y_pred)%Q).
Proof.
  intros Hn. split.
  - intros Hne. unfold with_errors.
    destruct (length y_pred =? length test_df) eqn:E;
      [apply Nat.eqb_eq in E; contradiction | eexists; reflexivity].
  - intros Hlen. rewrite (with_errors_rows _ _ Hlen).
    set (pairs := combine test_df y_pred).
    set (key := fun rp : Row * Q => sensor_id (fst rp)).
    set (val := fun rp : Row * Q =>
                  number_of (abs_diff (temperature (fst rp)) (Some (snd rp)))).
    set (group := fun s => filter (fun rp => String.eqb (key rp) s) pairs).
    exists (map error_row pairs).
    assert (Hfst : map fst pairs = test_df)
      by (apply map_fst_combine; exact Hlen).
    assert (Hids : map sensor_id (map error_row pairs)
                   = map sensor_id test_df).
    { rewrite map_map. rewrite <- Hfst at 1. rewrite map_map. reflexivity. }
    assert (Htemp : forall rp, In rp pairs ->
              abs_diff (temperature (fst rp)) (Some (snd rp)) = Some (val rp)
              /\ (0 <= val rp)%Q).
    { intros [r p] Hin. apply in_combine_l in Hin.
      rewrite Forall_forall in Hn. specialize (Hn r Hin).
      unfold val. cbn [fst snd].
      destruct (temperature r) as [t |]; [| discriminate].
      cbn [abs_diff number_of]. split; [reflexivity |].
      apply Qabs_nonneg. }
    assert (Herr : forall rp, cell_of "error" (error_row rp)
                              = abs_diff (temperature (fst rp))
                                  (Some (snd rp))).
    { intros rp. unfold cell_of, column_value, error_row.
      cbn [derived set_derived]. cbv [String.eqb Ascii.eqb Bool.eqb].
      now rewrite get_set_col_same. }
    assert (Hcells : forall s,
              map (cell_of "error") (rows_of s (map error_row pairs))
              = map Some (map val (group s))).
    { intros s. unfold rows_of, group. rewrite filter_map_comm, !map_map.
      apply map_ext_in. intros rp Hrp. apply filter_In in Hrp.
      rewrite Herr. apply Htemp, Hrp. }
    assert (Hrows : forall s,
              length (rows_of s test_df) = length (map val (group s))).
    { intros s. unfold rows_of, group. rewrite <- Hfst at 1.
      rewrite filter_map_comm, !length_map. reflexivity. }
    assert (Hnonempty : forall s,
              In s (unique (map sensor_id test_df)) ->
              map val (group s) <> []).
    { intros s Hs E. apply map_eq_nil in E.
      apply (proj1 (unique_In _ _)) in Hs.
      rewrite <- Hfst, map_map in Hs.
      apply in_map_iff in Hs. destruct Hs as (rp & Hk & Hin).
      assert (Hf : In rp (group s)).
      { apply filter_In. split; [exact Hin |]. now apply String.eqb_eq. }
      rewrite E in Hf. contradiction. }
    assert (Hmae : forall s,
              In s (unique (map sensor_id test_df)) ->
              mean_present
                (map (cell_of "error") (rows_of s (map error_row pairs)))
              = Some (Qmean (map val (group s)))).
    { intros s Hs. rewrite Hcells. unfold mean_present.
      rewrite observed_map_Some.
      pose proof (Hnonempty s Hs) as Hne.
      destruct (map val (group s)); [congruence | reflexivity]. }
    split; [reflexivity |]. split; [| split; [| split]].
    + apply Forall_forall. intros r Hr. apply in_map_iff in Hr.
      destruct Hr as (rp & <- & Hin). rewrite Herr.
      destruct (Htemp rp Hin) as [E Hge]. exists (val rp).
      split; assumption.
    + unfold per_sensor_mae. rewrite map_map. cbn [fst].
      rewrite map_id. rewrite Hids. reflexivity.
    + unfold per_sensor_mae. rewrite Hids. apply Forall_forall.
      intros sm Hsm. apply in_map_iff in Hsm. destruct Hsm as (s & <- & Hs).
      cbn [snd]. rewrite (Hmae s Hs). eexists. split; [reflexivity |].
      apply Qmean_nonneg; [exact (Hnonempty s Hs) |].
      intros x Hx. apply in_map_iff in Hx. destruct Hx as (rp & <- & Hrp).
      apply filter_In in Hrp. apply Htemp, Hrp.
    + unfold per_sensor_mae. rewrite Hids, map_map. cbn [fst snd].
      assert (Esum :
                (Qsum (map (fun s =>
                         (Qnat (length (rows_of s test_df))
                          * number_of
                              (mean_present
                                 (map (cell_of "error")
                                    (rows_of s (map error_row pairs)))))%Q)
                         (unique (map sensor_id test_df)))
                 == Qsum (map (fun s => Qsum (map val (group s)))
                            (unique (map sensor_id test_df))))%Q).
      { revert Hmae Hnonempty.
        generalize (unique (map sensor_id test_df)).
        induction l as [| s l IHl]; intros Hmae Hne; [reflexivity |].
        cbn [map]. rewrite !Qsum_cons.
        rewrite IHl;
          [| intros s0 Hs0; apply Hmae; now right
           | intros s0 Hs0; apply Hne; now right].
        rewrite (Hmae s (or_introl eq_refl)), Hrows. cbn [number_of].
        rewrite Qmean_weighted; [reflexivity |].
        exact (Hne s (or_introl eq_refl)). }
      rewrite Esum. unfold group.
      rewrite (Qsum_by_key key val); [| apply unique_NoDup |].
      * unfold val, pairs. rewrite (abs_errors_are_residuals _ _ Hn).
        unfold mean_absolute_error.
        destruct test_df as [| r0 df0].
        -- destruct y_pred; [| discriminate]. vm_compute. reflexivity.
        -- rewrite <- Qmean_weighted.
           ++ rewrite length_map, length_residuals
                by (rewrite length_map; exact Hlen).
              rewrite length_map. reflexivity.
           ++ destruct y_pred; [discriminate |].
              cbn [map residuals]. discriminate.
      * intros rp Hin. apply (proj2 (unique_In _ _)). unfold key.
        rewrite <- Hfst, map_map. apply in_map_iff.
        exists rp. split; [reflexivity | exact Hin].
Qed.

Lemma per_sensor_errors_witness :
  exists df : DataFrame,
    with_errors (hourly "s1" 2 ++ hourly "s2" 1)
      [(21 # 1)%Q; (20 # 1)%Q; (22 # 1)%Q] = inr df
    /\ map fst (per_sensor_mae df) = ["s1"; "s2"]%string
    /\ Forall (fun sm => exists q : Q, snd sm = Some q /\ (0 <= q)%Q)
         (per_sensor_mae df).
Proof.
  destruct (per_sensor_errors (hourly "s1" 2 ++ hourly "s2" 1)
              [(21 # 1)%Q; (20 # 1)%Q; (22 # 1)%Q]) as [_ H].
  { vm_compute. repeat constructor. }
  destruct (H eq_refl) as (df & E & _ & Hk & Hm & _).
  exists df. split; [exact E |]. split; [exact Hk | exact Hm].
Defined.
